(** * oak: field policy engine and struct extractor

    A shallow embedding of the Go packages [internal/parser],
    [internal/config] and [internal/types] of oak, the generator of
    [LogValue] methods for structured logging, followed by the properties
    of the field classification, of the emitted statements and of the
    extraction of records from a source unit.

    Go strings are byte sequences: they are modelled by [string], whose
    characters are the 256 values of [ascii].  Go [int]s are modelled by
    [Z].  A run-time panic (a slice expression out of range) is the [None]
    of an [option] result. *)

From Stdlib Require Import String Ascii List Bool Arith NArith ZArith Lia.
From Stdlib Require Import ZifyBool.
Import ListNotations.
Open Scope string_scope.

Set Warnings "-register-all".

(** ** The run-time panic monad *)

Definition bind {A B : Type} (m : option A) (k : A -> option B) : option B :=
  match m with
  | Some a => k a
  | None => None
  end.

Notation "x <- m ;; k" := (bind m (fun x => k))
  (at level 61, m at next level, right associativity).

(** ** Package [strings] of the Go library, as far as oak calls it *)

Module GoStrings.

Definition dquote : string := String "034"%char "".
Definition newline : string := String "010"%char "".
Definition tab : string := String "009"%char "".

Definition len (s : string) : Z := Z.of_nat (String.length s).

(** [s[i]] *)
Definition byte_at (s : string) (i : Z) : option ascii :=
  if (0 <=? i)%Z && (i <? len s)%Z then String.get (Z.to_nat i) s else None.

(** [s[i:j]]: panics unless [0 <= i <= j <= len(s)]. *)
Definition slice (s : string) (i j : Z) : option string :=
  if (0 <=? i)%Z && (i <=? j)%Z && (j <=? len s)%Z
  then Some (substring (Z.to_nat i) (Z.to_nat (j - i)) s)
  else None.

(** [s[i:]] *)
Definition slice_from (s : string) (i : Z) : option string :=
  slice s i (len s).

Definition HasPrefix (s prefix : string) : bool := String.prefix prefix s.

Definition HasSuffix (s suffix : string) : bool :=
  (String.length suffix <=? String.length s)%nat
  && String.eqb
       (substring (String.length s - String.length suffix)
                  (String.length suffix) s)
       suffix.

Definition TrimPrefix (s prefix : string) : string :=
  if HasPrefix s prefix
  then substring (String.length prefix)
                 (String.length s - String.length prefix) s
  else s.

(** [strings.Index(s, substr)]: the first position of [substr] in [s],
    or [-1]. *)
Definition Index (s substr : string) : Z :=
  match String.index 0 substr s with
  | Some n => Z.of_nat n
  | None => (-1)%Z
  end.

(** [strings.Split(s, sep)] for a separator of one byte, the only way
    oak calls it: [s] is cut at every occurrence of [sep], so the result
    has one more element than [s] has separators. *)
Fixpoint Split (s : string) (sep : ascii) : list string :=
  match s with
  | EmptyString => [EmptyString]
  | String c s' =>
      if Ascii.eqb c sep then EmptyString :: Split s' sep
      else match Split s' sep with
           | x :: r => String c x :: r
           | [] => [String c EmptyString]
           end
  end.

(** *** Bytes *)

Definition RuneSelf : N := 128.

Definition isASCII_byte (c : ascii) : bool := (N_of_ascii c <? RuneSelf)%N.

Definition isUpper_byte (c : ascii) : bool :=
  (65 <=? N_of_ascii c)%N && (N_of_ascii c <=? 90)%N.

(** [c += 'a' - 'A'] on an upper-case letter. *)
Definition lower_byte (c : ascii) : ascii :=
  if isUpper_byte c then ascii_of_N (N_of_ascii c + 32) else c.

(** The table [asciiSpace]: ['\t'], ['\n'], ['\v'], ['\f'], ['\r'], [' ']. *)
Definition asciiSpace (c : ascii) : bool :=
  let n := N_of_ascii c in
  ((9 <=? n)%N && (n <=? 13)%N) || (n =? 32)%N.

Fixpoint all_bytes (p : ascii -> bool) (s : string) : bool :=
  match s with
  | EmptyString => true
  | String c s' => p c && all_bytes p s'
  end.

Fixpoint any_byte (p : ascii -> bool) (s : string) : bool :=
  match s with
  | EmptyString => false
  | String c s' => p c || any_byte p s'
  end.

Fixpoint map_bytes (f : ascii -> ascii) (s : string) : string :=
  match s with
  | EmptyString => EmptyString
  | String c s' => String (f c) (map_bytes f s')
  end.

Definition isASCII (s : string) : bool := all_bytes isASCII_byte s.
Definition hasUpper (s : string) : bool := any_byte isUpper_byte s.

Fixpoint last_byte (s : string) : option ascii :=
  match s with
  | EmptyString => None
  | String c EmptyString => Some c
  | String _ s' => last_byte s'
  end.

(** The first loop of [TrimSpace]: [s[start:]], where [start] is the
    first position that holds a byte other than an ASCII space. *)
Fixpoint skip_ascii_space (s : string) : string :=
  match s with
  | EmptyString => EmptyString
  | String c s' =>
      if isASCII_byte c && asciiSpace c then skip_ascii_space s' else s
  end.

(** The second loop of [TrimSpace]: [s[:stop]], where [stop - 1] is the
    last position that holds a byte other than an ASCII space. *)
Fixpoint drop_trailing_ascii_space (s : string) : string :=
  match s with
  | EmptyString => EmptyString
  | String c s' =>
      match drop_trailing_ascii_space s' with
      | EmptyString =>
          if isASCII_byte c && asciiSpace c then EmptyString
          else String c EmptyString
      | r => String c r
      end
  end.

(** The paths of the library that decode UTF-8 and consult the Unicode
    tables are not part of oak; they are taken as parameters.
    - [unicode_ToLower s] is [strings.Map(unicode.ToLower, s)], which
      [ToLower] calls on a string that holds a byte outside ASCII;
    - [unicode_TrimFunc s] is [strings.TrimFunc(s, unicode.IsSpace)] and
      [unicode_TrimRightFunc s] is
      [strings.TrimRightFunc(s, unicode.IsSpace)], which [TrimSpace]
      calls when its scan from the left, or from the right, meets a byte
      outside ASCII. *)
Class Unicode : Type := {
  unicode_ToLower : string -> string;
  unicode_TrimFunc : string -> string;
  unicode_TrimRightFunc : string -> string
}.

Section WithUnicode.
Context {U : Unicode}.

(** [strings.ToLower]: the ASCII-only string is lowered byte by byte
    (and returned as it is when it holds no upper-case letter);
    any other string goes through the Unicode tables. *)
Definition ToLower (s : string) : string :=
  if isASCII s then
    if negb (hasUpper s) then s else map_bytes lower_byte s
  else unicode_ToLower s.

(** [strings.TrimSpace]. *)
Definition TrimSpace (s : string) : string :=
  match skip_ascii_space s with
  | EmptyString => EmptyString
  | String c r =>
      if negb (isASCII_byte c) then unicode_TrimFunc (String c r)
      else
        let t := drop_trailing_ascii_space (String c r) in
        match last_byte t with
        | Some d => if negb (isASCII_byte d) then unicode_TrimRightFunc t
                    else t
        | None => t
        end
  end.
End WithUnicode.

(** An instance in which no byte outside ASCII is a letter with case or
    a white space; the model is run with it on concrete inputs. *)
Definition plain_Unicode : Unicode := {|
  unicode_ToLower := map_bytes lower_byte;
  unicode_TrimFunc := drop_trailing_ascii_space;
  unicode_TrimRightFunc := fun s => s
|}.

End GoStrings.

(** ** Package [internal/parser] *)

Module Parser.
Import GoStrings.

(** *** The syntax trees of [go/ast], as far as the parser reads them *)

(** Type expressions.  The constructors are the implementations of
    [ast.Expr]; the parts the parser never looks at are left out. *)
Inductive Expr : Type :=
  | BadExpr
  | Ident (Name : string)
  | Ellipsis
  | BasicLit (Value : string)
  | FuncLit
  | CompositeLit
  | ParenExpr (X : Expr)
  | SelectorExpr (X : Expr) (Sel : string)
  | IndexExpr (X Index : Expr)
  | IndexListExpr (X : Expr) (Indices : list Expr)
  | SliceExpr
  | TypeAssertExpr
  | CallExpr
  | StarExpr (X : Expr)
  | UnaryExpr (X : Expr)
  | BinaryExpr (X Y : Expr)
  | KeyValueExpr
  | ArrayType (Len : option Expr) (Elt : Expr)
  | StructType (Fields : list Field)
  | FuncType
  | InterfaceType
  | MapType (Key Value : Expr)
  | ChanType (Value : Expr)
(** [ast.Field]: the names of a field group, its type and its tag, the
    latter as the source spells it (a [BasicLit] value). *)
with Field : Type :=
  | mkField (Names : list string) (Type_ : Expr) (Tag : option string).

(** [GenDecl.Tok] *)
Inductive Token : Type := IMPORT | CONST | TYPE | VAR.

Inductive Spec : Type :=
  | ImportSpec
  | ValueSpec
  | TypeSpec (Name : string) (Type_ : Expr).

(** The nodes [ast.Inspect] visits below a file.  A [GenDecl] carries its
    specs, and every node the syntax nodes below it, in source order. *)
Inductive Node : Type :=
  | GenDecl (Tok : Token) (Specs : list Spec) (below : list Node)
  | OtherNode (below : list Node).

(** [ast.File]: the package name, the declarations and the comment
    groups, each comment by its [Text]. *)
Record File : Type := {
  File_Name : string;
  Decls : list Node;
  Comments : list (list string)
}.

(** The order in which [ast.Inspect] calls its function: a node, then
    the nodes below it, depth first. *)
Fixpoint inspect_order (n : Node) : list Node :=
  n :: match n with
       | GenDecl _ _ below | OtherNode below =>
           (fix go (l : list Node) : list Node :=
              match l with
              | [] => []
              | m :: l' => (inspect_order m ++ go l')%list
              end) below
       end.

(** *** The descriptors *)

Record FieldInfo : Type := {
  Name : string;
  Type_ : string;
  Tag : string;
  LogTag : string;
  IsPointer : bool
}.

Record StructInfo : Type := {
  Struct_Name : string;
  Struct_PackageName : string;
  Struct_Fields : list FieldInfo;
  Struct_FilePath : string
}.

Record ParseResult : Type := {
  Structs : list StructInfo;
  Errors : list string
}.

(** *** [typeToString] and [isPointerType] *)

Fixpoint typeToString (expr : Expr) : string :=
  match expr with
  | Ident name => name
  | StarExpr x => "*" ++ typeToString x
  | ArrayType None elt => "[]" ++ typeToString elt
  | ArrayType (Some n) elt =>
      "[" ++ typeToString n ++ "]" ++ typeToString elt
  | MapType k v => "map[" ++ typeToString k ++ "]" ++ typeToString v
  | SelectorExpr x sel => typeToString x ++ "." ++ sel
  | InterfaceType => "interface{}"
  | _ => "unknown"
  end.

Definition isPointerType (expr : Expr) : bool :=
  match expr with
  | StarExpr _ => true
  | _ => false
  end.

(** *** [extractLogTag] *)

(** [len(s) >= 2 && s[0] == q && s[len(s)-1] == q] *)
Definition enclosed_by (s : string) (q : ascii) : option bool :=
  if (2 <=? len s)%Z then
    c <- byte_at s 0 ;;
    if Ascii.eqb c q then
      d <- byte_at s (len s - 1) ;;
      Some (Ascii.eqb d q)
    else Some false
  else Some false.

(** The body of the loop over the parts of a tag: [Some (Some v)] when
    the body returns [v], [Some None] when the loop goes on. *)
Definition logTag_of_part (part : string) : option (option string) :=
  if HasPrefix part "log:" then
    let colonIndex := Index part ":" in
    if (0 <=? colonIndex)%Z && (colonIndex <? len part - 1)%Z then
      value <- slice_from part (colonIndex + 1) ;;
      q <- enclosed_by value "034"%char ;;
      if q then
        v <- slice value 1 (len value - 1) ;;
        Some (Some v)
      else Some None
    else Some None
  else Some None.

Fixpoint extractLogTag_parts (parts : list string) : option string :=
  match parts with
  | [] => Some ""
  | part :: rest =>
      r <- logTag_of_part part ;;
      match r with
      | Some v => Some v
      | None => extractLogTag_parts rest
      end
  end.

Definition extractLogTag (tagValue : string) : option string :=
  b <- enclosed_by tagValue "`"%char ;;
  tagValue <- (if b then slice tagValue 1 (len tagValue - 1)
               else Some tagValue) ;;
  extractLogTag_parts (Split tagValue " "%char).

(** *** [extractFields] *)

(** The tag and log tag of a field group: both empty without a tag. *)
Definition tag_of (tag : option string) : option (string * string) :=
  match tag with
  | None => Some ("", "")
  | Some v => l <- extractLogTag v ;; Some (v, l)
  end.

Definition fields_of (f : Field) : option (list FieldInfo) :=
  match f with
  | mkField names ty tag =>
      tl <- tag_of tag ;;
      let mk name := {| Name := name;
                        Type_ := typeToString ty;
                        Tag := fst tl;
                        LogTag := snd tl;
                        IsPointer := isPointerType ty |} in
      match names with
      | [] => Some [mk (typeToString ty)]
      | _ => Some (map mk names)
      end
  end.

Fixpoint extractFields (fields : list Field) : option (list FieldInfo) :=
  match fields with
  | [] => Some []
  | f :: rest =>
      fs <- fields_of f ;;
      more <- extractFields rest ;;
      Some (fs ++ more)%list
  end.

(** *** [extractStructs] *)

Fixpoint structs_of_specs (pkg filePath : string) (specs : list Spec)
  : option (list StructInfo) :=
  match specs with
  | [] => Some []
  | TypeSpec name (StructType fields) :: rest =>
      fs <- extractFields fields ;;
      more <- structs_of_specs pkg filePath rest ;;
      Some ({| Struct_Name := name;
               Struct_PackageName := pkg;
               Struct_Fields := fs;
               Struct_FilePath := filePath |} :: more)
  | _ :: rest => structs_of_specs pkg filePath rest
  end.

(** The function handed to [ast.Inspect], applied to one node. *)
Definition structs_of_node (pkg filePath : string) (n : Node)
  : option (list StructInfo) :=
  match n with
  | GenDecl TYPE specs _ => structs_of_specs pkg filePath specs
  | _ => Some []
  end.

Fixpoint structs_of_nodes (pkg filePath : string) (nodes : list Node)
  : option (list StructInfo) :=
  match nodes with
  | [] => Some []
  | n :: rest =>
      here <- structs_of_node pkg filePath n ;;
      more <- structs_of_nodes pkg filePath rest ;;
      Some (here ++ more)%list
  end.

Definition extractStructs (file : File) (filePath : string)
  : option (list StructInfo) :=
  structs_of_nodes (File_Name file) filePath
    (flat_map inspect_order (Decls file)).

Section WithLibrary.
Context {U : Unicode}.

(** *** [hasOakDirective] *)

(** The text of a comment once its markers are removed, as the body of
    the loop computes it. *)
Definition directive_text (commentText : string) : option string :=
  let text := TrimSpace commentText in
  if HasPrefix text "//" then
    t <- slice_from text 2 ;;
    Some (TrimSpace t)
  else if HasPrefix text "/*" && HasSuffix text "*/" then
    t <- slice text 2 (len text - 2) ;;
    Some (TrimSpace t)
  else Some text.

Fixpoint hasOakDirective_group (comments : list string) : option bool :=
  match comments with
  | [] => Some false
  | c :: rest =>
      text <- directive_text c ;;
      if HasPrefix text "go:generate oak" then Some true
      else hasOakDirective_group rest
  end.

Fixpoint hasOakDirective_groups (groups : list (list string))
  : option bool :=
  match groups with
  | [] => Some false
  | g :: rest =>
      b <- hasOakDirective_group g ;;
      if b then Some true else hasOakDirective_groups rest
  end.

Definition hasOakDirective (file : File) : option bool :=
  hasOakDirective_groups (Comments file).

(** *** [ParseFile] *)

(** [parser.ParseFile] of [go/parser] reads and parses the unit at a
    path: it yields the syntax tree, or the error of the first
    syntax error. *)
Variable parser_ParseFile : string -> File + string.

(** The result is the pair of Go: a [*ParseResult], [nil] on an
    error, and an [error], [nil] on success. *)
Definition ParseFile (filePath : string)
  : option (option ParseResult * option string) :=
  match parser_ParseFile filePath with
  | inr err =>
      Some (None,
            Some ("failed to parse file " ++ filePath ++ ": " ++ err))
  | inl file =>
      b <- hasOakDirective file ;;
      if negb b then Some (Some {| Structs := []; Errors := [] |}, None)
      else
        structs <- extractStructs file filePath ;;
        Some (Some {| Structs := structs; Errors := [] |}, None)
  end.
End WithLibrary.

End Parser.

(** ** Package [internal/config] *)

Module Config.
Import GoStrings.

Record Config : Type := {
  Packages : list string;
  RedactKeys : list string;
  RedactMessage : string
}.

Definition DefaultConfig : Config := {|
  Packages := ["."];
  RedactKeys := [];
  RedactMessage := "[REDACTED]"
|}.

(** What [validate] asks of the file system: [filepath.IsAbs],
    [filepath.Abs] (a path or an error) and whether [os.Stat] fails
    with an error that [os.IsNotExist] recognises. *)
Class FileSystem : Type := {
  filepath_IsAbs : string -> bool;
  filepath_Abs : string -> string + string;
  stat_IsNotExist : string -> bool
}.

Section WithLibrary.
Context {U : Unicode} {FS : FileSystem}.

(** The loop of [validate] over the package paths: the error it
    returns, if any. *)
Fixpoint validate_packages (pkgs : list string) : option string :=
  match pkgs with
  | [] => None
  | pkg :: rest =>
      if String.eqb pkg "" then
        Some "empty package path in packages list"
      else if negb (filepath_IsAbs pkg) then
        match filepath_Abs pkg with
        | inr err => Some ("invalid package path " ++ pkg ++ ": " ++ err)
        | inl absPath =>
            if stat_IsNotExist absPath then
              Some ("package path does not exist: " ++ pkg)
            else validate_packages rest
        end
      else validate_packages rest
  end.

(** [validate] changes the configuration in place and returns an
    error: the result is the configuration afterwards and the error. *)
Definition validate (c : Config) : Config * option string :=
  let c := {| Packages := Packages c;
              RedactKeys := map ToLower (RedactKeys c);
              RedactMessage := RedactMessage c |} in
  let c := if String.eqb (RedactMessage c) ""
           then {| Packages := Packages c;
                   RedactKeys := RedactKeys c;
                   RedactMessage := "[REDACTED]" |}
           else c in
  (c, validate_packages (Packages c)).

Fixpoint ShouldRedactField_keys (fieldLower : string)
  (keys : list string) : bool :=
  match keys with
  | [] => false
  | redactKey :: rest =>
      if String.eqb fieldLower redactKey then true
      else ShouldRedactField_keys fieldLower rest
  end.

Definition ShouldRedactField (c : Config) (fieldName : string) : bool :=
  let fieldLower := ToLower fieldName in
  ShouldRedactField_keys fieldLower (RedactKeys c).
End WithLibrary.

Definition GetPackages (c : Config) : list string :=
  if (List.length (Packages c) =? 0)%nat then ["."] else Packages c.

End Config.

(** ** Package [internal/types] *)

Module Types.
Import GoStrings.
Import Parser.
Import Config.

(** [SlogFunction] is a string type with five named values. *)
Definition SlogFunction : Type := string.

Definition SlogInt64 : SlogFunction := "slog.Int64".
Definition SlogString : SlogFunction := "slog.String".
Definition SlogBool : SlogFunction := "slog.Bool".
Definition SlogFloat64 : SlogFunction := "slog.Float64".
Definition SlogAny : SlogFunction := "slog.Any".

(** [FieldAction] is an integer type; [iota] numbers its values. *)
Definition FieldAction : Type := Z.

Definition ActionLog : FieldAction := 0%Z.
Definition ActionRedact : FieldAction := 1%Z.
Definition ActionSkip : FieldAction := 2%Z.

Record FieldAnalysis : Type := {
  Field : FieldInfo;
  Action : FieldAction;
  SlogFunc : SlogFunction;
  LogValue : string
}.

(** The analyzer holds the configuration it was made with
    ([NewTypeAnalyzer]); the pointer is taken not to be [nil]. *)
Record TypeAnalyzer : Type := NewTypeAnalyzer {
  config : Config
}.

(** [getSlogFunction] *)
Definition getSlogFunction (field : FieldInfo) : SlogFunction :=
  let fieldType := Type_ field in
  let fieldType :=
    if IsPointer field then TrimPrefix fieldType "*" else fieldType in
  if existsb (String.eqb fieldType)
       ["int"; "int8"; "int16"; "int32"; "int64"] then SlogInt64
  else if existsb (String.eqb fieldType)
       ["uint"; "uint8"; "uint16"; "uint32"; "uint64"] then SlogInt64
  else if String.eqb fieldType "string" then SlogString
  else if String.eqb fieldType "bool" then SlogBool
  else if existsb (String.eqb fieldType) ["float32"; "float64"]
       then SlogFloat64
  else SlogAny.

(** [getFieldAccessor] *)
Definition getFieldAccessor (field : FieldInfo) (receiverName : string)
  : string :=
  receiverName ++ "." ++ Name field.

(** [%s("%s", %s)] *)
Definition emit (f : SlogFunction) (fieldName value : string) : string :=
  f ++ "(" ++ dquote ++ fieldName ++ dquote ++ ", " ++ value ++ ")".

(** The format the four pointer cases of [generateNormalLogStatement]
    share: a function literal, called on the spot, that tests the
    accessor against [nil]; [emission] is the operand of its last
    [return]. *)
Definition nil_checked (fieldAccessor fieldName emission : string)
  : string :=
  let t3 := tab ++ tab ++ tab in
  let t4 := t3 ++ tab in
  let t5 := t4 ++ tab in
  "func() slog.Attr {" ++ newline
  ++ t4 ++ "if " ++ fieldAccessor ++ " == nil {" ++ newline
  ++ t5 ++ "return "
     ++ emit "slog.String" fieldName (dquote ++ "null" ++ dquote)
     ++ newline
  ++ t4 ++ "}" ++ newline
  ++ t4 ++ "return " ++ emission ++ newline
  ++ t3 ++ "}()".

(** [generateNormalLogStatement] *)
Definition generateNormalLogStatement (analysis : FieldAnalysis)
  (receiverName : string) : string :=
  let fieldName := Name (Field analysis) in
  let fieldAccessor := getFieldAccessor (Field analysis) receiverName in
  if String.eqb (SlogFunc analysis) SlogInt64 then
    if IsPointer (Field analysis) then
      nil_checked fieldAccessor fieldName
        (emit "slog.Int64" fieldName ("int64(*" ++ fieldAccessor ++ ")"))
    else if negb (String.eqb (Type_ (Field analysis)) "int64") then
      emit (SlogFunc analysis) fieldName ("int64(" ++ fieldAccessor ++ ")")
    else emit (SlogFunc analysis) fieldName fieldAccessor
  else if String.eqb (SlogFunc analysis) SlogFloat64 then
    if IsPointer (Field analysis) then
      nil_checked fieldAccessor fieldName
        (emit "slog.Float64" fieldName
              ("float64(*" ++ fieldAccessor ++ ")"))
    else if negb (String.eqb (Type_ (Field analysis)) "float64") then
      emit (SlogFunc analysis) fieldName
           ("float64(" ++ fieldAccessor ++ ")")
    else emit (SlogFunc analysis) fieldName fieldAccessor
  else if String.eqb (SlogFunc analysis) SlogString
          || String.eqb (SlogFunc analysis) SlogBool then
    if IsPointer (Field analysis) then
      nil_checked fieldAccessor fieldName
        (emit (SlogFunc analysis) fieldName ("*" ++ fieldAccessor))
    else emit (SlogFunc analysis) fieldName fieldAccessor
  else if String.eqb (SlogFunc analysis) SlogAny then
    if IsPointer (Field analysis) then
      nil_checked fieldAccessor fieldName
        (emit (SlogFunc analysis) fieldName ("*" ++ fieldAccessor))
    else emit (SlogFunc analysis) fieldName fieldAccessor
  else emit SlogAny fieldName fieldAccessor.

(** [GenerateLogStatement] *)
Definition GenerateLogStatement (analysis : FieldAnalysis)
  (receiverName : string) : string :=
  let fieldName := Name (Field analysis) in
  if (Action analysis =? ActionSkip)%Z then ""
  else if (Action analysis =? ActionRedact)%Z then
    emit (SlogFunc analysis) fieldName
         (dquote ++ LogValue analysis ++ dquote)
  else if (Action analysis =? ActionLog)%Z then
    generateNormalLogStatement analysis receiverName
  else
    emit SlogAny fieldName (getFieldAccessor (Field analysis) receiverName).

Section WithLibrary.
Context {U : Unicode}.
Variable ta : TypeAnalyzer.

(** [shouldRedactField] *)
Definition shouldRedactField (field : FieldInfo) : bool :=
  if String.eqb (LogTag field) "-" then false
  else if String.eqb (LogTag field) "redact" then true
  else ShouldRedactField (config ta) (Name field).

(** [AnalyzeField]: the fields the code does not assign keep the zero
    value of their type. *)
Definition AnalyzeField (field : FieldInfo) : FieldAnalysis :=
  if String.eqb (LogTag field) "-" then
    {| Field := field; Action := ActionSkip;
       SlogFunc := ""; LogValue := "" |}
  else if shouldRedactField field then
    {| Field := field; Action := ActionRedact;
       SlogFunc := SlogString;
       LogValue := RedactMessage (config ta) |}
  else
    {| Field := field; Action := ActionLog;
       SlogFunc := getSlogFunction field; LogValue := "" |}.

(** [AnalyzeStruct]: the analyses are appended field by field. *)
Definition AnalyzeStruct (structInfo : StructInfo) : list FieldAnalysis :=
  fold_left
    (fun analyses field => (analyses ++ [AnalyzeField field])%list)
    (Struct_Fields structInfo) [].

Fixpoint HasLoggableFields_loop (analyses : list FieldAnalysis) : bool :=
  match analyses with
  | [] => false
  | analysis :: rest =>
      if negb (Action analysis =? ActionSkip)%Z then true
      else HasLoggableFields_loop rest
  end.

(** [HasLoggableFields] *)
Definition HasLoggableFields (structInfo : StructInfo) : bool :=
  HasLoggableFields_loop (AnalyzeStruct structInfo).
End WithLibrary.

End Types.

(** ** Package [internal/parser]: [ParsePackage] *)

Module ParserDir.
Import GoStrings Parser.

Section WithLibrary.
Context {U : Unicode}.

(** [parser.ParseDir] of [go/parser] parses the files of a directory:
    it yields the packages found, each with its files by path, or the
    first error.  Both are maps in Go; they are given here in the order
    in which the loops of [ParsePackage] meet their entries. *)
Variable parser_ParseDir : string -> list (list (string * File)) + string.

(** The loop over the files of one package. *)
Fixpoint ParsePackage_files (files : list (string * File))
  : option (list StructInfo) :=
  match files with
  | [] => Some []
  | (filePath, file) :: rest =>
      b <- hasOakDirective file ;;
      if negb b then ParsePackage_files rest
      else
        structs <- extractStructs file filePath ;;
        more <- ParsePackage_files rest ;;
        Some (structs ++ more)%list
  end.

Fixpoint ParsePackage_packages (packages : list (list (string * File)))
  : option (list StructInfo) :=
  match packages with
  | [] => Some []
  | pkg :: rest =>
      structs <- ParsePackage_files pkg ;;
      more <- ParsePackage_packages rest ;;
      Some (structs ++ more)%list
  end.

(** [ParsePackage] *)
Definition ParsePackage (packagePath : string)
  : option (option ParseResult * option string) :=
  match parser_ParseDir packagePath with
  | inr err =>
      Some (None,
            Some ("failed to parse package " ++ packagePath ++ ": " ++ err))
  | inl packages =>
      structs <- ParsePackage_packages packages ;;
      Some (Some {| Structs := structs; Errors := [] |}, None)
  end.
End WithLibrary.

End ParserDir.

(** ** Package [internal/config]: loading *)

Module ConfigLoad.
Import GoStrings Config.

Section WithLibrary.
Context {U : Unicode} {FS : FileSystem}.

(** [os.ReadFile]: the content of a file, or an error. *)
Variable os_ReadFile : string -> string + string.

(** [yaml.Unmarshal(data, config)]: the configuration once the fields
    the document gives are stored into it, or an error. *)
Variable yaml_Unmarshal : string -> Config -> Config + string.

(** [LoadConfigFromPath]: a configuration, [nil] on an error, and an
    error. *)
Definition LoadConfigFromPath (configPath : string)
  : option Config * option string :=
  match os_ReadFile configPath with
  | inr err =>
      (None,
       Some ("failed to read config file " ++ configPath ++ ": " ++ err))
  | inl data =>
      match yaml_Unmarshal data DefaultConfig with
      | inr err =>
          (None,
           Some ("failed to parse config file " ++ configPath ++ ": "
                 ++ err))
      | inl config =>
          match validate config with
          | (_, Some err) =>
              (None,
               Some ("invalid configuration in " ++ configPath ++ ": "
                     ++ err))
          | (config, None) => (Some config, None)
          end
      end
  end.

(** What [findConfigFile] asks of the system: the working directory
    ([os.Getwd]), [filepath.Join], [filepath.Dir], and whether [os.Stat]
    returns no error. *)
Variable os_Getwd : string + string.
Variable filepath_Join : string -> string -> string.
Variable filepath_Dir : string -> string.
Variable stat_ok : string -> bool.

(** The loop of [findConfigFile] from [dir]: [Some (inl path)] when it
    returns the path, [Some (inr tt)] when it leaves the loop at the
    root, [None] when [fuel] rounds did not end it. *)
Fixpoint findConfigFile_loop (fuel : nat) (dir : string)
  : option (string + unit) :=
  match fuel with
  | O => None
  | S fuel =>
      let configPath := filepath_Join dir "oak.yaml" in
      if stat_ok configPath then Some (inl configPath)
      else
        let parent := filepath_Dir dir in
        if String.eqb parent dir then Some (inr tt)
        else findConfigFile_loop fuel parent
  end.

(** [findConfigFile] *)
Definition findConfigFile (fuel : nat) : option (string + string) :=
  match os_Getwd with
  | inr err => Some (inr err)
  | inl dir =>
      r <- findConfigFile_loop fuel dir ;;
      match r with
      | inl configPath => Some (inl configPath)
      | inr _ => Some (inr "oak.yaml not found")
      end
  end.

(** [LoadConfig] *)
Definition LoadConfig (fuel : nat)
  : option (option Config * option string) :=
  r <- findConfigFile fuel ;;
  match r with
  | inr _ =>
      Some (None,
            Some ("oak.yaml configuration file not found in current "
                  ++ "directory or parent directories"))
  | inl configPath =>
      match os_ReadFile configPath with
      | inr err =>
          Some (None,
                Some ("failed to read config file " ++ configPath ++ ": "
                      ++ err))
      | inl data =>
          match yaml_Unmarshal data DefaultConfig with
          | inr err =>
              Some (None,
                    Some ("failed to parse config file " ++ configPath
                          ++ ": " ++ err))
          | inl config =>
              match validate config with
              | (_, Some err) =>
                  Some (None,
                        Some ("invalid configuration in " ++ configPath
                              ++ ": " ++ err))
              | (config, None) => Some (Some config, None)
              end
          end
      end
  end.
End WithLibrary.

End ConfigLoad.

(** ** Package [internal/cli] *)

Module Cli.
Import GoStrings Config.

Record Options : Type := {
  SourceFile : string;
  PackagePath : string;
  PositionalArgs : list string;
  Help : bool;
  Version : bool
}.

(** [ProcessingMode] is an integer type; [iota] numbers its values. *)
Definition ProcessingMode : Type := Z.

Definition ModeConfig : ProcessingMode := 0%Z.
Definition ModeSourceFile : ProcessingMode := 1%Z.
Definition ModePackage : ProcessingMode := 2%Z.
Definition ModePositional : ProcessingMode := 3%Z.

Record ProcessingTarget : Type := {
  Mode : ProcessingMode;
  Paths : list string;
  UseFlags : bool
}.

(** [GetProcessingTarget] *)
Definition GetProcessingTarget (opts : Options) : ProcessingTarget :=
  if negb (String.eqb (SourceFile opts) "") then
    {| Mode := ModeSourceFile; Paths := [SourceFile opts];
       UseFlags := true |}
  else if negb (String.eqb (PackagePath opts) "") then
    {| Mode := ModePackage; Paths := [PackagePath opts];
       UseFlags := true |}
  else if (0 <? List.length (PositionalArgs opts))%nat then
    {| Mode := ModePositional; Paths := PositionalArgs opts;
       UseFlags := false |}
  else
    {| Mode := ModeConfig; Paths := []; UseFlags := false |}.

Section WithFileSystem.
Context {FS : FileSystem}.

(** The loop of [Validate] over the positional arguments: the error it
    returns, if any. *)
Fixpoint Validate_positional (args : list string) : option string :=
  match args with
  | [] => None
  | arg :: rest =>
      if negb (String.eqb arg "./...") && negb (String.eqb arg ".") then
        if stat_IsNotExist arg then Some ("path does not exist: " ++ arg)
        else Validate_positional rest
      else Validate_positional rest
  end.

(** [Validate]: what it writes to the standard error, and the error it
    returns. *)
Definition Validate (opts : Options) : list string * option string :=
  if negb (String.eqb (SourceFile opts) "")
     && negb (String.eqb (PackagePath opts) "") then
    ([], Some "--source and --package flags cannot be used together")
  else
    let stderr :=
      if (negb (String.eqb (SourceFile opts) "")
          || negb (String.eqb (PackagePath opts) ""))
         && (0 <? List.length (PositionalArgs opts))%nat
      then ["Warning: Positional arguments ignored when using flags"
            ++ newline]
      else [] in
    (stderr,
     if negb (String.eqb (SourceFile opts) "")
        && negb (HasSuffix (SourceFile opts) ".go") then
       Some ("source file must have .go extension: " ++ SourceFile opts)
     else if negb (String.eqb (SourceFile opts) "")
             && stat_IsNotExist (SourceFile opts) then
       Some ("source file does not exist: " ++ SourceFile opts)
     else if negb (String.eqb (PackagePath opts) "")
             && stat_IsNotExist (PackagePath opts) then
       Some ("package path does not exist: " ++ PackagePath opts)
     else Validate_positional (PositionalArgs opts)).
End WithFileSystem.

(** *** The directories [filepath.Walk] goes through *)

(** A file tree: a file, a directory with its entries in the order of
    their names (or the error of reading them), or an entry that
    [os.Lstat] fails on.  The tree does not change during a walk, so
    [os.ReadDir] on the path of a directory gives the entries the walk
    is about to visit. *)
Inductive Tree : Type :=
  | File (name : string)
  | Dir (name : string) (readError : option string) (entries : list Tree)
  | Gone (name : string) (isDir : bool) (err : string).

(** [Name()] and [IsDir()] of an entry. *)
Definition tree_name (t : Tree) : string :=
  match t with
  | File name | Dir name _ _ | Gone name _ _ => name
  end.

Definition tree_isDir (t : Tree) : bool :=
  match t with
  | File _ => false
  | Dir _ _ _ => true
  | Gone _ isDir _ => isDir
  end.

(** What a [filepath.WalkFunc] returns: [nil], [filepath.SkipDir] or
    another error. *)
Inductive WalkResult : Type :=
  | WalkNil
  | SkipDir
  | WalkErr (err : string).

(** [os.Lstat] on the root of a walk gives the tree found there, or an
    error; [filepath.Join] names the entries. *)
Class Disk : Type := {
  os_Lstat : string -> Tree + string;
  filepath_Join : string -> string -> string
}.

Section WithDisk.
Context {D : Disk}.

(** [walk] of [path/filepath], for a function [walkFn] that carries the
    state [A] of its closure. *)
Fixpoint walk {A : Type}
  (walkFn : A -> string -> Tree -> option string -> A * WalkResult)
  (path : string) (info : Tree) (st : A) : A * WalkResult :=
  match info with
  | File _ => walkFn st path info None
  | Gone _ _ err =>
      (* [walk] is not called on such an entry; the function gets the
         error, as at the two places that call [os.Lstat] *)
      walkFn st path info (Some err)
  | Dir _ readError entries =>
      let '(st, err1) := walkFn st path info readError in
      match readError, err1 with
      | None, WalkNil =>
          (fix each (l : list Tree) (st : A) : A * WalkResult :=
             match l with
             | [] => (st, WalkNil)
             | entry :: l' =>
                 let filename := filepath_Join path (tree_name entry) in
                 match entry with
                 | Gone _ _ err =>
                     match walkFn st filename entry (Some err) with
                     | (st, WalkErr e) => (st, WalkErr e)
                     | (st, _) => each l' st
                     end
                 | _ =>
                     match walk walkFn filename entry st with
                     | (st, WalkNil) => each l' st
                     | (st, SkipDir) =>
                         if tree_isDir entry then each l' st
                         else (st, SkipDir)
                     | (st, WalkErr e) => (st, WalkErr e)
                     end
                 end
             end) entries st
      | _, _ => (st, err1)
      end
  end.

(** [filepath.Walk]: the error is [nil] when the function ends the walk
    with [SkipDir]. *)
Definition Walk {A : Type}
  (walkFn : A -> string -> Tree -> option string -> A * WalkResult)
  (root : string) (st : A) : A * option string :=
  let '(st, err) :=
    match os_Lstat root with
    | inr err => walkFn st root (Gone root false err) (Some err)
    | inl info => walk walkFn root info st
    end in
  match err with
  | WalkErr e => (st, Some e)
  | _ => (st, None)
  end.

(** [hasGoFilesInDir], on the directory found at [dir]. *)
Definition hasGoFilesInDir (dir : Tree) : bool * option string :=
  match dir with
  | Dir _ (Some err) _ => (false, Some err)
  | Dir _ None entries =>
      (existsb (fun entry => negb (tree_isDir entry)
                             && HasSuffix (tree_name entry) ".go")
         entries, None)
  | File _ => (false, Some "not a directory")
  | Gone _ _ err => (false, Some err)
  end.

(** The function [findGoPackages] hands to [filepath.Walk]; its state is
    the slice [packages]. *)
Definition findGoPackages_walkFn (packages : list string) (path : string)
  (info : Tree) (err : option string) : list string * WalkResult :=
  match err with
  | Some e => (packages, WalkErr e)
  | None =>
      if tree_isDir info
         && (HasPrefix (tree_name info) "."
             || String.eqb (tree_name info) "vendor")
      then (packages, SkipDir)
      else if tree_isDir info then
        match hasGoFilesInDir info with
        | (_, Some e) => (packages, WalkErr e)
        | (hasGoFiles, None) =>
            (if hasGoFiles then (packages ++ [path])%list else packages,
             WalkNil)
        end
      else (packages, WalkNil)
  end.

(** [findGoPackages] *)
Definition findGoPackages (root : string) : list string * option string :=
  Walk findGoPackages_walkFn root [].

(** [ExpandPaths]: the expanded paths, [nil] on an error, and an
    error. *)
Fixpoint ExpandPaths_loop (paths expanded : list string)
  : option (list string) * option string :=
  match paths with
  | [] => (Some expanded, None)
  | path :: rest =>
      if String.eqb path "./..." then
        match findGoPackages "." with
        | (_, Some err) =>
            (None, Some ("failed to expand " ++ path ++ ": " ++ err))
        | (packages, None) =>
            ExpandPaths_loop rest (expanded ++ packages)%list
        end
      else ExpandPaths_loop rest (expanded ++ [path])%list
  end.

Definition ExpandPaths (paths : list string)
  : option (list string) * option string :=
  ExpandPaths_loop paths [].
End WithDisk.

End Cli.

(** ** Package [main] *)

Module Main.
Import GoStrings Parser Config Cli.

(** [getProcessingPaths] *)
Definition getProcessingPaths {D : Disk} (target : ProcessingTarget)
  (cfg : Config) : option (list string) * option string :=
  if (Mode target =? ModeSourceFile)%Z || (Mode target =? ModePackage)%Z
  then (Some (Paths target), None)
  else if (Mode target =? ModePositional)%Z then ExpandPaths (Paths target)
  else if (Mode target =? ModeConfig)%Z then ExpandPaths (GetPackages cfg)
  else (None, Some "unknown processing mode").

(** A Go map from strings to slices, as the list of its keys with their
    values; a key that is absent reads as the [nil] slice. *)
Definition map_get {A : Type} (m : list (string * list A)) (k : string)
  : list A :=
  match find (fun kv => String.eqb (fst kv) k) m with
  | Some kv => snd kv
  | None => []
  end.

Fixpoint map_set {A : Type} (m : list (string * list A)) (k : string)
  (v : list A) : list (string * list A) :=
  match m with
  | [] => [(k, v)]
  | (k', v') :: m' =>
      if String.eqb k' k then (k, v) :: m'
      else (k', v') :: map_set m' k v
  end.

(** [groupStructsByPackage] *)
Definition groupStructsByPackage (structs : list StructInfo)
  : list (string * list StructInfo) :=
  fold_left
    (fun groups s =>
       map_set groups (Struct_PackageName s)
         (map_get groups (Struct_PackageName s) ++ [s])%list)
    structs [].

End Main.

(** ** Vocabulary of the statements *)

(** [Contains s sub]: [sub] occurs in [s] ([strings.Contains]). *)
Fixpoint Contains (s sub : string) : bool :=
  if String.prefix sub s then true
  else match s with
       | EmptyString => false
       | String _ s' => Contains s' sub
       end.

(** A descriptor as the tests of the repository write it, without a
    raw tag. *)
Definition field_of (name type_ logTag : string) (isPointer : bool)
  : Parser.FieldInfo :=
  {| Parser.Name := name; Parser.Type_ := type_; Parser.Tag := "";
     Parser.LogTag := logTag; Parser.IsPointer := isPointer |}.

(** An analyzer for the trigger names [keys] and the message [msg]. *)
Definition analyzer_of (keys : list string) (msg : string)
  : Types.TypeAnalyzer :=
  Types.NewTypeAnalyzer
    {| Config.Packages := ["."]; Config.RedactKeys := keys;
       Config.RedactMessage := msg |}.

(** The type names [getSlogFunction] knows. *)
Definition integer_types : list string :=
  ["int"; "int8"; "int16"; "int32"; "int64";
   "uint"; "uint8"; "uint16"; "uint32"; "uint64"].
Definition float_types : list string := ["float32"; "float64"].
Definition basic_types : list string :=
  (integer_types ++ ["string"; "bool"] ++ float_types)%list.

(** The type [getSlogFunction] classifies: the declared type, less one
    leading [*] when the field is a pointer. *)
Definition base_type (f : Parser.FieldInfo) : string :=
  if Parser.IsPointer f then GoStrings.TrimPrefix (Parser.Type_ f) "*"
  else Parser.Type_ f.

(** The type expressions other than a name and a pointer to a name. *)
Definition composite (e : Parser.Expr) : bool :=
  match e with
  | Parser.Ident _ | Parser.StarExpr (Parser.Ident _) => false
  | _ => true
  end.

Definition has_dot (s : string) : bool :=
  GoStrings.any_byte (Ascii.eqb "."%char) s.


(** A file system in which every path exists; the model is run with it
    on concrete inputs. *)
Definition every_path_exists : Config.FileSystem := {|
  Config.filepath_IsAbs := fun p => GoStrings.HasPrefix p "/";
  Config.filepath_Abs := fun p => inl ("/" ++ p);
  Config.stat_IsNotExist := fun _ => false
|}.

(** The configuration [validate] leaves behind. *)
Definition validated {U : GoStrings.Unicode} {FS : Config.FileSystem}
  (c : Config.Config) : Config.Config :=
  fst (Config.validate c).

(** The configuration without the trigger names that hold an upper-case
    ASCII letter. *)
Definition without_upper_keys (c : Config.Config) : Config.Config :=
  {| Config.Packages := Config.Packages c;
     Config.RedactKeys :=
       filter (fun k => negb (GoStrings.hasUpper k)) (Config.RedactKeys c);
     Config.RedactMessage := Config.RedactMessage c |}.

(** What the statements on upper-case keys ask of the Unicode path of
    [ToLower]: its result holds no upper-case ASCII letter. *)
Definition lowers_ASCII {U : GoStrings.Unicode} : Prop :=
  forall s, GoStrings.hasUpper (GoStrings.unicode_ToLower s) = false.

(** The strings without a space: the tokens of a tag. *)
Definition no_space (s : string) : bool :=
  negb (GoStrings.any_byte (Ascii.eqb " "%char) s).

(** The token [log:"v"]. *)
Definition log_token (v : string) : string :=
  "log:" ++ GoStrings.dquote ++ v ++ GoStrings.dquote.

(** The tag of a field as the source spells it: tokens separated by
    single spaces, between backticks. *)
Definition raw_tag (tokens : list string) : string :=
  "`" ++ String.concat " " tokens ++ "`".

(** The comments the scanner of Go hands over: a line comment starts
    with [//]; a general comment starts with [/*], ends with [*/] and the
    two do not overlap. *)
Definition scanner_comment (text : string) : bool :=
  GoStrings.HasPrefix text "//"
  || (GoStrings.HasPrefix text "/*" && GoStrings.HasSuffix text "*/"
      && (4 <=? GoStrings.len text)%Z).

(** What the statements on comments ask of [strings.TrimRightFunc] with
    [unicode.IsSpace]: it removes a suffix, and never an ASCII byte that
    is not a space, nor what stands before it. *)
Definition trims_spaces_only {U : GoStrings.Unicode} : Prop :=
  forall p c t,
    GoStrings.isASCII_byte c = true -> GoStrings.asciiSpace c = false ->
    exists t', GoStrings.unicode_TrimRightFunc (p ++ String c t)
               = p ++ String c t'.

(** The comment carries the directive: its text, markers removed and
    trimmed, starts with [go:generate oak]. *)
Definition has_directive {U : GoStrings.Unicode} (commentText : string)
  : bool :=
  match Parser.directive_text commentText with
  | Some text => GoStrings.HasPrefix text "go:generate oak"
  | None => false
  end.

(** A unit with one struct and the given comments. *)
Definition unit_with (comments : list (list string))
  : Parser.File :=
  {| Parser.File_Name := "main";
     Parser.Decls := [Parser.GenDecl Parser.TYPE
                 [Parser.TypeSpec "User"
                    (Parser.StructType
                     [Parser.mkField ["Name"] (Parser.Ident "string") None])]
                 []];
     Parser.Comments := comments |}.

(** *** Statements *)

(** The operand of the call for a field that is not a pointer: the
    accessor, converted for the integer types other than [int64] and for
    [float32]. *)
Definition widened (type_ accessor : string) : string :=
  if existsb (String.eqb type_) integer_types
     && negb (String.eqb type_ "int64")
  then "int64(" ++ accessor ++ ")"
  else if String.eqb type_ "float32" then "float64(" ++ accessor ++ ")"
  else accessor.

(** The operand of the call for a pointer field: the accessor
    dereferenced, converted for every integer and float type. *)
Definition dereferenced (base accessor : string) : string :=
  if existsb (String.eqb base) integer_types
  then "int64(*" ++ accessor ++ ")"
  else if existsb (String.eqb base) float_types
  then "float64(*" ++ accessor ++ ")"
  else "*" ++ accessor.

(** The field carries the tag [log:"-"]. *)
Definition tagged_out (f : Parser.FieldInfo) : bool :=
  String.eqb (Parser.LogTag f) "-".

(** *** Configurations *)

(** A package path [validate] lets through: it is not empty, and it is
    absolute, or has an absolute form that [os.Stat] does not report
    missing. *)
Definition package_accepted {FS : Config.FileSystem} (pkg : string) : bool :=
  negb (String.eqb pkg "")
  && (Config.filepath_IsAbs pkg
      || match Config.filepath_Abs pkg with
         | inl absPath => negb (Config.stat_IsNotExist absPath)
         | inr _ => false
         end).

(** The [k]-th directory above [dir]. *)
Definition ancestor (filepath_Dir : string -> string) (k : nat)
  (dir : string) : string :=
  Nat.iter k filepath_Dir dir.

(** The one error of [LoadConfig] when [findConfigFile] fails. *)
Definition not_found_error : string :=
  "oak.yaml configuration file not found in current directory or parent "
  ++ "directories".

(** A file system in which the paths below [/nonexistent] are missing. *)
Definition some_paths_missing : Config.FileSystem := {|
  Config.filepath_IsAbs := fun p => GoStrings.HasPrefix p "/";
  Config.filepath_Abs := fun p => inl ("/" ++ p);
  Config.stat_IsNotExist := fun p => GoStrings.HasPrefix p "/nonexistent"
|}.

(** *** Field groups and struct declarations *)

(** The names [extractFields] gives the descriptors of a field group:
    its names, or the text of its type when it has none. *)
Definition group_names (f : Parser.Field) : list string :=
  match f with
  | Parser.mkField [] ty _ => [Parser.typeToString ty]
  | Parser.mkField names _ _ => names
  end.

Definition group_type (f : Parser.Field) : Parser.Expr :=
  match f with Parser.mkField _ ty _ => ty end.

Definition group_tag (f : Parser.Field) : option string :=
  match f with Parser.mkField _ _ tag => tag end.

(** The type specs with a struct type, by name and field list. *)
Definition struct_specs (specs : list Parser.Spec)
  : list (string * list Parser.Field) :=
  flat_map (fun s => match s with
                     | Parser.TypeSpec name (Parser.StructType fields) =>
                         [(name, fields)]
                     | _ => []
                     end) specs.

(** The struct declarations of a unit: the struct type specs of its
    [type] declarations, in the order [ast.Inspect] meets them. *)
Definition declared_structs (file : Parser.File)
  : list (string * list Parser.Field) :=
  flat_map (fun n => match n with
                     | Parser.GenDecl Parser.TYPE specs _ => struct_specs specs
                     | _ => []
                     end)
    (flat_map Parser.inspect_order (Parser.Decls file)).

(** [s] describes the declaration [d] of the package [pkg] in the unit
    at [filePath]. *)
Definition struct_of (pkg filePath : string)
  (d : string * list Parser.Field) (s : Parser.StructInfo) : Prop :=
  Parser.Struct_Name s = fst d
  /\ Parser.Struct_PackageName s = pkg
  /\ Parser.Struct_FilePath s = filePath
  /\ Parser.extractFields (snd d) = Some (Parser.Struct_Fields s).

(** *** The command line *)

(** A positional argument [Validate] lets through. *)
Definition argument_accepted {FS : Config.FileSystem} (arg : string) : bool :=
  String.eqb arg "./..." || String.eqb arg "."
  || negb (Config.stat_IsNotExist arg).

Definition flag_set (flag : string) : bool := negb (String.eqb flag "").

(** Options with the two flags and the positional arguments given. *)
Definition options_of (sourceFile packagePath : string)
  (positionalArgs : list string) : Cli.Options :=
  {| Cli.SourceFile := sourceFile; Cli.PackagePath := packagePath;
     Cli.PositionalArgs := positionalArgs;
     Cli.Help := false; Cli.Version := false |}.

(** *** File trees *)

(** The directories [findGoPackages] does not enter. *)
Definition hidden (name : string) : bool :=
  GoStrings.HasPrefix name "." || String.eqb name "vendor".

(** Some entry is a file whose name ends in [.go]. *)
Definition holds_go_file (entries : list Cli.Tree) : bool :=
  existsb (fun entry => negb (Cli.tree_isDir entry)
                        && GoStrings.HasSuffix (Cli.tree_name entry) ".go")
    entries.

(** A tree that is read without an error. *)
Fixpoint readable (t : Cli.Tree) : bool :=
  match t with
  | Cli.File _ => true
  | Cli.Gone _ _ _ => false
  | Cli.Dir _ (Some _) _ => false
  | Cli.Dir _ None entries =>
      (fix all (l : list Cli.Tree) : bool :=
         match l with
         | [] => true
         | entry :: l' => readable entry && all l'
         end) entries
  end.

(** The directories of the tree at [path] that hold a Go file and are
    neither hidden nor below a hidden directory, a directory before the
    directories below it. *)
Fixpoint go_packages {D : Cli.Disk} (path : string) (t : Cli.Tree)
  : list string :=
  match t with
  | Cli.Dir name _ entries =>
      if hidden name then []
      else
        ((if holds_go_file entries then [path] else [])
         ++ (fix each (l : list Cli.Tree) : list string :=
               match l with
               | [] => []
               | entry :: l' =>
                   (go_packages
                      (Cli.filepath_Join path (Cli.tree_name entry)) entry
                    ++ each l')%list
               end) entries)%list
  | _ => []
  end.

(** A disk to run the model on: the working directory, which
    [os.Lstat] names [.], and the directory [cmd]. *)
Definition a_disk : Cli.Disk := {|
  Cli.os_Lstat := fun path =>
    if String.eqb path "." then
      inl (Cli.Dir "." None
             [Cli.File "main.go"; Cli.Dir "pkg" None [Cli.File "a.go"]])
    else if String.eqb path "cmd" then
      inl (Cli.Dir "cmd" None
             [Cli.Dir ".cache" None [Cli.File "c.go"];
              Cli.Dir "docs" None [Cli.File "index.md"];
              Cli.File "main.go";
              Cli.Dir "oak" None [Cli.File "oak.go"];
              Cli.Dir "vendor" None [Cli.Dir "lib" None [Cli.File "lib.go"]]])
    else inr "no such file or directory";
  Cli.filepath_Join := fun dir name =>
    if String.eqb dir "." then name else dir ++ "/" ++ name
|}.

(** *** Groups *)

(** [groups] holds, for every package name, the structs of that name in
    their order, under keys that are the package names of [structs],
    each once. *)
Definition grouping (structs : list Parser.StructInfo)
  (groups : list (string * list Parser.StructInfo)) : Prop :=
  (forall pkg,
     Main.map_get groups pkg
     = filter (fun s => String.eqb (Parser.Struct_PackageName s) pkg) structs)
  /\ NoDup (map fst groups)
  /\ (forall pkg, In pkg (map fst groups) <->
                  In pkg (map Parser.Struct_PackageName structs)).

(** * Properties *)

(** ** Strings *)

Section StringFacts.
Import GoStrings.

Lemma prefix_append (p s : string) : String.prefix p (p ++ s) = true.
Proof.
  induction p as [|c p IH]; simpl.
  - destruct s; reflexivity.
  - rewrite IH. destruct (ascii_dec c c); congruence.
Qed.

Lemma Contains_prefix (s sub : string) :
  String.prefix sub s = true -> Contains s sub = true.
Proof.
  intros H. destruct s as [|c s].
  - change (Contains "" sub)
      with (if String.prefix sub "" then true else false).
    now rewrite H.
  - change (Contains (String c s) sub)
      with (if String.prefix sub (String c s) then true
            else Contains s sub).
    now rewrite H.
Qed.

Lemma Contains_skip (c : ascii) (s sub : string) :
  Contains s sub = true -> Contains (String c s) sub = true.
Proof.
  intros H. change (Contains (String c s) sub)
    with (if String.prefix sub (String c s) then true else Contains s sub).
  rewrite H. destruct (String.prefix sub (String c s)); reflexivity.
Qed.

Lemma Contains_append (a sub b : string) :
  Contains (a ++ sub ++ b) sub = true.
Proof.
  induction a as [|c a IH].
  - change ("" ++ sub ++ b) with (sub ++ b).
    apply Contains_prefix, prefix_append.
  - change (String c a ++ sub ++ b) with (String c (a ++ sub ++ b)).
    apply Contains_skip, IH.
Qed.

Lemma append_assoc (a b c : string) : (a ++ b) ++ c = a ++ b ++ c.
Proof.
  induction a as [|x a IH]; simpl; [reflexivity | now rewrite IH].
Qed.

Lemma append_empty_r (a : string) : a ++ "" = a.
Proof.
  induction a as [|x a IH]; simpl; [reflexivity | now rewrite IH].
Qed.

Lemma substring_all (s : string) : substring 0 (String.length s) s = s.
Proof.
  induction s as [|c s IH]; cbn; [reflexivity | now rewrite IH].
Qed.
Lemma existsb_eqb_In (k : string) (l : list string) :
  existsb (String.eqb k) l = true <-> In k l.
Proof.
  rewrite existsb_exists. split.
  - intros [x [Hx E]]. apply String.eqb_eq in E. now subst.
  - intros H. exists k. split; [exact H | apply String.eqb_refl].
Qed.

End StringFacts.

(** ** The field policy: actions *)

Section FieldPolicy.
Import GoStrings Parser Config Types.
Context {U : Unicode}.
Variable ta : TypeAnalyzer.

Lemma AnalyzeField_Field (f : FieldInfo) : Field (AnalyzeField ta f) = f.
Proof.
  unfold AnalyzeField.
  destruct (String.eqb (LogTag f) "-"); [reflexivity|].
  destruct (shouldRedactField ta f); reflexivity.
Qed.

Lemma shouldRedactField_spec (f : FieldInfo) :
  shouldRedactField ta f = true <->
  LogTag f <> "-" /\
  (LogTag f = "redact" \/ ShouldRedactField (config ta) (Name f) = true).
Proof.
  unfold shouldRedactField.
  destruct (String.eqb_spec (LogTag f) "-") as [E|E].
  - split; [discriminate | intros [H _]; contradiction].
  - destruct (String.eqb_spec (LogTag f) "redact") as [R|R].
    + split; auto.
    + split; [auto | intros [_ [H|H]]; [contradiction | exact H]].
Qed.

(** The action is one of the three, and each is decided by the tag and
    by [shouldRedactField]. *)
Lemma AnalyzeField_Action (f : FieldInfo) :
  Action (AnalyzeField ta f) =
  if String.eqb (LogTag f) "-" then ActionSkip
  else if shouldRedactField ta f then ActionRedact else ActionLog.
Proof.
  unfold AnalyzeField.
  destruct (String.eqb (LogTag f) "-"); [reflexivity|].
  destruct (shouldRedactField ta f); reflexivity.
Qed.

Lemma AnalyzeField_skip (f : FieldInfo) :
  LogTag f = "-" -> Action (AnalyzeField ta f) = ActionSkip.
Proof.
  intros H. rewrite AnalyzeField_Action, H. reflexivity.
Qed.

(** C1. A field whose log tag is exactly [-] is analysed to [ActionSkip],
    whatever its name, its type and the configuration are: the test on
    the tag comes first, so neither a trigger name that matches nor any
    other signal turns the action into [ActionRedact], and
    [shouldRedactField] itself answers [false]. *)
Theorem AnalyzeField_skip_first (f : FieldInfo) :
  LogTag f = "-" ->
  Action (AnalyzeField ta f) = ActionSkip
  /\ Action (AnalyzeField ta f) <> ActionRedact
  /\ shouldRedactField ta f = false.
Proof.
  intros H. rewrite (AnalyzeField_skip f H). unfold shouldRedactField.
  rewrite H. repeat split. discriminate.
Qed.

(** C3. A field that is not skipped and is redacted, by the tag
    [redact] or by a trigger name, is analysed to [ActionRedact] with
    the string function and the configured message, whatever its type
    and pointer flag are; its statement is the one call
    [slog.String("<name>", "<message>")]. *)
Theorem redacted_field_statement (f : FieldInfo) (receiverName : string) :
  LogTag f <> "-" ->
  LogTag f = "redact" \/ ShouldRedactField (config ta) (Name f) = true ->
  let analysis := AnalyzeField ta f in
  Action analysis = ActionRedact
  /\ SlogFunc analysis = SlogString
  /\ LogValue analysis = RedactMessage (config ta)
  /\ GenerateLogStatement analysis receiverName =
     "slog.String(" ++ dquote ++ Name f ++ dquote ++ ", "
     ++ dquote ++ RedactMessage (config ta) ++ dquote ++ ")".
Proof.
  intros Hskip Hred.
  assert (R : shouldRedactField ta f = true)
    by (apply shouldRedactField_spec; auto).
  apply String.eqb_neq in Hskip.
  unfold AnalyzeField. rewrite Hskip, R. cbn.
  repeat split. now rewrite !append_assoc.
Qed.

(** *** The batch operations *)

Lemma AnalyzeStruct_app (fields : list FieldInfo)
  (acc : list FieldAnalysis) :
  fold_left (fun analyses x => (analyses ++ [AnalyzeField ta x])%list)
    fields acc
  = (acc ++ map (AnalyzeField ta) fields)%list.
Proof.
  revert acc. induction fields as [|x fields IH]; intros acc; simpl.
  - now rewrite app_nil_r.
  - rewrite IH, <- app_assoc. reflexivity.
Qed.

(** [AnalyzeStruct] analyses the fields one by one, in their order. *)
Lemma AnalyzeStruct_map (s : StructInfo) :
  AnalyzeStruct ta s = map (AnalyzeField ta) (Struct_Fields s).
Proof.
  unfold AnalyzeStruct. now rewrite AnalyzeStruct_app.
Qed.

Lemma HasLoggableFields_loop_spec (l : list FieldAnalysis) :
  HasLoggableFields_loop l = true <->
  exists a, In a l /\ Action a <> ActionSkip.
Proof.
  induction l as [|a l IH]; simpl.
  - split; [discriminate | intros [a [[] _]]].
  - destruct (Z.eqb_spec (Action a) ActionSkip) as [E|E]; simpl.
    + rewrite IH. split.
      * intros [b [Hb Nb]]. exists b. auto.
      * intros [b [[Hb|Hb] Nb]]; [subst; contradiction | exists b; auto].
    + split; [intros _; exists a; auto | reflexivity].
Qed.

(** C9. [HasLoggableFields] answers [true] exactly when some field of
    the record is analysed to an action other than [ActionSkip]; it
    answers [false] for a record whose fields all carry the tag [-];
    and the statement generated for a skipped field is empty. *)
Theorem HasLoggableFields_iff (s : StructInfo) :
  (HasLoggableFields ta s = true <->
   exists f, In f (Struct_Fields s)
             /\ Action (AnalyzeField ta f) <> ActionSkip)
  /\ ((forall f, In f (Struct_Fields s) -> LogTag f = "-") ->
      HasLoggableFields ta s = false)
  /\ (forall f receiverName,
        LogTag f = "-" ->
        GenerateLogStatement (AnalyzeField ta f) receiverName = "")
  /\ (forall analysis receiverName,
        Action analysis = ActionSkip ->
        GenerateLogStatement analysis receiverName = "").
Proof.
  assert (Iff : HasLoggableFields ta s = true <->
                exists f, In f (Struct_Fields s)
                          /\ Action (AnalyzeField ta f) <> ActionSkip).
  { unfold HasLoggableFields.
    rewrite HasLoggableFields_loop_spec, AnalyzeStruct_map. split.
    - intros [a [Ha Na]]. apply in_map_iff in Ha.
      destruct Ha as [f [<- Hf]]. exists f. auto.
    - intros [f [Hf Nf]]. exists (AnalyzeField ta f). split; [|exact Nf].
      now apply in_map. }
  assert (Gen : forall analysis receiverName,
             Action analysis = ActionSkip ->
             GenerateLogStatement analysis receiverName = "").
  { intros a r Ha. unfold GenerateLogStatement. now rewrite Ha. }
  repeat split; try apply Iff.
  - intros All. apply not_true_is_false. intros T.
    apply Iff in T. destruct T as [f [Hf Nf]].
    apply Nf, AnalyzeField_skip, All, Hf.
  - intros f r Hf. apply Gen. now apply AnalyzeField_skip.
  - exact Gen.
Qed.
End FieldPolicy.

(** ** The field policy: the slog function of a type *)

Section Strategy.
Import GoStrings Parser Config Types.

Lemma TrimPrefix_star (s : string) : TrimPrefix ("*" ++ s) "*" = s.
Proof.
  unfold TrimPrefix, HasPrefix. cbn.
  destruct s as [|c s]; cbn; [reflexivity|].
  now rewrite substring_all.
Qed.

Lemma TrimPrefix_no_star (s : string) :
  HasPrefix s "*" = false -> TrimPrefix s "*" = s.
Proof.
  unfold TrimPrefix. now intros ->.
Qed.

Lemma has_dot_append (a b : string) : has_dot (a ++ "." ++ b) = true.
Proof.
  unfold has_dot. induction a as [|c a IH]; [reflexivity|].
  cbn [append any_byte].
  destruct (Ascii.eqb "."%char c); [reflexivity | exact IH].
Qed.

Lemma getSlogFunction_base (f : FieldInfo) (t : string) :
  base_type f = t ->
  getSlogFunction f =
  getSlogFunction {| Name := ""; Type_ := t; Tag := ""; LogTag := "";
                     IsPointer := false |}.
Proof.
  unfold base_type, getSlogFunction. cbn [Type_ IsPointer].
  now intros ->.
Qed.

Lemma getSlogFunction_other (f : FieldInfo) :
  ~ In (base_type f) basic_types -> getSlogFunction f = SlogAny.
Proof.
  intros H. unfold getSlogFunction. fold (base_type f).
  cbn [existsb].
  repeat match goal with
    | |- context [String.eqb ?a ?b] =>
        destruct (String.eqb_spec a b) as [E|E];
        [exfalso; apply H; rewrite E; cbn; tauto | clear E]
    end.
  reflexivity.
Qed.

Lemma composite_not_basic (e : Expr) :
  ~ In (typeToString e) basic_types \/ (exists n, e = Ident n).
Proof.
  destruct e; try (right; eexists; reflexivity); left; cbn;
    try (intuition discriminate).
  - (* a qualified name holds a dot *)
    intros H.
    assert (D : has_dot (typeToString e ++ "." ++ Sel) = true)
      by apply has_dot_append.
    change (has_dot (typeToString e ++ String "." Sel) = true) in D.
    repeat (destruct H as [H|H]; [rewrite <- H in D; discriminate|]).
    exact H.
  - destruct Len; cbn; intuition discriminate.
Qed.

(** C6. [getSlogFunction] is a total function into the five slog
    functions.  On the declared type, less one leading [*] when the field
    is a pointer, it answers [slog.Int64] for the ten integer types,
    [slog.String] for [string], [slog.Bool] for [bool], [slog.Float64]
    for [float32] and [float64], and [slog.Any] for every other string.
    For the descriptor of a type expression that is neither a name nor
    a pointer to a name (a sequence, an array, a mapping, a qualified
    name, an interface, [unknown], and pointers to those) the answer is
    [slog.Any]; for a pointer to [x] the type classified is that of
    [x]. *)
Theorem getSlogFunction_table (f : FieldInfo) :
  (In (base_type f) integer_types -> getSlogFunction f = SlogInt64)
  /\ (base_type f = "string" -> getSlogFunction f = SlogString)
  /\ (base_type f = "bool" -> getSlogFunction f = SlogBool)
  /\ (In (base_type f) float_types -> getSlogFunction f = SlogFloat64)
  /\ (~ In (base_type f) basic_types -> getSlogFunction f = SlogAny)
  /\ In (getSlogFunction f)
        [SlogInt64; SlogString; SlogBool; SlogFloat64; SlogAny]
  /\ (forall x, Type_ f = typeToString (StarExpr x) ->
                IsPointer f = isPointerType (StarExpr x) ->
                base_type f = typeToString x)
  /\ (forall e, Type_ f = typeToString e ->
                IsPointer f = isPointerType e ->
                composite e = true ->
                getSlogFunction f = SlogAny).
Proof.
  assert (Star : forall x, Type_ f = typeToString (StarExpr x) ->
                           IsPointer f = isPointerType (StarExpr x) ->
                           base_type f = typeToString x).
  { intros x T P. unfold base_type. rewrite P, T. cbn [isPointerType].
    apply TrimPrefix_star. }
  repeat split.
  - intros H. cbn in H.
    repeat (destruct H as [H|H];
            [now rewrite (getSlogFunction_base f _ (eq_sym H))|]).
    contradiction.
  - intros H. now rewrite (getSlogFunction_base f _ H).
  - intros H. now rewrite (getSlogFunction_base f _ H).
  - intros H. cbn in H.
    repeat (destruct H as [H|H];
            [now rewrite (getSlogFunction_base f _ (eq_sym H))|]).
    contradiction.
  - apply getSlogFunction_other.
  - unfold getSlogFunction.
    repeat match goal with
      | |- context [if ?b then _ else _] => destruct b
      end; cbn; auto 10.
  - exact Star.
  - intros e T P C. apply getSlogFunction_other.
    destruct (composite_not_basic e) as [N|[n ->]]; [|discriminate].
    destruct e; try (unfold base_type; rewrite P, T; exact N).
    (* a pointer: the type classified is the one pointed to *)
    rewrite (Star e T P).
    destruct (composite_not_basic e) as [M|[n ->]];
      [exact M | discriminate].
Qed.

(** The cases of [TestGetSlogFunction]. *)
Example getSlogFunction_tests :
  map (fun '(ty, ptr) => getSlogFunction (field_of "TestField" ty "" ptr))
    [("int", false); ("int8", false); ("int16", false); ("int32", false);
     ("int64", false); ("uint", false); ("uint8", false);
     ("uint16", false); ("uint32", false); ("uint64", false);
     ("*int", true); ("*int64", true);
     ("string", false); ("*string", true);
     ("bool", false); ("*bool", true);
     ("float32", false); ("float64", false); ("*float64", true);
     ("[]string", false); ("map[string]int", false);
     ("interface{}", false); ("CustomStruct", false)]
  = [SlogInt64; SlogInt64; SlogInt64; SlogInt64; SlogInt64;
     SlogInt64; SlogInt64; SlogInt64; SlogInt64; SlogInt64;
     SlogInt64; SlogInt64;
     SlogString; SlogString; SlogBool; SlogBool;
     SlogFloat64; SlogFloat64; SlogFloat64;
     SlogAny; SlogAny; SlogAny; SlogAny].
Proof. reflexivity. Qed.

(** The function of a descriptor, by the type it classifies. *)
Lemma getSlogFunction_of_base (f : FieldInfo) :
  getSlogFunction f =
  if existsb (String.eqb (base_type f)) integer_types then SlogInt64
  else if String.eqb (base_type f) "string" then SlogString
  else if String.eqb (base_type f) "bool" then SlogBool
  else if existsb (String.eqb (base_type f)) float_types then SlogFloat64
  else SlogAny.
Proof.
  unfold getSlogFunction, base_type.
  set (t := if IsPointer f then _ else _).
  change integer_types
    with (["int"; "int8"; "int16"; "int32"; "int64"]
          ++ ["uint"; "uint8"; "uint16"; "uint32"; "uint64"])%list.
  rewrite existsb_app.
  destruct (existsb (String.eqb t) ["int"; "int8"; "int16"; "int32"; "int64"]);
    [reflexivity|].
  cbn [orb]. reflexivity.
Qed.
End Strategy.

(** ** The field policy: the statement of a pointer field *)

Section PointerStatements.
Import GoStrings Parser Config Types.
Context {U : Unicode}.
Variable ta : TypeAnalyzer.

Lemma Contains_intro (s sub a b : string) :
  s = a ++ sub ++ b -> Contains s sub = true.
Proof.
  intros ->. apply Contains_append.
Qed.

Ltac string_normal :=
  unfold emit, tab, newline, dquote;
  repeat (rewrite ?append_assoc; cbn [append]).

Ltac contains_after pre :=
  eapply (Contains_intro _ _ pre); string_normal; reflexivity.

Lemma getSlogFunction_cases (f : FieldInfo) :
  getSlogFunction f = SlogInt64 \/ getSlogFunction f = SlogString
  \/ getSlogFunction f = SlogBool \/ getSlogFunction f = SlogFloat64
  \/ getSlogFunction f = SlogAny.
Proof.
  unfold getSlogFunction.
  repeat match goal with
    | |- context [if ?b then _ else _] => destruct b
    end; auto 10.
Qed.

Lemma AnalyzeField_Log (f : FieldInfo) :
  Action (AnalyzeField ta f) = ActionLog ->
  AnalyzeField ta f =
  {| Field := f; Action := ActionLog;
     SlogFunc := getSlogFunction f; LogValue := "" |}.
Proof.
  unfold AnalyzeField.
  destruct (String.eqb (LogTag f) "-"); [discriminate|].
  destruct (shouldRedactField ta f); [discriminate | reflexivity].
Qed.

Lemma AnalyzeField_Redact (f : FieldInfo) :
  Action (AnalyzeField ta f) = ActionRedact ->
  AnalyzeField ta f =
  {| Field := f; Action := ActionRedact;
     SlogFunc := SlogString; LogValue := RedactMessage (config ta) |}.
Proof.
  unfold AnalyzeField.
  destruct (String.eqb (LogTag f) "-"); [discriminate|].
  destruct (shouldRedactField ta f); [reflexivity | discriminate].
Qed.

Lemma dereferenced_cases (base accessor : string) :
  (In base integer_types ->
   dereferenced base accessor = "int64(*" ++ accessor ++ ")")
  /\ (In base float_types ->
      dereferenced base accessor = "float64(*" ++ accessor ++ ")")
  /\ (~ In base integer_types -> ~ In base float_types ->
      dereferenced base accessor = "*" ++ accessor).
Proof.
  unfold dereferenced. repeat split.
  - intros I. apply existsb_eqb_In in I. now rewrite I.
  - intros Fl.
    destruct (existsb (String.eqb base) integer_types) eqn:I.
    + destruct Fl as [<-|[<-|[]]]; discriminate I.
    + apply existsb_eqb_In in Fl. now rewrite Fl.
  - intros NI NF.
    destruct (existsb (String.eqb base) integer_types) eqn:I;
      [apply existsb_eqb_In in I; contradiction|].
    destruct (existsb (String.eqb base) float_types) eqn:Fl;
      [apply existsb_eqb_In in Fl; contradiction|].
    reflexivity.
Qed.

Lemma getSlogFunction_numeric (f : FieldInfo) :
  (In (base_type f) integer_types -> getSlogFunction f = SlogInt64)
  /\ (In (base_type f) float_types -> getSlogFunction f = SlogFloat64).
Proof.
  rewrite getSlogFunction_of_base. split.
  - intros I. apply existsb_eqb_In in I. now rewrite I.
  - intros Fl. pose proof Fl as Fl'. apply existsb_eqb_In in Fl'.
    rewrite Fl'.
    destruct Fl as [<-|[<-|[]]]; reflexivity.
Qed.

(** The statement of a pointer field that is logged: the [nil] test
    around the call of the function of the pointed-to type on the
    accessor dereferenced once, converted for integers and floats. *)
Lemma pointer_Log_statement (f : FieldInfo) (receiverName : string) :
  IsPointer f = true ->
  Action (AnalyzeField ta f) = ActionLog ->
  SlogFunc (AnalyzeField ta f) = getSlogFunction f
  /\ GenerateLogStatement (AnalyzeField ta f) receiverName =
     nil_checked (receiverName ++ "." ++ Name f) (Name f)
       (emit (getSlogFunction f) (Name f)
          (dereferenced (base_type f) (receiverName ++ "." ++ Name f))).
Proof.
  intros P L. rewrite (AnalyzeField_Log f L). split; [reflexivity|].
  unfold GenerateLogStatement, generateNormalLogStatement, getFieldAccessor.
  cbn [Action Field SlogFunc]. rewrite P.
  change (ActionLog =? ActionSkip)%Z with false.
  change (ActionLog =? ActionRedact)%Z with false.
  change (ActionLog =? ActionLog)%Z with true.
  cbv iota.
  rewrite getSlogFunction_of_base. unfold dereferenced.
  destruct (existsb (String.eqb (base_type f)) integer_types) eqn:I;
    [reflexivity|].
  destruct (String.eqb_spec (base_type f) "string") as [E|E];
    [rewrite E; reflexivity|].
  destruct (String.eqb_spec (base_type f) "bool") as [B|B];
    [rewrite B; reflexivity|].
  destruct (existsb (String.eqb (base_type f)) float_types); reflexivity.
Qed.

(** C4, as amended.  For a pointer field analysed to [ActionLog], the
    statement is exactly the function literal that tests the accessor
    against [nil], returns [slog.String("<name>", "null")] in that
    branch, and otherwise returns the call of the function selected for
    the pointed-to type on the accessor dereferenced once: [slog.Int64]
    on the dereference inside [int64(...)] for every integer type,
    [slog.Float64] on the dereference inside [float64(...)] for the two
    float types, and the selected function on the bare dereference for
    every other type.  For a pointer field analysed to
    [ActionRedact] the statement is the plain call
    [slog.String("<name>", "<message>")]: the pointer is not read. *)
Theorem pointer_field_statement (f : FieldInfo) (receiverName : string) :
  IsPointer f = true ->
  let analysis := AnalyzeField ta f in
  let accessor := receiverName ++ "." ++ Name f in
  let text := GenerateLogStatement analysis receiverName in
  (Action analysis = ActionLog ->
   let value := dereferenced (base_type f) accessor in
   SlogFunc analysis = getSlogFunction f
   /\ (In (base_type f) integer_types ->
       SlogFunc analysis = SlogInt64
       /\ value = "int64(*" ++ accessor ++ ")")
   /\ (In (base_type f) float_types ->
       SlogFunc analysis = SlogFloat64
       /\ value = "float64(*" ++ accessor ++ ")")
   /\ (~ In (base_type f) integer_types ->
       ~ In (base_type f) float_types ->
       value = "*" ++ accessor)
   /\ text = nil_checked accessor (Name f)
               (emit (SlogFunc analysis) (Name f) value)
   /\ Contains text ("if " ++ accessor ++ " == nil {") = true
   /\ Contains text
        ("return slog.String(" ++ dquote ++ Name f ++ dquote ++ ", "
         ++ dquote ++ "null" ++ dquote ++ ")") = true
   /\ Contains text
        ("return " ++ emit (SlogFunc analysis) (Name f) value) = true)
  /\ (Action analysis = ActionRedact ->
      text = emit SlogString (Name f)
               (dquote ++ RedactMessage (config ta) ++ dquote)).
Proof.
  intros P analysis accessor text. split.
  - intros L value.
    destruct (pointer_Log_statement f receiverName P L) as [Hs Ht].
    destruct (dereferenced_cases (base_type f) accessor) as [DI [DF DO]].
    destruct (getSlogFunction_numeric f) as [GI GF].
    fold analysis in Hs. fold analysis accessor value text in Ht.
    split; [exact Hs|].
    split; [intros I; split; [rewrite Hs; now apply GI | now apply DI]|].
    split; [intros Fl; split; [rewrite Hs; now apply GF | now apply DF]|].
    split; [exact DO|].
    assert (T : text = nil_checked accessor (Name f)
                         (emit (SlogFunc analysis) (Name f) value))
      by (rewrite Hs; exact Ht).
    split; [exact T|].
    rewrite T. unfold nil_checked.
    set (e := emit _ (Name f) value).
    repeat split.
    + contains_after ("func() slog.Attr {" ++ newline
                      ++ tab ++ tab ++ tab ++ tab).
    + contains_after ("func() slog.Attr {" ++ newline
                      ++ tab ++ tab ++ tab ++ tab
                      ++ "if " ++ accessor ++ " == nil {" ++ newline
                      ++ tab ++ tab ++ tab ++ tab ++ tab).
    + contains_after ("func() slog.Attr {" ++ newline
                      ++ tab ++ tab ++ tab ++ tab
                      ++ "if " ++ accessor ++ " == nil {" ++ newline
                      ++ tab ++ tab ++ tab ++ tab ++ tab
                      ++ "return "
                      ++ emit "slog.String" (Name f)
                           (dquote ++ "null" ++ dquote)
                      ++ newline
                      ++ tab ++ tab ++ tab ++ tab ++ "}" ++ newline
                      ++ tab ++ tab ++ tab ++ tab).
  - intros R. subst text analysis. rewrite (AnalyzeField_Redact f R).
    reflexivity.
Qed.
End PointerStatements.

(** ** The policy on concrete fields *)

Section Instances.
Import GoStrings Parser Config Types.

(** Witness of C1: the name [password] is a trigger name, and the field
    is skipped all the same. *)
Lemma AnalyzeField_skip_first_witness :
  ShouldRedactField (U := plain_Unicode)
    (config (analyzer_of ["password"] "[HIDDEN]")) "password" = true
  /\ Action (AnalyzeField (U := plain_Unicode)
               (analyzer_of ["password"] "[HIDDEN]")
               (field_of "password" "string" "-" false)) = ActionSkip.
Proof.
  split; [reflexivity|].
  apply (AnalyzeField_skip_first (U := plain_Unicode)
           (analyzer_of ["password"] "[HIDDEN]")
           (field_of "password" "string" "-" false)).
  reflexivity.
Defined.

(** Witness of C3: a field of type [int] redacted by its tag. *)
Lemma redacted_field_statement_witness :
  GenerateLogStatement
    (AnalyzeField (U := plain_Unicode) (analyzer_of [] "[HIDDEN]")
       (field_of "Token" "int" "redact" false)) "u"
  = "slog.String(" ++ dquote ++ "Token" ++ dquote ++ ", "
    ++ dquote ++ "[HIDDEN]" ++ dquote ++ ")".
Proof.
  apply (redacted_field_statement (U := plain_Unicode)
           (analyzer_of [] "[HIDDEN]")
           (field_of "Token" "int" "redact" false) "u").
  - discriminate.
  - left. reflexivity.
Defined.

(** Counterexample to C4 as it is stated: the pointer field [Secret]
    with the tag [redact] is analysed to [ActionRedact], and its
    statement has neither a [nil] test, nor a ["null"] value, nor a
    dereference. *)
Lemma pointer_redact_has_no_nil_branch :
  IsPointer (field_of "Secret" "*string" "redact" true) = true
  /\ forall U : Unicode,
       let analysis :=
         AnalyzeField (analyzer_of [] "[REDACTED]")
           (field_of "Secret" "*string" "redact" true) in
       let text := GenerateLogStatement analysis "s" in
       Action analysis = ActionRedact
       /\ text = "slog.String(" ++ dquote ++ "Secret" ++ dquote ++ ", "
                 ++ dquote ++ "[REDACTED]" ++ dquote ++ ")"
       /\ Contains text "nil" = false
       /\ Contains text "null" = false
       /\ Contains text "*" = false.
Proof.
  split; [reflexivity|]. intros U. repeat split.
Qed.

(** Witness of C4 as amended: the pointer field [Age] of type
    [*int64]. *)
Lemma pointer_field_statement_witness :
  GenerateLogStatement
    (AnalyzeField (U := plain_Unicode) (analyzer_of [] "[REDACTED]")
       (field_of "Age" "*int64" "" true)) "u"
  = nil_checked "u.Age" "Age" (emit SlogInt64 "Age" "int64(*u.Age)").
Proof.
  destruct (pointer_field_statement (U := plain_Unicode)
              (analyzer_of [] "[REDACTED]")
              (field_of "Age" "*int64" "" true) "u" eq_refl)
    as [L _].
  destruct (L eq_refl) as [_ [_ [_ [_ [T _]]]]].
  exact T.
Defined.

(** A pointer to each kind of type: the conversion follows the
    pointed-to type. *)
Example pointer_field_statements :
  map (fun f => GenerateLogStatement
                  (AnalyzeField (U := plain_Unicode)
                     (analyzer_of [] "[REDACTED]") f) "u")
    [field_of "Age" "*int" "" true;
     field_of "Score" "*float32" "" true;
     field_of "Name" "*string" "" true;
     field_of "Owner" "*User" "" true]
  = [nil_checked "u.Age" "Age" (emit SlogInt64 "Age" "int64(*u.Age)");
     nil_checked "u.Score" "Score"
       (emit SlogFloat64 "Score" "float64(*u.Score)");
     nil_checked "u.Name" "Name" (emit SlogString "Name" "*u.Name");
     nil_checked "u.Owner" "Owner" (emit SlogAny "Owner" "*u.Owner")].
Proof. reflexivity. Qed.
End Instances.

(** ** The extractor: type signatures *)

Section TypeSignatures.
Import GoStrings Parser.



(** An array with a literal length: the length is rendered
    [unknown]. *)
Example typeToString_literal_length :
  typeToString (ArrayType (Some (BasicLit "5")) (Ident "int"))
  = "[unknown]int".
Proof. reflexivity. Qed.

Example typeToString_examples :
  map typeToString
    [StarExpr (Ident "string");
     ArrayType None (Ident "string");
     MapType (Ident "string") (StarExpr (SelectorExpr (Ident "time") "Time"));
     ArrayType (Some (Ident "N")) (Ident "byte");
     FuncType;
     IndexExpr (Ident "List") (Ident "int");
     ChanType (Ident "int");
     StarExpr FuncType]
  = ["*string"; "[]string"; "map[string]*time.Time"; "[N]byte";
     "unknown"; "unknown"; "unknown"; "*unknown"].
Proof. reflexivity. Qed.
End TypeSignatures.

(** ** Trigger names *)

Section TriggerNames.
Import GoStrings Parser Config Types.
Context {U : Unicode}.

Lemma ShouldRedactField_keys_In (l : string) (keys : list string) :
  ShouldRedactField_keys l keys = true <-> In l keys.
Proof.
  induction keys as [|k keys IH]; simpl.
  - split; [discriminate | contradiction].
  - destruct (String.eqb_spec l k) as [E|E].
    + split; auto.
    + rewrite IH. split; [auto | intros [H|H]; [congruence | exact H]].
Qed.

Lemma ShouldRedactField_In (c : Config) (name : string) :
  ShouldRedactField c name = true <-> In (ToLower name) (RedactKeys c).
Proof.
  unfold ShouldRedactField. apply ShouldRedactField_keys_In.
Qed.

Lemma validated_RedactKeys {FS : FileSystem} (c : Config) :
  RedactKeys (validated c) = map ToLower (RedactKeys c).
Proof.
  unfold validated, validate. cbn [fst RedactMessage RedactKeys].
  destruct (String.eqb (RedactMessage c) ""); reflexivity.
Qed.

(** After [validate], a name matches exactly when it equals one of the
    original trigger names up to [ToLower]. *)
Lemma ShouldRedactField_validated {FS : FileSystem} (c : Config)
  (name : string) :
  ShouldRedactField (validated c) name = true <->
  exists k, In k (RedactKeys c) /\ ToLower name = ToLower k.
Proof.
  rewrite ShouldRedactField_In, validated_RedactKeys, in_map_iff.
  split; intros [k [A B]]; exists k; auto.
Qed.

Lemma lower_byte_not_upper (c : ascii) : isUpper_byte (lower_byte c) = false.
Proof.
  destruct c as [[] [] [] [] [] [] [] []]; reflexivity.
Qed.

Lemma hasUpper_map_lower (s : string) :
  hasUpper (map_bytes lower_byte s) = false.
Proof.
  unfold hasUpper. induction s as [|c s IH]; [reflexivity|].
  cbn [map_bytes any_byte]. now rewrite lower_byte_not_upper, IH.
Qed.

Lemma ToLower_ASCII (s : string) :
  isASCII s = true -> ToLower s = map_bytes lower_byte s.
Proof.
  intros A. unfold ToLower. rewrite A.
  destruct (hasUpper s) eqn:H; [reflexivity|]. cbn [negb].
  unfold hasUpper in H. clear A.
  induction s as [|c s IH]; [reflexivity|].
  cbn [any_byte] in H. apply orb_false_iff in H. destruct H as [Hc Hs].
  cbn [map_bytes]. rewrite <- (IH Hs). unfold lower_byte. now rewrite Hc.
Qed.

Lemma hasUpper_ToLower (s : string) :
  lowers_ASCII -> hasUpper (ToLower s) = false.
Proof.
  intros L. unfold ToLower. destruct (isASCII s); [|apply L].
  destruct (hasUpper s) eqn:H; cbn [negb];
    [apply hasUpper_map_lower | exact H].
Qed.

Lemma upper_key_no_match (name key : string) :
  lowers_ASCII -> hasUpper key = true ->
  String.eqb (ToLower name) key = false.
Proof.
  intros L H. apply String.eqb_neq. intros E.
  rewrite <- E, (hasUpper_ToLower name L) in H. discriminate.
Qed.

Lemma ShouldRedactField_keys_filter (name : string) (keys : list string) :
  lowers_ASCII ->
  ShouldRedactField_keys (ToLower name) keys =
  ShouldRedactField_keys (ToLower name)
    (filter (fun k => negb (hasUpper k)) keys).
Proof.
  intros L. induction keys as [|k keys IH]; [reflexivity|].
  cbn [ShouldRedactField_keys filter].
  destruct (hasUpper k) eqn:H; cbn [negb].
  - now rewrite (upper_key_no_match name k L H).
  - cbn [ShouldRedactField_keys]. now rewrite IH.
Qed.
(** C2, as amended.  Let a field not carry the tag [-].  If the
    configuration went through [validate] and the name of the field
    equals one of its original trigger names up to case (both have the
    same [ToLower]), the field is analysed to [ActionRedact].  The same
    holds for any configuration that stores the lower-cased name of the
    field among its trigger names; so [Password], [PASSWORD] and
    [password] are all redacted against the trigger [password]. *)
Theorem trigger_name_redacts {FS : FileSystem} (f : FieldInfo) :
  LogTag f <> "-" ->
  (forall c k,
     In k (RedactKeys c) -> ToLower (Name f) = ToLower k ->
     Action (AnalyzeField (NewTypeAnalyzer (validated c)) f) = ActionRedact)
  /\ (forall c,
        In (ToLower (Name f)) (RedactKeys c) ->
        Action (AnalyzeField (NewTypeAnalyzer c) f) = ActionRedact)
  /\ (forall c,
        In (Name f) ["Password"; "PASSWORD"; "password"] ->
        In "password" (RedactKeys c) ->
        Action (AnalyzeField (NewTypeAnalyzer c) f) = ActionRedact).
Proof.
  intros S.
  assert (R : forall c, ShouldRedactField c (Name f) = true ->
                        Action (AnalyzeField (NewTypeAnalyzer c) f)
                        = ActionRedact).
  { intros c H. rewrite AnalyzeField_Action.
    apply String.eqb_neq in S. rewrite S.
    unfold shouldRedactField. rewrite S. cbn [config]. rewrite H.
    now destruct (String.eqb (LogTag f) "redact"). }
  repeat split.
  - intros c k I E. apply R, ShouldRedactField_validated. now exists k.
  - intros c I. now apply R, ShouldRedactField_In.
  - intros c N I. apply R, ShouldRedactField_In.
    cbn in N. destruct N as [N|[N|[N|[]]]]; rewrite <- N; exact I.
Qed.

(** C10, as amended.  [ShouldRedactField] lower-cases the name it is
    asked about and compares it with the trigger names as they are
    stored.  So a trigger name that holds an upper-case ASCII letter
    matches no name, not even itself: the answer is the one of the
    configuration without such trigger names, and it is [false] for
    every name when every trigger name holds an upper-case letter.
    After [validate], which lower-cases the trigger names, a name
    matches exactly when it equals an original trigger name up to
    case. *)
Theorem upper_case_key_never_matches {FS : FileSystem} (c : Config)
  (name : string) :
  lowers_ASCII ->
  (forall key, hasUpper key = true ->
               String.eqb (ToLower name) key = false
               /\ String.eqb (ToLower key) key = false)
  /\ ShouldRedactField c name = ShouldRedactField (without_upper_keys c) name
  /\ ((forall key, In key (RedactKeys c) -> hasUpper key = true) ->
      ShouldRedactField c name = false)
  /\ (ShouldRedactField (validated c) name = true <->
      exists k, In k (RedactKeys c) /\ ToLower name = ToLower k).
Proof.
  intros L. repeat split.
  - now apply upper_key_no_match.
  - now apply upper_key_no_match.
  - unfold ShouldRedactField, without_upper_keys. cbn [RedactKeys].
    now apply ShouldRedactField_keys_filter.
  - intros All. apply not_true_is_false. intros T.
    apply ShouldRedactField_In in T. apply All in T.
    rewrite (hasUpper_ToLower name L) in T. discriminate.
  - apply ShouldRedactField_validated.
  - apply ShouldRedactField_validated.
Qed.
End TriggerNames.

(** ** Trigger names on concrete configurations *)

Section TriggerInstances.
Import GoStrings Parser Config Types.

Lemma plain_Unicode_lowers_ASCII : lowers_ASCII (U := plain_Unicode).
Proof.
  intros s. apply hasUpper_map_lower.
Qed.

(** Counterexample to C2 as it is stated: the field [Password] equals
    the trigger name [Password], whatever the case, and is logged. *)
Lemma stored_upper_case_key_is_not_matched :
  LogTag (field_of "Password" "string" "" false) <> "-"
  /\ In "Password" (RedactKeys (config (analyzer_of ["Password"] "[HIDDEN]")))
  /\ forall U : Unicode,
       ToLower (Name (field_of "Password" "string" "" false))
       = ToLower "Password"
       /\ Action (AnalyzeField (analyzer_of ["Password"] "[HIDDEN]")
                    (field_of "Password" "string" "" false)) = ActionLog.
Proof.
  split; [discriminate|]. split; [left; reflexivity|].
  intros U. split; reflexivity.
Qed.

(** Witness of C2 as amended: [PASSWORD] against the trigger name
    [Password], once validated. *)
Lemma trigger_name_redacts_witness :
  Action (AnalyzeField (U := plain_Unicode)
            (NewTypeAnalyzer
               (validated (U := plain_Unicode) (FS := every_path_exists)
                  (config (analyzer_of ["Password"] "[HIDDEN]"))))
            (field_of "PASSWORD" "string" "" false)) = ActionRedact.
Proof.
  refine (proj1 (trigger_name_redacts (U := plain_Unicode)
                   (FS := every_path_exists)
                   (field_of "PASSWORD" "string" "" false) _)
            (config (analyzer_of ["Password"] "[HIDDEN]")) "Password" _ _).
  - discriminate.
  - left. reflexivity.
  - reflexivity.
Defined.

(** Counterexample to C10 as it is stated: the trigger list holds
    [Password], with an upper-case letter, and [ShouldRedactField]
    answers [true] for the name [Secret]. *)
Lemma other_keys_still_match :
  In "Password" (RedactKeys (config (analyzer_of ["Password"; "secret"] "")))
  /\ hasUpper "Password" = true
  /\ forall U : Unicode,
       ShouldRedactField
         (config (analyzer_of ["Password"; "secret"] "")) "Secret" = true.
Proof.
  split; [left; reflexivity|]. split; [reflexivity|].
  intros U. reflexivity.
Qed.

(** Witness of C10 as amended: the trigger name [Password] does not
    match the name [Password]. *)
Lemma upper_case_key_never_matches_witness :
  ShouldRedactField (U := plain_Unicode)
    (config (analyzer_of ["Password"] "[HIDDEN]")) "Password" = false.
Proof.
  refine (proj1 (proj2 (proj2
            (upper_case_key_never_matches (U := plain_Unicode)
               (FS := every_path_exists)
               (config (analyzer_of ["Password"] "[HIDDEN]")) "Password"
               plain_Unicode_lowers_ASCII))) _).
  intros key [<-|[]]. reflexivity.
Defined.
End TriggerInstances.

(** ** The extractor: log tags *)

Section LogTags.
Import GoStrings Parser.

Lemma length_append (a b : string) :
  String.length (a ++ b) = String.length a + String.length b.
Proof.
  induction a as [|c a IH]; cbn; [reflexivity | now rewrite IH].
Qed.

Lemma len_append (a b : string) : len (a ++ b) = (len a + len b)%Z.
Proof.
  unfold len. rewrite length_append. lia.
Qed.

Lemma len_nonneg (s : string) : (0 <= len s)%Z.
Proof.
  unfold len. lia.
Qed.

Lemma substring_append_l (a b : string) :
  substring 0 (String.length a) (a ++ b) = a.
Proof.
  induction a as [|c a IH]; cbn.
  - now destruct b.
  - now rewrite IH.
Qed.

Lemma substring_append_r (a b : string) :
  substring (String.length a) (String.length b) (a ++ b) = b.
Proof.
  induction a as [|c a IH]; cbn; [apply substring_all | exact IH].
Qed.

Lemma substring_middle (a b c : string) :
  substring (String.length a) (String.length b) (a ++ b ++ c) = b.
Proof.
  induction a as [|x a IH]; cbn; [apply substring_append_l | exact IH].
Qed.

(** [s[len(a):]] of [a ++ b] is [b]. *)
Lemma slice_from_append (a b : string) :
  slice_from (a ++ b) (len a) = Some b.
Proof.
  unfold slice_from, slice. rewrite len_append.
  pose proof (len_nonneg a). pose proof (len_nonneg b).
  replace ((0 <=? len a)%Z && (len a <=? len a + len b)%Z
           && (len a + len b <=? len a + len b)%Z) with true
    by (symmetry; rewrite !andb_true_iff; repeat split; lia).
  replace (Z.to_nat (len a)) with (String.length a) by (unfold len; lia).
  replace (Z.to_nat (len a + len b - len a)) with (String.length b)
    by (unfold len; lia).
  now rewrite substring_append_r.
Qed.

(** [s[len(a) : len(s) - len(c)]] of [s = a ++ b ++ c] is [b]. *)
Lemma slice_middle (a b c : string) :
  slice (a ++ b ++ c) (len a) (len (a ++ b ++ c) - len c) = Some b.
Proof.
  unfold slice. rewrite !len_append.
  pose proof (len_nonneg a). pose proof (len_nonneg b).
  pose proof (len_nonneg c).
  replace ((0 <=? len a)%Z && (len a <=? len a + (len b + len c) - len c)%Z
           && (len a + (len b + len c) - len c <=? len a + (len b + len c))%Z)
    with true
    by (symmetry; rewrite !andb_true_iff; repeat split; lia).
  replace (Z.to_nat (len a)) with (String.length a) by (unfold len; lia).
  replace (Z.to_nat (len a + (len b + len c) - len c - len a))
    with (String.length b) by (unfold len; lia).
  now rewrite substring_middle.
Qed.

Lemma byte_at_first (c : ascii) (s : string) :
  byte_at (String c s) 0 = Some c.
Proof.
  unfold byte_at, len. cbn [String.length].
  replace ((0 <=? 0)%Z && (0 <? Z.of_nat (S (String.length s)))%Z) with true
    by (symmetry; rewrite andb_true_iff; split; lia).
  reflexivity.
Qed.

Lemma get_last (a : string) (q : ascii) :
  String.get (String.length a) (a ++ String q "") = Some q.
Proof.
  induction a as [|c a IH]; cbn; [reflexivity | exact IH].
Qed.

Lemma byte_at_last (a : string) (q : ascii) :
  byte_at (a ++ String q "") (len (a ++ String q "") - 1) = Some q.
Proof.
  unfold byte_at. rewrite len_append. pose proof (len_nonneg a).
  change (len (String q "")) with 1%Z.
  replace ((0 <=? len a + 1 - 1)%Z && (len a + 1 - 1 <? len a + 1)%Z)
    with true by (symmetry; rewrite andb_true_iff; split; lia).
  replace (Z.to_nat (len a + 1 - 1)) with (String.length a)
    by (unfold len; lia).
  apply get_last.
Qed.

(** A string written between two [q] is enclosed by [q], and the slice
    between them is the string. *)
Lemma enclosed_by_quoted (q : ascii) (s : string) :
  enclosed_by (String q (s ++ String q "")) q = Some true
  /\ slice (String q (s ++ String q "")) 1
       (len (String q (s ++ String q "")) - 1) = Some s.
Proof.
  split.
  - unfold enclosed_by.
    replace (2 <=? len (String q (s ++ String q "")))%Z with true
      by (symmetry; change (String q (s ++ String q ""))
            with (String q "" ++ s ++ String q "");
          rewrite !len_append; pose proof (len_nonneg s);
          change (len (String q "")) with 1%Z; lia).
    rewrite byte_at_first. cbn [bind]. rewrite Ascii.eqb_refl.
    change (String q (s ++ String q "")) with ((String q s) ++ String q "").
    rewrite byte_at_last. cbn [bind]. now rewrite Ascii.eqb_refl.
  - apply (slice_middle (String q "") s (String q "")).
Qed.

Lemma Split_no_space (t : string) :
  no_space t = true -> Split t " "%char = [t].
Proof.
  unfold no_space. induction t as [|c t IH]; [reflexivity|].
  cbn [any_byte Split]. rewrite negb_orb, andb_true_iff.
  intros [Hc Ht]. apply negb_true_iff in Hc.
  rewrite Ascii.eqb_sym in Hc. rewrite Hc. now rewrite (IH Ht).
Qed.

Lemma Split_token (t rest : string) :
  no_space t = true ->
  Split (t ++ String " " rest) " "%char = t :: Split rest " "%char.
Proof.
  unfold no_space. induction t as [|c t IH].
  - reflexivity.
  - cbn [any_byte append Split]. rewrite negb_orb, andb_true_iff.
    intros [Hc Ht]. apply negb_true_iff in Hc.
    rewrite Ascii.eqb_sym in Hc. rewrite Hc. now rewrite (IH Ht).
Qed.

(** Splitting a tag at its spaces gives back the tokens it was written
    from. *)
Lemma Split_concat (tokens : list string) :
  tokens <> [] ->
  Forall (fun t => no_space t = true) tokens ->
  Split (String.concat " " tokens) " "%char = tokens.
Proof.
  induction tokens as [|t tokens IH]; [congruence|].
  intros _ F. inversion F as [|? ? Ht Hr]; subst.
  destruct tokens as [|u tokens].
  - cbn [String.concat]. now apply Split_no_space.
  - change (String.concat " " (t :: u :: tokens))
      with (t ++ String " " (String.concat " " (u :: tokens))).
    rewrite (Split_token _ _ Ht). f_equal. apply IH; [discriminate|exact Hr].
Qed.

Lemma logTag_of_part_other (part : string) :
  HasPrefix part "log:" = false -> logTag_of_part part = Some None.
Proof.
  unfold logTag_of_part. now intros ->.
Qed.

Lemma logTag_of_part_log (v : string) :
  logTag_of_part (log_token v) = Some (Some v).
Proof.
  unfold logTag_of_part, log_token.
  change (HasPrefix ("log:" ++ dquote ++ v ++ dquote) "log:") with true.
  change (Index ("log:" ++ dquote ++ v ++ dquote) ":") with 3%Z.
  cbv iota.
  replace ((0 <=? 3)%Z && (3 <? len ("log:" ++ dquote ++ v ++ dquote) - 1)%Z)
    with true
    by (rewrite !len_append; pose proof (len_nonneg v);
        change (len "log:") with 4%Z; change (len dquote) with 1%Z; lia).
  change (3 + 1)%Z with (len "log:").
  rewrite (slice_from_append "log:" (dquote ++ v ++ dquote)). cbn [bind].
  destruct (enclosed_by_quoted "034"%char v) as [E S].
  change (dquote ++ v ++ dquote)
    with (String "034"%char (v ++ String "034"%char "")).
  rewrite E. cbn [bind]. rewrite S. reflexivity.
Qed.

Lemma extractLogTag_parts_first (pre post : list string) (v : string) :
  Forall (fun t => HasPrefix t "log:" = false) pre ->
  extractLogTag_parts (pre ++ log_token v :: post)%list = Some v.
Proof.
  induction pre as [|t pre IH]; intros F.
  - cbn [app extractLogTag_parts]. now rewrite logTag_of_part_log.
  - inversion F as [|? ? Ht Hr]; subst.
    cbn [app extractLogTag_parts].
    rewrite (logTag_of_part_other t Ht). cbn [bind]. now apply IH.
Qed.

Lemma extractLogTag_parts_none (parts : list string) :
  Forall (fun t => HasPrefix t "log:" = false) parts ->
  extractLogTag_parts parts = Some "".
Proof.
  induction parts as [|t parts IH]; intros F; [reflexivity|].
  inversion F as [|? ? Ht Hr]; subst. cbn [extractLogTag_parts].
  rewrite (logTag_of_part_other t Ht). cbn [bind]. now apply IH.
Qed.

(** The tag between backticks is what [extractLogTag] splits. *)
Lemma extractLogTag_raw (tokens : list string) :
  extractLogTag (raw_tag tokens) =
  extractLogTag_parts (Split (String.concat " " tokens) " "%char).
Proof.
  unfold extractLogTag, raw_tag.
  destruct (enclosed_by_quoted "`"%char (String.concat " " tokens)) as [E S].
  change ("`" ++ String.concat " " tokens ++ "`")
    with (String "`"%char (String.concat " " tokens ++ String "`"%char "")).
  rewrite E. cbn [bind]. rewrite S. reflexivity.
Qed.

Lemma no_space_log_token (w : string) :
  no_space w = true -> no_space (log_token w) = true.
Proof.
  intros Hw. unfold no_space, log_token in *.
  cbn [append any_byte dquote]. cbn [Ascii.eqb Bool.eqb orb].
  apply negb_true_iff in Hw. apply negb_true_iff.
  induction w as [|c w IH]; [reflexivity|].
  cbn [append any_byte] in *. apply orb_false_iff in Hw.
  destruct Hw as [Hc Hw]. rewrite Hc. cbn [orb]. now apply IH.
Qed.

Lemma extractLogTag_token (pre post : list string) (w : string) :
  Forall (fun t => no_space t = true) (pre ++ post) ->
  Forall (fun t => HasPrefix t "log:" = false) pre ->
  no_space w = true ->
  extractLogTag (raw_tag (pre ++ log_token w :: post)) = Some w.
Proof.
  intros NS NL Hw. rewrite extractLogTag_raw, Split_concat.
  - now apply extractLogTag_parts_first.
  - now destruct pre.
  - apply Forall_app in NS. destruct NS as [A B].
    apply Forall_app. split; [exact A|].
    constructor; [now apply no_space_log_token | exact B].
Qed.

(** C8.  Let a tag be written between backticks from tokens separated by
    single spaces.  If its first token with the key [log] is
    [log:"v"], [extractLogTag] returns [v] as it is, wherever the token
    stands among the others; so the value is empty when [v] is.  If no
    token has the key [log], it returns the empty string, and so it does
    on the empty string; a field without a tag gets the empty log tag. *)
Theorem extractLogTag_first_token (pre post : list string) (v : string) :
  Forall (fun t => no_space t = true) (pre ++ post) ->
  Forall (fun t => HasPrefix t "log:" = false) pre ->
  no_space v = true ->
  extractLogTag (raw_tag (pre ++ log_token v :: post)) = Some v
  /\ extractLogTag (raw_tag (pre ++ log_token v :: post))
     = extractLogTag (raw_tag [log_token v])
  /\ extractLogTag (raw_tag (pre ++ log_token "" :: post)) = Some ""
  /\ (Forall (fun t => HasPrefix t "log:" = false) post ->
      extractLogTag (raw_tag (pre ++ post)) = Some "")
  /\ extractLogTag "" = Some ""
  /\ tag_of None = Some ("", "").
Proof.
  intros NS NL NV. repeat split.
  - now apply extractLogTag_token.
  - rewrite (extractLogTag_token pre post v NS NL NV).
    symmetry. apply (extractLogTag_token [] [] v); [constructor .. | exact NV].
  - now apply extractLogTag_token.
  - intros NP. rewrite extractLogTag_raw.
    destruct (pre ++ post)%list as [|t l] eqn:E.
    + reflexivity.
    + rewrite Split_concat; [|discriminate|exact NS].
      apply extractLogTag_parts_none. rewrite <- E.
      apply Forall_app. now split.
Qed.

(** *** [extractLogTag] never panics *)

Lemma get_in_range (s : string) (n : nat) :
  (n < String.length s)%nat -> exists c, String.get n s = Some c.
Proof.
  revert n. induction s as [|c s IH]; intros n H; cbn in H; [lia|].
  destruct n as [|n]; cbn; [now exists c | apply IH; lia].
Qed.

Lemma byte_at_in_range (s : string) (i : Z) :
  (0 <= i < len s)%Z -> exists c, byte_at s i = Some c.
Proof.
  intros H. unfold byte_at.
  replace ((0 <=? i)%Z && (i <? len s)%Z) with true by lia.
  apply get_in_range. unfold len in H. lia.
Qed.

Lemma slice_in_range (s : string) (i j : Z) :
  (0 <= i <= j)%Z -> (j <= len s)%Z -> exists t, slice s i j = Some t.
Proof.
  intros H1 H2. unfold slice.
  replace ((0 <=? i)%Z && (i <=? j)%Z && (j <=? len s)%Z) with true by lia.
  eexists. reflexivity.
Qed.

Lemma enclosed_by_total (s : string) (q : ascii) :
  exists b, enclosed_by s q = Some b /\ (b = true -> (2 <= len s)%Z).
Proof.
  unfold enclosed_by. destruct (2 <=? len s)%Z eqn:L.
  - destruct (byte_at_in_range s 0) as [c ->]; [lia|]. cbn [bind].
    destruct (Ascii.eqb c q).
    + destruct (byte_at_in_range s (len s - 1)) as [d ->]; [lia|].
      cbn [bind]. eexists. split; [reflexivity | lia].
    + exists false. split; [reflexivity | discriminate].
  - exists false. split; [reflexivity | discriminate].
Qed.

Lemma logTag_of_part_total (part : string) :
  exists r, logTag_of_part part = Some r.
Proof.
  unfold logTag_of_part.
  destruct (HasPrefix part "log:"); [|now eexists].
  destruct ((0 <=? Index part ":")%Z && (Index part ":" <? len part - 1)%Z)
    eqn:R; [|now eexists].
  destruct (slice_in_range part (Index part ":" + 1) (len part))
    as [value V]; [lia | lia |].
  unfold slice_from. rewrite V. cbn [bind].
  destruct (enclosed_by_total value "034"%char) as [b [-> B]]. cbn [bind].
  destruct b; [|now eexists].
  destruct (slice_in_range value 1 (len value - 1)) as [v ->];
    [specialize (B eq_refl); lia | lia |].
  now eexists.
Qed.

Lemma extractLogTag_parts_total (parts : list string) :
  exists v, extractLogTag_parts parts = Some v.
Proof.
  induction parts as [|p parts [v IH]]; [now eexists|].
  cbn [extractLogTag_parts].
  destruct (logTag_of_part_total p) as [[r|] ->]; cbn [bind];
    [now exists r | now exists v].
Qed.

(** On every string, [extractLogTag] returns a value: each index and
    each slice it takes is in range. *)
Lemma extractLogTag_total (tagValue : string) :
  exists v, extractLogTag tagValue = Some v.
Proof.
  unfold extractLogTag.
  destruct (enclosed_by_total tagValue "`"%char) as [b [-> B]]. cbn [bind].
  destruct b.
  - destruct (slice_in_range tagValue 1 (len tagValue - 1)) as [t ->];
      [specialize (B eq_refl); lia | lia |].
    cbn [bind]. apply extractLogTag_parts_total.
  - cbn [bind]. apply extractLogTag_parts_total.
Qed.

(** The cases of [TestExtractLogTag]. *)
Example extractLogTag_tests :
  map extractLogTag
    [raw_tag ["log:" ++ dquote ++ "-" ++ dquote];
     raw_tag [log_token "redact"];
     raw_tag ["json:" ++ dquote ++ "name" ++ dquote; log_token "redact"];
     raw_tag [log_token "redact"; "json:" ++ dquote ++ "name" ++ dquote];
     raw_tag ["json:" ++ dquote ++ "name" ++ dquote];
     "";
     raw_tag [log_token ""]]
  = [Some "-"; Some "redact"; Some "redact"; Some "redact";
     Some ""; Some ""; Some ""].
Proof. reflexivity. Qed.
End LogTags.

Section LogTagInstances.
Import GoStrings Parser.

(** Witness of C8: the tag [json:"name" log:"redact"] of the spec. *)
Lemma extractLogTag_first_token_witness :
  extractLogTag
    (raw_tag ["json:" ++ dquote ++ "name" ++ dquote; log_token "redact"])
  = Some "redact".
Proof.
  apply (extractLogTag_first_token
           ["json:" ++ dquote ++ "name" ++ dquote] [] "redact").
  - repeat constructor.
  - repeat constructor.
  - reflexivity.
Defined.
End LogTagInstances.

(** ** The extractor: the directive *)

Section Directive.
Import GoStrings Parser.
Context {U : Unicode}.

Lemma HasPrefix_2 (s : string) (a b : ascii) :
  HasPrefix s (String a (String b "")) = true ->
  exists r, s = String a (String b r).
Proof.
  unfold HasPrefix. destruct s as [|c1 [|c2 r]]; cbn; try discriminate.
  - destruct (ascii_dec a c1); discriminate.
  - destruct (ascii_dec a c1) as [<-|]; [|discriminate].
    destruct (ascii_dec b c2) as [<-|]; [|discriminate].
    intros _. now exists r.
Qed.

Lemma drop_trailing_unfold (c : ascii) (s : string) :
  drop_trailing_ascii_space (String c s) =
  match drop_trailing_ascii_space s with
  | EmptyString =>
      if isASCII_byte c && asciiSpace c then EmptyString
      else String c EmptyString
  | r => String c r
  end.
Proof.
  reflexivity.
Qed.

Lemma drop_trailing_cons (c : ascii) (s : string) :
  (isASCII_byte c && asciiSpace c) = false ->
  exists r, drop_trailing_ascii_space (String c s) = String c r.
Proof.
  intros H. rewrite drop_trailing_unfold.
  destruct (drop_trailing_ascii_space s) as [|d r].
  - rewrite H. now exists "".
  - now exists (String d r).
Qed.

(** Trimming keeps two leading bytes that are ASCII and not spaces. *)
Lemma TrimSpace_keeps_2 (a b : ascii) (s : string) :
  trims_spaces_only ->
  isASCII_byte a = true -> asciiSpace a = false ->
  isASCII_byte b = true -> asciiSpace b = false ->
  exists r, TrimSpace (String a (String b s)) = String a (String b r).
Proof.
  intros L Aa Sa Ab Sb. unfold TrimSpace.
  cbn [skip_ascii_space]. rewrite Aa, Sa. cbn [andb negb].
  destruct (drop_trailing_cons b s) as [r R]; [now rewrite Sb, andb_false_r|].
  rewrite (drop_trailing_unfold a), R. cbv zeta iota.
  rewrite Aa. cbn [negb].
  destruct (last_byte (String a (String b r))) as [d|]; [|now exists r].
  destruct (negb (isASCII_byte d)); [|now exists r].
  destruct (L (String a "") b r Ab Sb) as [t' T]. exists t'. exact T.
Qed.

Lemma directive_text_line (text : string) :
  trims_spaces_only -> HasPrefix text "//" = true ->
  exists t, directive_text text = Some t.
Proof.
  intros L P. destruct (HasPrefix_2 _ _ _ P) as [r ->].
  destruct (TrimSpace_keeps_2 "/" "/" r L) as [r' R]; try reflexivity.
  unfold directive_text. rewrite R.
  change (String "/" (String "/" r')) with ("//" ++ r').
  unfold HasPrefix. rewrite prefix_append.
  change (slice_from ("//" ++ r') 2) with (slice_from ("//" ++ r') (len "//")).
  rewrite (slice_from_append "//" r'). cbn [bind]. now eexists.
Qed.

Lemma substring_split (s : string) (k : nat) :
  (k <= String.length s)%nat ->
  s = substring 0 k s ++ substring k (String.length s - k) s.
Proof.
  revert k. induction s as [|c s IH]; intros k H.
  - now destruct k.
  - destruct k as [|k]; cbn [substring append String.length Nat.sub].
    + now rewrite substring_all.
    + f_equal. apply IH. cbn in H. lia.
Qed.

Lemma HasSuffix_split (s suffix : string) :
  HasSuffix s suffix = true -> exists a, s = a ++ suffix.
Proof.
  unfold HasSuffix. intros H. apply andb_true_iff in H.
  destruct H as [L E]. apply String.eqb_eq in E. apply Nat.leb_le in L.
  exists (substring 0 (String.length s - String.length suffix) s).
  pose proof (substring_split s (String.length s - String.length suffix))
    as H.
  replace (String.length s - (String.length s - String.length suffix))%nat
    with (String.length suffix) in H by lia.
  rewrite E in H. apply H. lia.
Qed.

Lemma last_byte_append (a : string) (c : ascii) :
  last_byte (a ++ String c "") = Some c.
Proof.
  induction a as [|x a IH]; [reflexivity|].
  cbn [append last_byte]. rewrite IH.
  destruct a; reflexivity.
Qed.

Lemma drop_trailing_last (s : string) (d : ascii) :
  last_byte s = Some d -> (isASCII_byte d && asciiSpace d) = false ->
  drop_trailing_ascii_space s = s.
Proof.
  intros Hl Hd. induction s as [|c s IH]; [reflexivity|].
  rewrite drop_trailing_unfold. destruct s as [|c' s'].
  - cbn in Hl. injection Hl as ->. cbn. now rewrite Hd.
  - rewrite IH by exact Hl. reflexivity.
Qed.

(** A string that starts and ends with ASCII bytes other than spaces is
    left as it is. *)
Lemma TrimSpace_fixed (c d : ascii) (s : string) :
  isASCII_byte c = true -> asciiSpace c = false ->
  isASCII_byte d = true -> asciiSpace d = false ->
  last_byte (String c s) = Some d ->
  TrimSpace (String c s) = String c s.
Proof.
  intros Ac Sc Ad Sd Hl. unfold TrimSpace. cbn [skip_ascii_space].
  rewrite Ac, Sc. cbn [andb negb]. cbv zeta.
  rewrite (drop_trailing_last _ d Hl) by (now rewrite Sd, andb_false_r).
  rewrite Hl, Ad, Ac. reflexivity.
Qed.

Lemma HasSuffix_append (a suffix : string) :
  HasSuffix (a ++ suffix) suffix = true.
Proof.
  unfold HasSuffix. rewrite length_append.
  replace (String.length a + String.length suffix - String.length suffix)%nat
    with (String.length a) by lia.
  rewrite substring_append_r, String.eqb_refl.
  apply andb_true_iff. split; [apply Nat.leb_le; lia | reflexivity].
Qed.

(** The text of a general comment is what stands between its markers,
    trimmed. *)
Lemma directive_text_block (body : string) :
  directive_text ("/*" ++ body ++ "*/") = Some (TrimSpace body).
Proof.
  unfold directive_text.
  assert (T : TrimSpace ("/*" ++ body ++ "*/") = "/*" ++ body ++ "*/").
  { apply (TrimSpace_fixed "/" "/"); try reflexivity.
    change (last_byte ("/*" ++ body ++ "*/") = Some "/"%char).
    replace ("/*" ++ body ++ "*/")
      with (("/*" ++ body ++ "*") ++ String "/" "")
      by (now rewrite !append_assoc).
    apply last_byte_append. }
  rewrite T.
  change (HasPrefix ("/*" ++ body ++ "*/") "//") with false. cbv iota.
  unfold HasPrefix at 1. rewrite prefix_append.
  replace ("/*" ++ body ++ "*/") with (("/*" ++ body) ++ "*/") at 1
    by (now rewrite append_assoc).
  rewrite HasSuffix_append. cbn [andb].
  change 2%Z with (len "/*") at 1. change 2%Z with (len "*/").
  now rewrite slice_middle.
Qed.

(** A general comment of the scanner is written between its markers. *)
Lemma scanner_block_shape (text : string) :
  HasPrefix text "/*" = true -> HasSuffix text "*/" = true ->
  (4 <= len text)%Z ->
  exists body, text = "/*" ++ body ++ "*/".
Proof.
  intros P S L. destruct (HasSuffix_split _ _ S) as [a ->].
  rewrite len_append in L. change (len "*/") with 2%Z in L.
  destruct (HasPrefix_2 _ _ _ P) as [r E].
  destruct a as [|x [|y body]]; try (cbn in L; lia).
  cbn [append] in E. injection E as -> -> _. now exists body.
Qed.

(** No comment of the scanner makes [directive_text] panic. *)
Lemma directive_text_total (text : string) :
  trims_spaces_only -> scanner_comment text = true ->
  exists t, directive_text text = Some t.
Proof.
  intros L C. unfold scanner_comment in C.
  destruct (HasPrefix text "//") eqn:P; [now apply directive_text_line|].
  cbn [orb] in C. apply andb_true_iff in C. destruct C as [C C3].
  apply andb_true_iff in C. destruct C as [C1 C2].
  destruct (scanner_block_shape text C1 C2) as [body ->]; [lia|].
  rewrite directive_text_block. now eexists.
Qed.

Lemma hasOakDirective_group_spec (comments : list string) :
  (forall c, In c comments -> exists t, directive_text c = Some t) ->
  hasOakDirective_group comments = Some (existsb has_directive comments).
Proof.
  induction comments as [|c comments IH]; intros T; [reflexivity|].
  cbn [hasOakDirective_group existsb]. unfold has_directive at 1.
  destruct (T c (or_introl eq_refl)) as [t ->]. cbn [bind].
  destruct (HasPrefix t "go:generate oak"); [reflexivity|].
  apply IH. intros d Hd. apply T. now right.
Qed.

Lemma hasOakDirective_groups_spec (groups : list (list string)) :
  (forall g c, In g groups -> In c g -> exists t, directive_text c = Some t) ->
  hasOakDirective_groups groups
  = Some (existsb (existsb has_directive) groups).
Proof.
  induction groups as [|g groups IH]; intros T; [reflexivity|].
  cbn [hasOakDirective_groups existsb].
  rewrite hasOakDirective_group_spec
    by (intros c Hc; apply (T g c); [now left | exact Hc]).
  cbn [bind]. destruct (existsb has_directive g); [reflexivity|].
  apply IH. intros h c Hh Hc. apply (T h c); [now right | exact Hc].
Qed.









Section ParseFileOf.
Variable parser_ParseFile : string -> File + string.

End ParseFileOf.
End Directive.

Section DirectiveInstances.
Import GoStrings Parser.

Lemma plain_Unicode_trims_spaces_only :
  trims_spaces_only (U := plain_Unicode).
Proof.
  intros p c t _ _. now exists t.
Qed.


(** The cases of [TestHasOakDirective]. *)
Example hasOakDirective_tests :
  map (fun comments => hasOakDirective (U := plain_Unicode)
                         (unit_with comments))
    [[["//go:generate oak"]];
     [["//go:generate oak --verbose"]];
     [];
     [["//go:generate mockgen"]];
     [["/*" ++ newline ++ "go:generate oak" ++ newline ++ "*/"]]]
  = [Some true; Some true; Some false; Some false; Some true].
Proof. reflexivity. Qed.

Example ParseFile_with_directive :
  ParseFile (U := plain_Unicode)
    (fun _ => inl (unit_with [["//go:generate oak --verbose"]])) "test.go"
  = Some (Some {| Structs :=
                    [{| Struct_Name := "User";
                        Struct_PackageName := "main";
                        Struct_Fields :=
                          [{| Name := "Name"; Type_ := "string"; Tag := "";
                              LogTag := ""; IsPointer := false |}];
                        Struct_FilePath := "test.go" |}];
                  Errors := [] |}, None).
Proof. reflexivity. Qed.

(** A syntax error is the one failure of [ParseFile]. *)
Example ParseFile_syntax_error :
  ParseFile (U := plain_Unicode) (fun _ => inr "expected 'package'") "x.go"
  = Some (None, Some "failed to parse file x.go: expected 'package'").
Proof. reflexivity. Qed.
End DirectiveInstances.

(** ** The field policy: every action and its statement *)

Section Statements.
Import GoStrings Parser Config Types.
Context {U : Unicode}.
Variable ta : TypeAnalyzer.

(** X1.  [AnalyzeStruct] returns one analysis per field, in the order of
    the fields: the analysis at a position is that of the field at this
    position, and carries this field. *)
Theorem AnalyzeStruct_in_order (s : StructInfo) :
  map Field (AnalyzeStruct ta s) = Struct_Fields s
  /\ List.length (AnalyzeStruct ta s) = List.length (Struct_Fields s)
  /\ forall i f,
       nth_error (Struct_Fields s) i = Some f ->
       nth_error (AnalyzeStruct ta s) i = Some (AnalyzeField ta f).
Proof.
  rewrite AnalyzeStruct_map. repeat split.
  - rewrite map_map. rewrite <- (map_id (Struct_Fields s)) at 2.
    apply map_ext. intros f. apply AnalyzeField_Field.
  - apply length_map.
  - intros i f H. now apply map_nth_error.
Qed.

(** X2.  The three actions of [AnalyzeField] by the tag and the name of
    the field: [ActionSkip] exactly for the tag [-]; [ActionRedact]
    exactly for another tag that is [redact] or stands on a field whose
    name the configuration matches; [ActionLog] exactly for the rest.  A
    skipped field gets no function and no value, a logged field the
    function of its type and no value. *)
Theorem AnalyzeField_decision (f : FieldInfo) :
  let analysis := AnalyzeField ta f in
  (Action analysis = ActionSkip <-> LogTag f = "-")
  /\ (Action analysis = ActionRedact <->
      LogTag f <> "-"
      /\ (LogTag f = "redact"
          \/ ShouldRedactField (config ta) (Name f) = true))
  /\ (Action analysis = ActionLog <->
      LogTag f <> "-" /\ LogTag f <> "redact"
      /\ ShouldRedactField (config ta) (Name f) = false)
  /\ (Action analysis = ActionSkip ->
      SlogFunc analysis = "" /\ LogValue analysis = "")
  /\ (Action analysis = ActionLog ->
      SlogFunc analysis = getSlogFunction f /\ LogValue analysis = "").
Proof.
  cbv zeta. unfold AnalyzeField, shouldRedactField.
  destruct (String.eqb_spec (LogTag f) "-") as [E|E]; cbn.
  - repeat split; try discriminate; try tauto; intros H; try discriminate;
      tauto.
  - destruct (String.eqb_spec (LogTag f) "redact") as [R|R]; cbn.
    + repeat split; try discriminate; try tauto; intros H;
        try discriminate; tauto.
    + destruct (ShouldRedactField (config ta) (Name f)) eqn:S; cbn;
        repeat split; try discriminate; try tauto; intros H;
        try discriminate; try tauto.
      destruct H as [_ [_ H]]. discriminate.
      destruct H as [_ [H|H]]; [contradiction|discriminate].
Qed.

Lemma emit_not_empty (fn name value : string) : emit fn name value <> "".
Proof.
  unfold emit. destruct fn; discriminate.
Qed.

Lemma nil_checked_not_empty (a n e : string) : nil_checked a n e <> "".
Proof.
  unfold nil_checked. discriminate.
Qed.

Lemma generateNormalLogStatement_not_empty (a : FieldAnalysis) (r : string) :
  generateNormalLogStatement a r <> "".
Proof.
  unfold generateNormalLogStatement.
  repeat match goal with
    | |- context [if ?b then _ else _] => destruct b
    end;
    first [apply emit_not_empty | apply nil_checked_not_empty].
Qed.

(** X3.  [GenerateLogStatement] returns the empty text for the analyses
    with the action [ActionSkip] and for no other: every other analysis,
    whatever its fields hold, gets a statement. *)
Theorem statement_empty_iff_skip (analysis : FieldAnalysis)
  (receiverName : string) :
  GenerateLogStatement analysis receiverName = ""
  <-> Action analysis = ActionSkip.
Proof.
  unfold GenerateLogStatement.
  destruct (Z.eqb_spec (Action analysis) ActionSkip) as [S|S].
  - tauto.
  - split; [|contradiction]. intros H. exfalso. revert H.
    destruct (Action analysis =? ActionRedact)%Z;
      [apply emit_not_empty|].
    destruct (Action analysis =? ActionLog)%Z;
      [apply generateNormalLogStatement_not_empty | apply emit_not_empty].
Qed.

(** X4.  The statement of a logged field that is not a pointer is the
    one call of the function of its type on the accessor
    [<receiver>.<name>]; the accessor stands inside [int64(...)] for the
    integer types other than [int64], inside [float64(...)] for
    [float32], and bare for every other type. *)
Theorem plain_field_statement (f : FieldInfo) (receiverName : string) :
  IsPointer f = false ->
  Action (AnalyzeField ta f) = ActionLog ->
  GenerateLogStatement (AnalyzeField ta f) receiverName =
  emit (getSlogFunction f) (Name f)
    (widened (Type_ f) (receiverName ++ "." ++ Name f)).
Proof.
  intros P L. rewrite (AnalyzeField_Log ta f L).
  unfold GenerateLogStatement, generateNormalLogStatement, getFieldAccessor.
  cbn [Action Field SlogFunc]. rewrite P.
  change (ActionLog =? ActionSkip)%Z with false.
  change (ActionLog =? ActionRedact)%Z with false.
  change (ActionLog =? ActionLog)%Z with true.
  cbv iota.
  rewrite getSlogFunction_of_base. unfold base_type, widened. rewrite P.
  destruct (existsb (String.eqb (Type_ f)) integer_types) eqn:I.
  - cbn [andb]. change (String.eqb SlogInt64 SlogInt64) with true. cbv iota.
    destruct (String.eqb_spec (Type_ f) "int64") as [E|E];
      [rewrite E|]; reflexivity.
  - cbn [andb].
    destruct (String.eqb_spec (Type_ f) "string") as [S|S].
    { rewrite S. reflexivity. }
    destruct (String.eqb_spec (Type_ f) "bool") as [B|B].
    { rewrite B. reflexivity. }
    destruct (existsb (String.eqb (Type_ f)) float_types) eqn:Fl.
    + change (String.eqb SlogFloat64 SlogInt64) with false.
      change (String.eqb SlogFloat64 SlogFloat64) with true. cbv iota.
      unfold float_types in Fl. cbn [existsb] in Fl.
      destruct (String.eqb_spec (Type_ f) "float32") as [E|E].
      * rewrite E. reflexivity.
      * destruct (String.eqb_spec (Type_ f) "float64") as [E'|E'];
          [reflexivity | discriminate].
    + unfold float_types in Fl. cbn [existsb] in Fl.
      destruct (String.eqb (Type_ f) "float32"); [discriminate|].
      reflexivity.
Qed.

(** X5.  In the statement of a logged pointer field the last [return]
    calls the function of the pointed-to type on the accessor
    dereferenced once, inside [int64(...)] for every integer type, and
    so for [*int64] too, inside [float64(...)] for both float types, and
    bare for the other types. *)
Theorem pointer_field_conversion (f : FieldInfo) (receiverName : string) :
  IsPointer f = true ->
  Action (AnalyzeField ta f) = ActionLog ->
  GenerateLogStatement (AnalyzeField ta f) receiverName =
  nil_checked (receiverName ++ "." ++ Name f) (Name f)
    (emit (getSlogFunction f) (Name f)
       (dereferenced (base_type f) (receiverName ++ "." ++ Name f))).
Proof.
  intros P L. rewrite (AnalyzeField_Log ta f L).
  unfold GenerateLogStatement, generateNormalLogStatement, getFieldAccessor.
  cbn [Action Field SlogFunc]. rewrite P.
  change (ActionLog =? ActionSkip)%Z with false.
  change (ActionLog =? ActionRedact)%Z with false.
  change (ActionLog =? ActionLog)%Z with true.
  cbv iota.
  rewrite getSlogFunction_of_base. unfold dereferenced.
  destruct (existsb (String.eqb (base_type f)) integer_types) eqn:I;
    [reflexivity|].
  destruct (String.eqb_spec (base_type f) "string") as [E|E];
    [rewrite E; reflexivity|].
  destruct (String.eqb_spec (base_type f) "bool") as [B|B];
    [rewrite B; reflexivity|].
  destruct (existsb (String.eqb (base_type f)) float_types); reflexivity.
Qed.

Lemma HasLoggableFields_loop_existsb (l : list FieldAnalysis) :
  HasLoggableFields_loop l
  = existsb (fun a => negb (Action a =? ActionSkip)%Z) l.
Proof.
  induction l as [|a l IH]; simpl; [reflexivity|].
  destruct (Action a =? ActionSkip)%Z; simpl; [exact IH | reflexivity].
Qed.

(** X6.  [HasLoggableFields] looks at the tags alone: it answers [true]
    exactly when some field does not carry the tag [-], whatever the
    configuration of the analyzer, the names and the types are. *)
Theorem HasLoggableFields_by_tags (s : StructInfo) :
  HasLoggableFields ta s
  = existsb (fun f => negb (tagged_out f)) (Struct_Fields s).
Proof.
  unfold HasLoggableFields.
  rewrite HasLoggableFields_loop_existsb, AnalyzeStruct_map.
  induction (Struct_Fields s) as [|f l IH]; simpl; [reflexivity|].
  rewrite IH, AnalyzeField_Action. unfold tagged_out.
  destruct (String.eqb (LogTag f) "-"); [reflexivity|].
  destruct (shouldRedactField ta f); reflexivity.
Qed.
End Statements.

Section StatementInstances.
Import GoStrings Parser Config Types.

(** Witness of X4: the field [Age int] of the receiver [u]. *)
Lemma plain_field_statement_witness :
  GenerateLogStatement
    (AnalyzeField (U := plain_Unicode) (analyzer_of [] "[REDACTED]")
       (field_of "Age" "int" "" false)) "u"
  = emit SlogInt64 "Age" "int64(u.Age)".
Proof.
  apply (plain_field_statement (U := plain_Unicode)
           (analyzer_of [] "[REDACTED]") (field_of "Age" "int" "" false) "u");
    reflexivity.
Defined.

(** Witness of X5: the field [Count *int64] of the receiver [u]. *)
Lemma pointer_field_conversion_witness :
  GenerateLogStatement
    (AnalyzeField (U := plain_Unicode) (analyzer_of [] "[REDACTED]")
       (field_of "Count" "*int64" "" true)) "u"
  = nil_checked "u.Count" "Count"
      (emit SlogInt64 "Count" "int64(*u.Count)").
Proof.
  apply (pointer_field_conversion (U := plain_Unicode)
           (analyzer_of [] "[REDACTED]")
           (field_of "Count" "*int64" "" true) "u");
    reflexivity.
Defined.

(** The statements of some fields that are not pointers. *)
Example plain_field_statements :
  map (fun f => GenerateLogStatement
                  (AnalyzeField (U := plain_Unicode)
                     (analyzer_of ["password"] "[REDACTED]") f) "u")
    [field_of "ID" "int" "" false;
     field_of "Total" "int64" "" false;
     field_of "Name" "string" "" false;
     field_of "Score" "float32" "" false;
     field_of "Data" "[]byte" "" false]
  = [emit SlogInt64 "ID" "int64(u.ID)";
     emit SlogInt64 "Total" "u.Total";
     emit SlogString "Name" "u.Name";
     emit SlogFloat64 "Score" "float64(u.Score)";
     emit SlogAny "Data" "u.Data"].
Proof. reflexivity. Qed.
End StatementInstances.

(** ** The configuration: [validate] *)

Section Configuration.
Import GoStrings Config.
Context {U : Unicode} {FS : FileSystem}.

(** X7.  [validate] leaves the package paths as they are, replaces every
    trigger name by its lower-case form, and leaves a message that is
    never empty: the message given, or [[REDACTED]] in place of the
    empty one. *)
Theorem validate_normalises (c : Config) :
  let c' := fst (validate c) in
  Packages c' = Packages c
  /\ RedactKeys c' = map ToLower (RedactKeys c)
  /\ RedactMessage c' <> ""
  /\ (RedactMessage c <> "" -> RedactMessage c' = RedactMessage c)
  /\ (RedactMessage c = "" -> RedactMessage c' = "[REDACTED]").
Proof.
  cbv zeta. unfold validate. cbn [RedactMessage Packages RedactKeys fst].
  destruct (String.eqb_spec (RedactMessage c) "") as [E|E];
    cbn [RedactMessage Packages RedactKeys]; repeat split; auto;
    try discriminate; try contradiction.
Qed.

Lemma validate_packages_accepted (pkgs : list string) :
  validate_packages pkgs = None <-> forallb package_accepted pkgs = true.
Proof.
  induction pkgs as [|p pkgs IH]; [now split|].
  cbn [validate_packages forallb]. unfold package_accepted at 1.
  destruct (String.eqb p ""); cbn [negb andb]; [split; discriminate|].
  destruct (filepath_IsAbs p); cbn [negb orb]; [exact IH|].
  destruct (filepath_Abs p) as [a|e]; [|split; discriminate].
  destruct (stat_IsNotExist a); cbn [negb]; [split; discriminate | exact IH].
Qed.

Lemma validate_error (c : Config) :
  snd (validate c) = validate_packages (Packages c).
Proof.
  unfold validate. cbn [snd RedactMessage Packages RedactKeys].
  now destruct (String.eqb (RedactMessage c) "").
Qed.

(** X8.  [validate] returns no error exactly when every package path is
    not empty and is absolute, or has an absolute form that is not
    missing.  So a list of absolute paths is accepted without a look at
    the disk. *)
Theorem validate_accepts_packages (c : Config) :
  (snd (validate c) = None <-> forallb package_accepted (Packages c) = true)
  /\ (Forall (fun p => p <> "" /\ filepath_IsAbs p = true) (Packages c) ->
      snd (validate c) = None).
Proof.
  rewrite validate_error. split; [apply validate_packages_accepted|].
  intros F. apply validate_packages_accepted, forallb_forall.
  intros p Hp. rewrite Forall_forall in F. destruct (F p Hp) as [N A].
  unfold package_accepted. rewrite A.
  apply String.eqb_neq in N. now rewrite N.
Qed.

Lemma lower_byte_ASCII (c : ascii) :
  isASCII_byte c = true -> isASCII_byte (lower_byte c) = true.
Proof.
  destruct c as [[] [] [] [] [] [] [] []]; vm_compute; auto.
Qed.

Lemma isASCII_map_lower (s : string) :
  isASCII s = true -> isASCII (map_bytes lower_byte s) = true.
Proof.
  unfold isASCII. induction s as [|c s IH]; [reflexivity|].
  cbn [all_bytes map_bytes]. rewrite !andb_true_iff.
  intros [Hc Hs]. split; [now apply lower_byte_ASCII | now apply IH].
Qed.

Lemma ToLower_idempotent_ASCII (s : string) :
  isASCII s = true -> ToLower (ToLower s) = ToLower s.
Proof.
  intros A. rewrite (ToLower_ASCII s A).
  unfold ToLower. rewrite (isASCII_map_lower s A), hasUpper_map_lower.
  reflexivity.
Qed.

(** X9.  On a configuration whose trigger names are ASCII, a second
    [validate] changes nothing: it leaves the configuration the first
    one left and returns the same error. *)
Theorem validate_idempotent (c : Config) :
  forallb isASCII (RedactKeys c) = true ->
  validate (fst (validate c)) = validate c.
Proof.
  intros A. unfold validate.
  cbn [fst RedactMessage Packages RedactKeys].
  assert (K : map ToLower (map ToLower (RedactKeys c))
              = map ToLower (RedactKeys c)).
  { rewrite map_map. apply map_ext_in. intros k Hk.
    apply ToLower_idempotent_ASCII.
    rewrite forallb_forall in A. now apply A. }
  destruct (String.eqb_spec (RedactMessage c) "") as [E|E];
    cbn [fst RedactMessage Packages RedactKeys]; rewrite K.
  - reflexivity.
  - apply String.eqb_neq in E. rewrite E. reflexivity.
Qed.

(** X10.  [ShouldRedactField] reads the trigger names as a set: two
    configurations that hold the same names, in any order and any number
    of times, give the same answer on every field name. *)
Theorem ShouldRedactField_key_set (c c' : Config) :
  (forall k, In k (RedactKeys c) <-> In k (RedactKeys c')) ->
  forall fieldName,
    ShouldRedactField c fieldName = ShouldRedactField c' fieldName.
Proof.
  intros S name.
  destruct (ShouldRedactField c name) eqn:A;
    destruct (ShouldRedactField c' name) eqn:B; try reflexivity.
  - apply ShouldRedactField_In, S, ShouldRedactField_In in A. congruence.
  - apply ShouldRedactField_In, S, ShouldRedactField_In in B. congruence.
Qed.
End Configuration.

(** ** The configuration: loading *)

Section Loading.
Import GoStrings Config ConfigLoad.
Context {U : Unicode} {FS : FileSystem}.
Variable os_ReadFile : string -> string + string.
Variable yaml_Unmarshal : string -> Config -> Config + string.
Variable os_Getwd : string + string.
Variable filepath_Join : string -> string -> string.
Variable filepath_Dir : string -> string.
Variable stat_ok : string -> bool.

(** X11.  [LoadConfigFromPath] returns a configuration or an error,
    never both and never neither.  The configuration it returns is the
    document read into the default configuration and then validated: its
    message is not empty, its package paths all passed [validate], and,
    when the Unicode path of [ToLower] leaves no upper-case ASCII letter,
    none of its trigger names holds one. *)
Theorem LoadConfigFromPath_validated (configPath : string) :
  (fst (LoadConfigFromPath os_ReadFile yaml_Unmarshal configPath) = None
   <-> snd (LoadConfigFromPath os_ReadFile yaml_Unmarshal configPath)
       <> None)
  /\ forall cfg,
       fst (LoadConfigFromPath os_ReadFile yaml_Unmarshal configPath)
       = Some cfg ->
       (exists data config,
          os_ReadFile configPath = inl data
          /\ yaml_Unmarshal data DefaultConfig = inl config
          /\ cfg = validated config)
       /\ RedactMessage cfg <> ""
       /\ validate_packages (Packages cfg) = None
       /\ (lowers_ASCII ->
           Forall (fun k => hasUpper k = false) (RedactKeys cfg)).
Proof.
  unfold LoadConfigFromPath.
  destruct (os_ReadFile configPath) as [data|e];
    [|cbn; split; [split; [discriminate | reflexivity] | discriminate]].
  destruct (yaml_Unmarshal data DefaultConfig) as [config|e] eqn:Y;
    [|cbn; split; [split; [discriminate | reflexivity] | discriminate]].
  destruct (validate config) as [c' [e|]] eqn:V;
    [cbn; split; [split; [discriminate | reflexivity] | discriminate]|].
  cbn [fst snd]. split; [split; [discriminate | congruence]|].
  intros cfg [= <-].
  assert (C : c' = validated config) by (unfold validated; now rewrite V).
  assert (E : validate_packages (Packages c') = None).
  { pose proof (f_equal snd V) as S. cbn [snd] in S.
    unfold validate in S. cbn [snd Packages RedactMessage] in S.
    rewrite C. unfold validated, validate. cbn [fst Packages RedactMessage].
    destruct (String.eqb (RedactMessage config) ""); exact S. }
  split; [exists data, config; repeat split; assumption|].
  split; [|split; [exact E|]].
  - rewrite C. unfold validated, validate.
    cbn [fst Packages RedactMessage RedactKeys].
    destruct (String.eqb_spec (RedactMessage config) "") as [M|M];
      [discriminate | exact M].
  - intros L. rewrite C, validated_RedactKeys. apply Forall_forall.
    intros k Hk. apply in_map_iff in Hk. destruct Hk as [k0 [<- _]].
    now apply hasUpper_ToLower.
Qed.

Lemma ancestor_succ (k : nat) (dir : string) :
  ancestor filepath_Dir k (filepath_Dir dir)
  = ancestor filepath_Dir (S k) dir.
Proof.
  unfold ancestor. symmetry. apply Nat.iter_succ_r.
Qed.

Lemma findConfigFile_loop_found (n : nat) :
  forall dir fuel,
    (forall k, k < n ->
       stat_ok (filepath_Join (ancestor filepath_Dir k dir) "oak.yaml")
       = false
       /\ filepath_Dir (ancestor filepath_Dir k dir)
          <> ancestor filepath_Dir k dir) ->
    stat_ok (filepath_Join (ancestor filepath_Dir n dir) "oak.yaml") = true ->
    n < fuel ->
    findConfigFile_loop filepath_Join filepath_Dir stat_ok fuel dir
    = Some (inl (filepath_Join (ancestor filepath_Dir n dir) "oak.yaml")).
Proof.
  induction n as [|n IH]; intros dir fuel Below Here F;
    (destruct fuel as [|fuel]; [lia|]); cbn [findConfigFile_loop].
  - change (ancestor filepath_Dir 0 dir) with dir in Here. now rewrite Here.
  - destruct (Below 0) as [S0 D0]; [lia|].
    change (ancestor filepath_Dir 0 dir) with dir in S0, D0.
    rewrite S0. apply String.eqb_neq in D0. rewrite D0.
    rewrite (IH (filepath_Dir dir) fuel).
    + now rewrite ancestor_succ.
    + intros k Hk. rewrite ancestor_succ. apply Below. lia.
    + now rewrite ancestor_succ.
    + lia.
Qed.

Lemma findConfigFile_loop_root (n : nat) :
  forall dir fuel,
    (forall k, k <= n ->
       stat_ok (filepath_Join (ancestor filepath_Dir k dir) "oak.yaml")
       = false) ->
    (forall k, k < n ->
       filepath_Dir (ancestor filepath_Dir k dir)
       <> ancestor filepath_Dir k dir) ->
    filepath_Dir (ancestor filepath_Dir n dir)
    = ancestor filepath_Dir n dir ->
    n < fuel ->
    findConfigFile_loop filepath_Join filepath_Dir stat_ok fuel dir
    = Some (inr tt).
Proof.
  induction n as [|n IH]; intros dir fuel No Up Root F;
    (destruct fuel as [|fuel]; [lia|]); cbn [findConfigFile_loop].
  - pose proof (No 0 (le_n 0)) as S0.
    change (ancestor filepath_Dir 0 dir) with dir in S0, Root.
    rewrite S0, Root, String.eqb_refl. reflexivity.
  - pose proof (No 0 (Nat.le_0_l _)) as S0.
    assert (D0 : filepath_Dir (ancestor filepath_Dir 0 dir)
                 <> ancestor filepath_Dir 0 dir) by (apply Up; lia).
    change (ancestor filepath_Dir 0 dir) with dir in S0, D0.
    rewrite S0. apply String.eqb_neq in D0. rewrite D0.
    apply (IH (filepath_Dir dir) fuel).
    + intros k Hk. rewrite ancestor_succ. apply No. lia.
    + intros k Hk. rewrite ancestor_succ. apply Up. lia.
    + rewrite ancestor_succ. exact Root.
    + lia.
Qed.

(** X12.  Let the [n]-th directory above the working directory be the
    first that holds [oak.yaml], none of the directories before it being
    its own parent.  Then the loop of [findConfigFile] ends within
    [n + 1] rounds with the path of that file, and [LoadConfig] returns
    what [LoadConfigFromPath] returns on that path. *)
Theorem findConfigFile_nearest (n fuel : nat) (cwd : string) :
  os_Getwd = inl cwd ->
  (forall k, k < n ->
     stat_ok (filepath_Join (ancestor filepath_Dir k cwd) "oak.yaml") = false
     /\ filepath_Dir (ancestor filepath_Dir k cwd)
        <> ancestor filepath_Dir k cwd) ->
  stat_ok (filepath_Join (ancestor filepath_Dir n cwd) "oak.yaml") = true ->
  n < fuel ->
  let configPath := filepath_Join (ancestor filepath_Dir n cwd) "oak.yaml" in
  findConfigFile os_Getwd filepath_Join filepath_Dir stat_ok fuel
  = Some (inl configPath)
  /\ LoadConfig os_ReadFile yaml_Unmarshal os_Getwd filepath_Join
       filepath_Dir stat_ok fuel
     = Some (LoadConfigFromPath os_ReadFile yaml_Unmarshal configPath).
Proof.
  intros G Below Here F configPath.
  assert (E : findConfigFile os_Getwd filepath_Join filepath_Dir stat_ok fuel
              = Some (inl configPath)).
  { unfold findConfigFile. rewrite G.
    now rewrite (findConfigFile_loop_found n cwd fuel Below Here F). }
  split; [exact E|]. unfold LoadConfig. rewrite E. cbn [bind].
  unfold LoadConfigFromPath.
  destruct (os_ReadFile configPath) as [data|e]; [|reflexivity].
  destruct (yaml_Unmarshal data DefaultConfig) as [config|e];
    [|reflexivity].
  now destruct (validate config) as [c' [e|]].
Qed.

(** X13.  [LoadConfig] reports that no configuration file was found,
    and nothing else, in two cases: when the working directory cannot be
    read, whose own error is dropped; and when no directory from the
    working directory up to the [n]-th above it, the first that is its
    own parent, holds [oak.yaml].  The loop ends within [n + 1]
    rounds. *)
Theorem LoadConfig_not_found (n fuel : nat) :
  n < fuel ->
  (forall err, os_Getwd = inr err ->
     LoadConfig os_ReadFile yaml_Unmarshal os_Getwd filepath_Join
       filepath_Dir stat_ok fuel
     = Some (None, Some not_found_error))
  /\ (forall cwd,
        os_Getwd = inl cwd ->
        (forall k, k <= n ->
           stat_ok (filepath_Join (ancestor filepath_Dir k cwd) "oak.yaml")
           = false) ->
        (forall k, k < n ->
           filepath_Dir (ancestor filepath_Dir k cwd)
           <> ancestor filepath_Dir k cwd) ->
        filepath_Dir (ancestor filepath_Dir n cwd)
        = ancestor filepath_Dir n cwd ->
        findConfigFile os_Getwd filepath_Join filepath_Dir stat_ok fuel
        = Some (inr "oak.yaml not found")
        /\ LoadConfig os_ReadFile yaml_Unmarshal os_Getwd filepath_Join
             filepath_Dir stat_ok fuel
           = Some (None, Some not_found_error)).
Proof.
  intros F. split.
  - intros err G. unfold LoadConfig, findConfigFile. now rewrite G.
  - intros cwd G No Up Root.
    assert (E : findConfigFile os_Getwd filepath_Join filepath_Dir stat_ok
                  fuel = Some (inr "oak.yaml not found")).
    { unfold findConfigFile. rewrite G.
      now rewrite (findConfigFile_loop_root n cwd fuel No Up Root F). }
    split; [exact E|]. unfold LoadConfig. now rewrite E.
Qed.
End Loading.

Section ConfigurationInstances.
Import GoStrings Config ConfigLoad.

(** Witness of X9: the configuration of [TestConfigValidation]. *)
Lemma validate_idempotent_witness :
  validate (U := plain_Unicode) (FS := every_path_exists)
    (fst (validate (U := plain_Unicode) (FS := every_path_exists)
            {| Packages := ["."]; RedactKeys := ["Password"; "SECRET"];
               RedactMessage := "" |}))
  = validate (U := plain_Unicode) (FS := every_path_exists)
      {| Packages := ["."]; RedactKeys := ["Password"; "SECRET"];
         RedactMessage := "" |}.
Proof.
  apply (validate_idempotent (U := plain_Unicode) (FS := every_path_exists)
           {| Packages := ["."]; RedactKeys := ["Password"; "SECRET"];
              RedactMessage := "" |}).
  reflexivity.
Defined.

(** Witness of X10: the same two names, in another order and twice. *)
Lemma ShouldRedactField_key_set_witness :
  ShouldRedactField (U := plain_Unicode)
    {| Packages := []; RedactKeys := ["password"; "token"];
       RedactMessage := "" |} "Token"
  = ShouldRedactField (U := plain_Unicode)
      {| Packages := []; RedactKeys := ["token"; "password"; "token"];
         RedactMessage := "" |} "Token".
Proof.
  apply (ShouldRedactField_key_set (U := plain_Unicode)
           {| Packages := []; RedactKeys := ["password"; "token"];
              RedactMessage := "" |}
           {| Packages := []; RedactKeys := ["token"; "password"; "token"];
              RedactMessage := "" |}).
  intros k. cbn [RedactKeys In]. tauto.
Defined.

(** Witness of X12: from [/home/me/project/cmd] the file is found two
    directories up. *)
Lemma findConfigFile_nearest_witness :
  findConfigFile (inl "/home/me/project/cmd")
    (fun dir name => dir ++ "/" ++ name)
    (fun dir => if String.eqb dir "/home/me/project/cmd"
                then "/home/me/project"
                else if String.eqb dir "/home/me/project" then "/home/me"
                else if String.eqb dir "/home/me" then "/home"
                else "/")
    (fun path => String.eqb path "/home/me/oak.yaml") 5
  = Some (inl "/home/me/oak.yaml").
Proof.
  refine (proj1 (findConfigFile_nearest (U := plain_Unicode)
                   (FS := every_path_exists)
                   (fun _ => inr "unreadable") (fun _ c => inl c)
                   (inl "/home/me/project/cmd")
                   (fun dir name => dir ++ "/" ++ name)
                   (fun dir => if String.eqb dir "/home/me/project/cmd"
                               then "/home/me/project"
                               else if String.eqb dir "/home/me/project"
                                    then "/home/me"
                               else if String.eqb dir "/home/me" then "/home"
                               else "/")
                   (fun path => String.eqb path "/home/me/oak.yaml")
                   2 5 "/home/me/project/cmd" eq_refl _ eq_refl _)).
  - intros k Hk.
    destruct k as [|[|k]]; [split; [reflexivity | discriminate] .. | lia].
  - lia.
Defined.

(** Witness of X13: no directory up to the root holds the file. *)
Lemma LoadConfig_not_found_witness :
  LoadConfig (U := plain_Unicode) (FS := every_path_exists)
    (fun _ => inr "unreadable") (fun _ c => inl c)
    (inl "/srv/app") (fun dir name => dir ++ "/" ++ name)
    (fun dir => if String.eqb dir "/srv/app" then "/srv" else "/")
    (fun _ => false) 4
  = Some (None, Some not_found_error).
Proof.
  refine (proj2 (proj2 (LoadConfig_not_found (U := plain_Unicode)
                          (FS := every_path_exists)
                          (fun _ => inr "unreadable") (fun _ c => inl c)
                          (inl "/srv/app")
                          (fun dir name => dir ++ "/" ++ name)
                          (fun dir => if String.eqb dir "/srv/app"
                                      then "/srv" else "/")
                          (fun _ => false) 2 4 _)
                   "/srv/app" eq_refl _ _ eq_refl)).
  - lia.
  - reflexivity.
  - intros k Hk.
    destruct k as [|[|k]]; [discriminate .. | lia].
Defined.

(** [TestConfigValidation]: the message and the keys after [validate]. *)
Example validate_test :
  validate (U := plain_Unicode) (FS := every_path_exists)
    {| Packages := ["."]; RedactKeys := ["Password"; "SECRET"];
       RedactMessage := "" |}
  = ({| Packages := ["."]; RedactKeys := ["password"; "secret"];
        RedactMessage := "[REDACTED]" |}, None).
Proof. reflexivity. Qed.

(** A relative package path that is missing, and an empty one. *)
Example validate_errors :
  map (fun pkgs => snd (validate (U := plain_Unicode)
                          (FS := some_paths_missing)
                          {| Packages := pkgs; RedactKeys := [];
                             RedactMessage := "x" |}))
    [["."; "nonexistent/pkg"]; ["."; ""]; ["/nonexistent/abs"]]
  = [Some "package path does not exist: nonexistent/pkg";
     Some "empty package path in packages list";
     None].
Proof. reflexivity. Qed.
End ConfigurationInstances.

(** ** The extractor: tokens with the key [log] that are not well formed *)

Section Tokens.
Import GoStrings Parser.

Lemma HasPrefix_shape (p : string) :
  forall s, HasPrefix s p = true -> exists r, s = p ++ r.
Proof.
  unfold HasPrefix. induction p as [|a p IH]; intros s H.
  - now exists s.
  - destruct s as [|b s]; cbn [String.prefix] in H; [discriminate|].
    destruct (Ascii.ascii_dec a b) as [<-|]; [|discriminate].
    destruct (IH s H) as [r ->]. now exists r.
Qed.

Lemma string_snoc (s : string) :
  s <> "" -> exists m d, s = m ++ String d "".
Proof.
  induction s as [|c s IH]; [congruence|]. intros _.
  destruct s as [|c' s'].
  - now exists "", c.
  - destruct IH as [m [d E]]; [discriminate|].
    exists (String c m), d. cbn [append]. now rewrite <- E.
Qed.

Lemma enclosed_by_shape (s : string) (q : ascii) :
  enclosed_by s q = Some true -> exists m, s = String q (m ++ String q "").
Proof.
  unfold enclosed_by. destruct (2 <=? len s)%Z eqn:L; [|discriminate].
  destruct s as [|c s]; [discriminate|].
  rewrite byte_at_first. cbn [bind].
  destruct (Ascii.eqb_spec c q) as [->|]; [|discriminate].
  destruct (string_snoc s) as [m [d ->]].
  { intros ->. discriminate. }
  change (String q (m ++ String d "")) with (String q m ++ String d "").
  rewrite byte_at_last. cbn [bind].
  destruct (Ascii.eqb_spec d q) as [->|]; [|discriminate].
  intros _. now exists m.
Qed.

(** The body of the loop returns a value on the tokens [log:"v"] only. *)
Lemma logTag_of_part_shape (part v : string) :
  logTag_of_part part = Some (Some v) -> part = log_token v.
Proof.
  unfold logTag_of_part.
  destruct (HasPrefix part "log:") eqn:P; [|discriminate].
  destruct (HasPrefix_shape _ _ P) as [value ->].
  destruct value as [|c value]; [discriminate|].
  change (Index ("log:" ++ String c value) ":") with 3%Z.
  replace ((0 <=? 3)%Z && (3 <? len ("log:" ++ String c value) - 1)%Z)
    with true
    by (rewrite len_append; pose proof (len_nonneg value);
        change (len "log:") with 4%Z;
        change (len (String c value)) with (Z.of_nat (S (String.length value)));
        unfold len in *; lia).
  change (3 + 1)%Z with (len "log:").
  rewrite (slice_from_append "log:" (String c value)). cbn [bind].
  destruct (enclosed_by (String c value) "034"%char) as [[|]|] eqn:E;
    cbn [bind]; try discriminate.
  destruct (enclosed_by_shape _ _ E) as [m M]. rewrite M.
  destruct (enclosed_by_quoted "034"%char m) as [_ S]. rewrite S.
  cbn [bind]. intros [= <-]. reflexivity.
Qed.

Lemma logTag_of_part_malformed (t : string) :
  (forall w, t <> log_token w) -> logTag_of_part t = Some None.
Proof.
  intros N. destruct (logTag_of_part_total t) as [[w|] E]; [|exact E].
  apply logTag_of_part_shape in E. now destruct (N w).
Qed.

Lemma extractLogTag_parts_well_formed (pre post : list string) (v : string) :
  Forall (fun t => forall w, t <> log_token w) pre ->
  extractLogTag_parts (pre ++ log_token v :: post)%list = Some v.
Proof.
  induction pre as [|t pre IH]; intros F.
  - cbn [app extractLogTag_parts]. now rewrite logTag_of_part_log.
  - inversion F as [|? ? Ht Hr]; subst. cbn [app extractLogTag_parts].
    rewrite (logTag_of_part_malformed t Ht). cbn [bind]. now apply IH.
Qed.

Lemma extractLogTag_parts_no_well_formed (parts : list string) :
  Forall (fun t => forall w, t <> log_token w) parts ->
  extractLogTag_parts parts = Some "".
Proof.
  induction parts as [|t parts IH]; intros F; [reflexivity|].
  inversion F as [|? ? Ht Hr]; subst. cbn [extractLogTag_parts].
  rewrite (logTag_of_part_malformed t Ht). cbn [bind]. now apply IH.
Qed.

Lemma extractLogTag_raw_well_formed (pre post : list string) (v : string) :
  Forall (fun t => no_space t = true) (pre ++ post) ->
  no_space v = true ->
  Forall (fun t => forall w, t <> log_token w) pre ->
  extractLogTag (raw_tag (pre ++ log_token v :: post)) = Some v.
Proof.
  intros NS NV NW. rewrite extractLogTag_raw, Split_concat.
  - now apply extractLogTag_parts_well_formed.
  - now destruct pre.
  - apply Forall_app in NS. destruct NS as [A B].
    apply Forall_app. split; [exact A|].
    constructor; [now apply no_space_log_token | exact B].
Qed.

(** X14.  The loop of [extractLogTag] returns on a token exactly when
    the token is [log:"v"], and then it returns [v].  So a tag written
    between backticks from tokens separated by single spaces yields the
    value of its first token of this form, whatever stands before it: a
    token that starts with [log:] without a quoted value is passed over
    like any other.  A tag without a token of this form yields the empty
    string. *)
Theorem extractLogTag_well_formed_tokens :
  (forall part v,
     logTag_of_part part = Some (Some v) <-> part = log_token v)
  /\ (forall pre post v,
        Forall (fun t => no_space t = true) (pre ++ post) ->
        no_space v = true ->
        Forall (fun t => forall w, t <> log_token w) pre ->
        extractLogTag (raw_tag (pre ++ log_token v :: post)) = Some v)
  /\ (forall tokens,
        Forall (fun t => no_space t = true) tokens ->
        Forall (fun t => forall w, t <> log_token w) tokens ->
        extractLogTag (raw_tag tokens) = Some "").
Proof.
  split; [|split].
  - intros part v. split; [apply logTag_of_part_shape|].
    intros ->. apply logTag_of_part_log.
  - apply extractLogTag_raw_well_formed.
  - intros tokens NS NW. rewrite extractLogTag_raw.
    destruct tokens as [|t l]; [reflexivity|].
    rewrite Split_concat; [|discriminate|exact NS].
    now apply extractLogTag_parts_no_well_formed.
Qed.

(** Tags with a token that is not well formed: a value without quotes,
    an empty value, a value with a space, a key in upper case; and a
    well-formed token without the backticks around it. *)
Example extractLogTag_malformed_tokens :
  map extractLogTag
    [raw_tag ["log:redact"; log_token "-"];
     raw_tag ["log:"; log_token "redact"];
     raw_tag ["log:" ++ dquote ++ "a"; "b" ++ dquote];
     raw_tag ["Log:" ++ dquote ++ "-" ++ dquote];
     log_token "-"]
  = [Some "-"; Some "redact"; Some ""; Some ""; Some "-"].
Proof. reflexivity. Qed.

(** ** The extractor: descriptors *)

Lemma tag_of_total (tag : option string) :
  exists tl, tag_of tag = Some tl
    /\ fst tl = match tag with Some v => v | None => "" end
    /\ match tag with
       | Some v => extractLogTag v
       | None => Some ""
       end = Some (snd tl).
Proof.
  destruct tag as [v|]; cbn [tag_of].
  - destruct (extractLogTag_total v) as [l E]. rewrite E. cbn [bind].
    now exists (v, l).
  - now exists ("", "").
Qed.

Lemma fields_of_total (g : Field) :
  exists tl, tag_of (group_tag g) = Some tl
    /\ fields_of g
       = Some (map (fun name => {| Name := name;
                                   Type_ := typeToString (group_type g);
                                   Tag := fst tl;
                                   LogTag := snd tl;
                                   IsPointer := isPointerType (group_type g) |})
                 (group_names g)).
Proof.
  destruct g as [names ty tag]. cbn [group_tag group_type group_names].
  destruct (tag_of_total tag) as [tl [E _]]. exists tl. split; [exact E|].
  cbn [fields_of]. rewrite E. cbn [bind]. now destruct names.
Qed.

Lemma isPointerType_star (ty : Expr) :
  isPointerType ty = true ->
  exists x, ty = StarExpr x.
Proof.
  destruct ty; try discriminate. intros _. now eexists.
Qed.

(** X15.  [extractFields] never panics.  It returns, in the order of the
    source, one descriptor for each name of each field group, and one
    named by the text of its type for a group without a name; a
    descriptor carries the text of the type of its group, the raw tag of
    the group and its log tag (both empty without a tag), and the
    pointer flag of the type.  The type of a descriptor with the pointer
    flag starts with [*], which is all [getSlogFunction] strips. *)
Theorem extractFields_descriptors (fields : list Field) :
  exists fs,
    extractFields fields = Some fs
    /\ map Name fs = flat_map group_names fields
    /\ (forall d, In d fs ->
          exists g, In g fields
            /\ In (Name d) (group_names g)
            /\ Type_ d = typeToString (group_type g)
            /\ IsPointer d = isPointerType (group_type g)
            /\ Tag d = match group_tag g with Some v => v | None => "" end
            /\ match group_tag g with
               | Some v => extractLogTag v
               | None => Some ""
               end = Some (LogTag d))
    /\ (forall d, In d fs -> IsPointer d = true ->
          Type_ d = "*" ++ base_type d).
Proof.
  assert (Main : exists fs,
    extractFields fields = Some fs
    /\ map Name fs = flat_map group_names fields
    /\ (forall d, In d fs ->
          exists g, In g fields
            /\ In (Name d) (group_names g)
            /\ Type_ d = typeToString (group_type g)
            /\ IsPointer d = isPointerType (group_type g)
            /\ Tag d = match group_tag g with Some v => v | None => "" end
            /\ match group_tag g with
               | Some v => extractLogTag v
               | None => Some ""
               end = Some (LogTag d))).
  { induction fields as [|g fields [more [E [N D]]]].
    - exists []. repeat split. intros d [].
    - destruct (fields_of_total g) as [tl [T F]].
      cbn [extractFields]. rewrite F, E. cbn [bind]. eexists.
      split; [reflexivity|]. split.
      + rewrite map_app, N, map_map. cbn [Name flat_map].
        now rewrite map_id.
      + intros d Hd. apply in_app_or in Hd. destruct Hd as [Hd|Hd].
        * apply in_map_iff in Hd. destruct Hd as [name [<- Hn]].
          exists g. cbn [Name Type_ IsPointer Tag LogTag].
          destruct (tag_of_total (group_tag g)) as [tl' [T' [A B]]].
          rewrite T in T'. injection T' as <-.
          repeat split; auto. now left.
        * destruct (D d Hd) as [g' [Hg R]]. exists g'.
          split; [now right | exact R]. }
  destruct Main as [fs [E [N D]]]. exists fs.
  split; [exact E|]. split; [exact N|]. split; [exact D|].
  intros d Hd P. destruct (D d Hd) as [g [_ [_ [T [I _]]]]].
  rewrite P in I. symmetry in I.
  destruct (isPointerType_star _ I) as [x X].
  unfold base_type. rewrite P, T, X. cbn [typeToString].
  now rewrite TrimPrefix_star.
Qed.

(** ** The extractor: struct declarations *)

Lemma extractFields_total (fields : list Field) :
  exists fs, extractFields fields = Some fs.
Proof.
  induction fields as [|g fields [more E]]; [now eexists|].
  destruct (fields_of_total g) as [tl [_ F]].
  cbn [extractFields]. rewrite F, E. cbn [bind]. now eexists.
Qed.

Lemma structs_of_specs_declared (pkg filePath : string) (specs : list Spec) :
  exists ss,
    structs_of_specs pkg filePath specs = Some ss
    /\ Forall2 (struct_of pkg filePath) (struct_specs specs) ss.
Proof.
  induction specs as [|s specs [ss [E F]]].
  - exists []. split; [reflexivity | constructor].
  - destruct s as [| |name ty];
      try (exists ss; split; [exact E | exact F]).
    destruct ty; try (exists ss; split; [exact E | exact F]).
    destruct (extractFields_total Fields) as [fs Ef].
    cbn [structs_of_specs]. rewrite Ef, E. cbn [bind]. eexists.
    split; [reflexivity|].
    cbn [struct_specs flat_map app]. constructor; [|exact F].
    repeat split. exact Ef.
Qed.

Lemma structs_of_nodes_declared (pkg filePath : string) (nodes : list Node) :
  exists ss,
    structs_of_nodes pkg filePath nodes = Some ss
    /\ Forall2 (struct_of pkg filePath)
         (flat_map (fun n => match n with
                             | GenDecl TYPE specs _ => struct_specs specs
                             | _ => []
                             end) nodes) ss.
Proof.
  induction nodes as [|n nodes [ss [E F]]].
  - exists []. split; [reflexivity | constructor].
  - assert (H : exists here,
               structs_of_node pkg filePath n = Some here
               /\ Forall2 (struct_of pkg filePath)
                    (match n with
                     | GenDecl TYPE specs _ => struct_specs specs
                     | _ => []
                     end) here).
    { destruct n as [tok specs below|below].
      - destruct tok; cbn [structs_of_node];
          try (exists []; split; [reflexivity | constructor]).
        apply structs_of_specs_declared.
      - exists []. split; [reflexivity | constructor]. }
    destruct H as [here [Eh Fh]].
    cbn [structs_of_nodes]. rewrite Eh, E. cbn [bind]. eexists.
    split; [reflexivity|]. cbn [flat_map]. now apply Forall2_app.
Qed.

Lemma extractStructs_total (file : File) (filePath : string) :
  exists ss,
    extractStructs file filePath = Some ss
    /\ Forall2 (struct_of (File_Name file) filePath)
         (declared_structs file) ss.
Proof.
  apply structs_of_nodes_declared.
Qed.

(** X16.  [extractStructs] never panics.  It returns one descriptor for
    each type spec with a struct type that stands in a [type]
    declaration of the unit, at any depth, in the order [ast.Inspect]
    meets them: the descriptor has the name of the spec, the package
    name of the unit, the path given, and the descriptors of the fields
    of the spec; nothing else of the unit yields a descriptor. *)
Theorem extractStructs_declared (file : File) (filePath : string) :
  exists ss,
    extractStructs file filePath = Some ss
    /\ Forall2 (struct_of (File_Name file) filePath)
         (declared_structs file) ss
    /\ List.length ss = List.length (declared_structs file)
    /\ map Struct_Name ss = map fst (declared_structs file).
Proof.
  destruct (extractStructs_total file filePath) as [ss [E F]].
  exists ss. split; [exact E|]. split; [exact F|].
  clear E. induction F as [|d s ds ss [N _] F [L M]]; [now split|].
  cbn [List.length map]. now rewrite L, M, N.
Qed.

(** A unit with a struct declared inside a function, a type that is not
    a struct, and a variable: the two structs are found, the outer one
    first. *)
Example extractStructs_nested :
  extractStructs
    {| File_Name := "demo";
       Decls :=
         [GenDecl TYPE [TypeSpec "ID" (Ident "int");
                        TypeSpec "User" (StructType
                          [mkField ["ID"; "Age"] (Ident "int") None])] [];
          GenDecl VAR [ValueSpec] [];
          OtherNode [OtherNode
            [GenDecl TYPE [TypeSpec "local" (StructType
               [mkField [] (StarExpr (Ident "User"))
                  (Some (raw_tag [log_token "-"]))])] []]]];
       Comments := [] |} "demo.go"
  = Some [{| Struct_Name := "User"; Struct_PackageName := "demo";
             Struct_Fields :=
               [{| Name := "ID"; Type_ := "int"; Tag := ""; LogTag := "";
                   IsPointer := false |};
                {| Name := "Age"; Type_ := "int"; Tag := ""; LogTag := "";
                   IsPointer := false |}];
             Struct_FilePath := "demo.go" |};
          {| Struct_Name := "local"; Struct_PackageName := "demo";
             Struct_Fields :=
               [{| Name := "*User"; Type_ := "*User";
                   Tag := raw_tag [log_token "-"]; LogTag := "-";
                   IsPointer := true |}];
             Struct_FilePath := "demo.go" |}].
Proof. reflexivity. Qed.
End Tokens.

(** ** The extractor: units and packages *)

Section Units.
Import GoStrings Parser ParserDir.
Context {U : Unicode}.

Lemma hasOakDirective_total (file : File) :
  trims_spaces_only ->
  (forall g c, In g (Comments file) -> In c g -> scanner_comment c = true) ->
  hasOakDirective file
  = Some (existsb (existsb has_directive) (Comments file)).
Proof.
  intros L C. apply hasOakDirective_groups_spec. intros g c Hg Hc.
  apply directive_text_total; [exact L | now apply (C g c)].
Qed.

(** X17.  On a unit whose comments are comments of the scanner,
    [ParseFile] never panics.  When the Go parser fails it returns no
    result and the error of the parser after the path; when the unit
    parses it returns no error and a result, whose error list is empty
    and whose structs are those the unit declares when a comment
    carries the directive, each with the path given and the package
    name of the unit, and none otherwise.  So it returns a result or an
    error, never both and never neither. *)
Theorem ParseFile_outcome (parser_ParseFile : string -> File + string)
  (filePath : string) :
  trims_spaces_only ->
  (forall file g c,
     parser_ParseFile filePath = inl file ->
     In g (Comments file) -> In c g -> scanner_comment c = true) ->
  exists result err,
    ParseFile parser_ParseFile filePath = Some (result, err)
    /\ (result = None <-> err <> None)
    /\ (forall e, parser_ParseFile filePath = inr e ->
          result = None
          /\ err = Some ("failed to parse file " ++ filePath ++ ": " ++ e))
    /\ (forall file, parser_ParseFile filePath = inl file ->
          err = None
          /\ exists structs,
               result = Some {| Structs := structs; Errors := [] |}
               /\ Forall2 (struct_of (File_Name file) filePath)
                    (if existsb (existsb has_directive) (Comments file)
                     then declared_structs file else [])
                    structs)
    /\ (forall r, result = Some r ->
          exists file,
            parser_ParseFile filePath = inl file
            /\ Errors r = []
            /\ Forall2 (struct_of (File_Name file) filePath)
                 (if existsb (existsb has_directive) (Comments file)
                  then declared_structs file else [])
                 (Structs r)).
Proof.
  intros L C. unfold ParseFile.
  destruct (parser_ParseFile filePath) as [file|e] eqn:P.
  - rewrite (hasOakDirective_total file L (fun g c => C file g c eq_refl)).
    cbn [bind].
    destruct (existsb (existsb has_directive) (Comments file)) eqn:D;
      cbn [negb].
    + destruct (extractStructs_total file filePath) as [ss [E F]].
      rewrite E. cbn [bind]. do 2 eexists. split; [reflexivity|].
      split; [split; [discriminate | congruence]|].
      split; [discriminate|].
      split.
      * intros file' [= <-]. split; [reflexivity|]. exists ss.
        split; [reflexivity|]. rewrite D. exact F.
      * intros r [= <-]. exists file. cbn [Errors Structs]. rewrite D.
        repeat split. exact F.
    + do 2 eexists. split; [reflexivity|].
      split; [split; [discriminate | congruence]|].
      split; [discriminate|].
      split.
      * intros file' [= <-]. split; [reflexivity|]. exists [].
        split; [reflexivity|]. rewrite D. constructor.
      * intros r [= <-]. exists file. cbn [Errors Structs]. rewrite D.
        repeat split. constructor.
  - do 2 eexists. split; [reflexivity|].
    split; [split; [discriminate | reflexivity]|].
    split; [now intros e' [= <-]|].
    split; discriminate.
Qed.

Lemma ParsePackage_files_structs (files : list (string * File)) :
  trims_spaces_only ->
  (forall p file g c, In (p, file) files ->
     In g (Comments file) -> In c g -> scanner_comment c = true) ->
  exists structs,
    ParsePackage_files files = Some structs
    /\ forall s, In s structs <->
         exists p file ss,
           In (p, file) files
           /\ existsb (existsb has_directive) (Comments file) = true
           /\ extractStructs file p = Some ss
           /\ In s ss.
Proof.
  intros L. induction files as [|[p file] files IH]; intros C.
  - exists []. split; [reflexivity|]. intros s. split; [intros []|].
    intros [? [? [? [[] _]]]].
  - destruct IH as [more [E M]].
    { intros p' f' g c H. apply (C p' f' g c). now right. }
    cbn [ParsePackage_files].
    rewrite (hasOakDirective_total file L
               (fun g c => C p file g c (or_introl eq_refl))).
    cbn [bind].
    destruct (existsb (existsb has_directive) (Comments file)) eqn:D;
      cbn [negb].
    + destruct (extractStructs_total file p) as [ss [Es _]].
      rewrite Es, E. cbn [bind]. eexists. split; [reflexivity|].
      intros s. rewrite in_app_iff, M. split.
      * intros [Hs|[p' [f' [ss' [H R]]]]].
        -- exists p, file, ss. repeat split; auto. now left.
        -- exists p', f', ss'. split; [now right | exact R].
      * intros [p' [f' [ss' [[H|H] [D' [Es' Hs]]]]]].
        -- injection H as <- <-. left. congruence.
        -- right. exists p', f', ss'. auto.
    + exists more. split; [exact E|]. intros s. rewrite M. split.
      * intros [p' [f' [ss' [H R]]]]. exists p', f', ss'.
        split; [now right | exact R].
      * intros [p' [f' [ss' [[H|H] [D' [Es' Hs]]]]]].
        -- injection H as <- <-. congruence.
        -- exists p', f', ss'. auto.
Qed.

Lemma ParsePackage_packages_structs (packages : list (list (string * File))) :
  trims_spaces_only ->
  (forall pkg p file g c, In pkg packages -> In (p, file) pkg ->
     In g (Comments file) -> In c g -> scanner_comment c = true) ->
  exists structs,
    ParsePackage_packages packages = Some structs
    /\ forall s, In s structs <->
         exists pkg p file ss,
           In pkg packages /\ In (p, file) pkg
           /\ existsb (existsb has_directive) (Comments file) = true
           /\ extractStructs file p = Some ss
           /\ In s ss.
Proof.
  intros L. induction packages as [|pkg packages IH]; intros C.
  - exists []. split; [reflexivity|]. intros s. split; [intros []|].
    intros [? [? [? [? [[] _]]]]].
  - destruct IH as [more [E M]].
    { intros pkg' p f g c H. apply (C pkg' p f g c). now right. }
    destruct (ParsePackage_files_structs pkg L) as [here [Eh Mh]].
    { intros p f g c H. apply (C pkg p f g c). now left. exact H. }
    cbn [ParsePackage_packages]. rewrite Eh, E. cbn [bind]. eexists.
    split; [reflexivity|].
    intros s. rewrite in_app_iff, M, Mh. split.
    + intros [[p [f [ss R]]]|[pkg' [p [f [ss [H R]]]]]].
      * exists pkg, p, f, ss. split; [now left | exact R].
      * exists pkg', p, f, ss. split; [now right | exact R].
    + intros [pkg' [p [f [ss [[H|H] R]]]]].
      * subst pkg'. left. now exists p, f, ss.
      * right. now exists pkg', p, f, ss.
Qed.

(** X18.  On a directory that parses and whose comments are comments of
    the scanner, [ParsePackage] never panics and returns a result and no
    error; the structs of the result are exactly those [extractStructs]
    finds, under the path of the unit, in the units that carry the
    directive: a unit without the directive adds nothing, whatever it
    declares. *)
Theorem ParsePackage_structs
  (parser_ParseDir : string -> list (list (string * File)) + string)
  (packagePath : string) (packages : list (list (string * File))) :
  trims_spaces_only ->
  parser_ParseDir packagePath = inl packages ->
  (forall pkg p file g c, In pkg packages -> In (p, file) pkg ->
     In g (Comments file) -> In c g -> scanner_comment c = true) ->
  exists structs,
    ParsePackage parser_ParseDir packagePath
    = Some (Some {| Structs := structs; Errors := [] |}, None)
    /\ forall s, In s structs <->
         exists pkg p file ss,
           In pkg packages /\ In (p, file) pkg
           /\ existsb (existsb has_directive) (Comments file) = true
           /\ extractStructs file p = Some ss
           /\ In s ss.
Proof.
  intros L P C. unfold ParsePackage. rewrite P.
  destruct (ParsePackage_packages_structs packages L C) as [structs [E M]].
  rewrite E. cbn [bind]. now exists structs.
Qed.
End Units.

(** ** From the tag in the source to the action *)

Section FromTagToAction.
Import GoStrings Parser Config Types.
Context {U : Unicode}.
Variable ta : TypeAnalyzer.

(** X19.  Let a field group carry a tag written between backticks from
    tokens separated by single spaces, whose first token of the form
    [log:"v"] has the value [v].  Then every descriptor [extractFields]
    makes of the group has the log tag [v], and [AnalyzeField] gives it
    [ActionSkip] when [v] is [-], [ActionRedact] when [v] is [redact]
    or the configuration matches its name, and [ActionLog] otherwise. *)
Theorem source_tag_decides_action (names : list string) (ty : Expr)
  (pre post : list string) (v : string) :
  Forall (fun t => no_space t = true) (pre ++ post) ->
  no_space v = true ->
  Forall (fun t => forall w, t <> log_token w) pre ->
  exists fs,
    fields_of (mkField names ty
                 (Some (raw_tag (pre ++ log_token v :: post)))) = Some fs
    /\ map Name fs = group_names (mkField names ty None)
    /\ Forall (fun d =>
         LogTag d = v
         /\ Action (AnalyzeField ta d) =
            if String.eqb v "-" then ActionSkip
            else if String.eqb v "redact"
                    || ShouldRedactField (config ta) (Name d)
                 then ActionRedact
                 else ActionLog) fs.
Proof.
  intros NS NV NW.
  pose proof (extractLogTag_raw_well_formed pre post v NS NV NW) as E.
  destruct (fields_of_total
              (mkField names ty (Some (raw_tag (pre ++ log_token v :: post)))))
    as [tl [T F]].
  cbn [group_tag tag_of] in T. rewrite E in T. cbn [bind] in T.
  injection T as <-. rewrite F. eexists. split; [reflexivity|].
  cbn [group_names group_type fst snd]. split.
  - rewrite map_map. cbn [Name]. rewrite map_id. now destruct names.
  - apply Forall_forall. intros d Hd. apply in_map_iff in Hd.
    destruct Hd as [name [<- _]]. split; [reflexivity|].
    rewrite AnalyzeField_Action. unfold shouldRedactField.
    cbn [LogTag Name].
    destruct (String.eqb v "-"); [reflexivity|].
    now destruct (String.eqb v "redact").
Qed.
End FromTagToAction.

Section UnitInstances.
Import GoStrings Parser ParserDir Config Types.

(** Witness of X17: a unit with the directive. *)
Lemma ParseFile_outcome_witness :
  exists result err,
    ParseFile (U := plain_Unicode)
      (fun _ => inl (unit_with [["//go:generate oak"]])) "user.go"
    = Some (result, err)
    /\ err = None
    /\ exists structs,
         result = Some {| Structs := structs; Errors := [] |}
         /\ Forall2 (struct_of "main" "user.go")
              (declared_structs (unit_with [["//go:generate oak"]]))
              structs.
Proof.
  destruct (ParseFile_outcome (U := plain_Unicode)
              (fun _ => inl (unit_with [["//go:generate oak"]])) "user.go"
              plain_Unicode_trims_spaces_only)
    as [result [err [E [_ [_ [H _]]]]]].
  - intros file g c [= <-] [<-|[]] [<-|[]]. reflexivity.
  - exists result, err. split; [exact E|].
    exact (H (unit_with [["//go:generate oak"]]) eq_refl).
Defined.

(** Witness of X18: a package of two units, one with the directive. *)
Lemma ParsePackage_structs_witness :
  exists structs,
    ParsePackage (U := plain_Unicode)
      (fun _ => inl [[("a.go", unit_with [["//go:generate oak"]]);
                      ("b.go", unit_with [["// Package main"]])]]) "."
    = Some (Some {| Structs := structs; Errors := [] |}, None)
    /\ forall s, In s structs <->
         exists pkg p file ss,
           In pkg [[("a.go", unit_with [["//go:generate oak"]]);
                    ("b.go", unit_with [["// Package main"]])]]
           /\ In (p, file) pkg
           /\ existsb (existsb (has_directive (U := plain_Unicode)))
                (Comments file) = true
           /\ extractStructs file p = Some ss
           /\ In s ss.
Proof.
  apply (ParsePackage_structs (U := plain_Unicode)
           (fun _ => inl [[("a.go", unit_with [["//go:generate oak"]]);
                           ("b.go", unit_with [["// Package main"]])]]) "."
           [[("a.go", unit_with [["//go:generate oak"]]);
             ("b.go", unit_with [["// Package main"]])]]
           plain_Unicode_trims_spaces_only eq_refl).
  intros pkg p file g c [<-|[]] [[= <- <-]|[[= <- <-]|[]]] [<-|[]] [<-|[]];
    reflexivity.
Defined.

(** Witness of X19: the group [Password, Token string] with the tag
    [json:"-" log:"-"]. *)
Lemma source_tag_decides_action_witness :
  exists fs,
    fields_of (mkField ["Password"; "Token"] (Ident "string")
                 (Some (raw_tag (["json:" ++ dquote ++ "-" ++ dquote]
                                 ++ log_token "-" :: [])))) = Some fs
    /\ map Name fs
       = group_names (mkField ["Password"; "Token"] (Ident "string") None)
    /\ Forall (fun d =>
         LogTag d = "-"
         /\ Action (AnalyzeField (U := plain_Unicode)
                      (analyzer_of ["password"] "[REDACTED]") d) =
            if String.eqb "-" "-" then ActionSkip
            else if String.eqb "-" "redact"
                    || ShouldRedactField (U := plain_Unicode)
                         (config (analyzer_of ["password"] "[REDACTED]"))
                         (Name d)
                 then ActionRedact
                 else ActionLog) fs.
Proof.
  apply (source_tag_decides_action (U := plain_Unicode)
           (analyzer_of ["password"] "[REDACTED]")
           ["Password"; "Token"] (Ident "string")
           ["json:" ++ dquote ++ "-" ++ dquote] [] "-").
  - repeat constructor.
  - reflexivity.
  - repeat constructor. intros w H. discriminate H.
Defined.

(** The package of the witness: the structs of [a.go] alone. *)
Example ParsePackage_one_directive :
  ParsePackage (U := plain_Unicode)
    (fun _ => inl [[("a.go", unit_with [["//go:generate oak"]]);
                    ("b.go", unit_with [["// Package main"]])]]) "."
  = Some (Some {| Structs :=
                    [{| Struct_Name := "User";
                        Struct_PackageName := "main";
                        Struct_Fields :=
                          [{| Name := "Name"; Type_ := "string"; Tag := "";
                              LogTag := ""; IsPointer := false |}];
                        Struct_FilePath := "a.go" |}];
                  Errors := [] |}, None).
Proof. reflexivity. Qed.

(** A directory that does not parse. *)
Example ParsePackage_error :
  ParsePackage (U := plain_Unicode) (fun _ => inr "expected 'package'") "pkg"
  = Some (None, Some "failed to parse package pkg: expected 'package'").
Proof. reflexivity. Qed.
End UnitInstances.

(** ** The command line *)

Section CommandLine.
Import GoStrings Config Cli.
Context {FS : FileSystem}.

(** X20.  [GetProcessingTarget] chooses by priority: the source flag,
    then the package flag, then the positional arguments, then the
    configuration.  Its mode is [ModeSourceFile] exactly when the source
    flag is set, whatever else is given; [ModePackage] exactly when the
    package flag alone is set; [ModePositional] exactly when no flag is
    set and an argument is given; [ModeConfig] exactly when nothing is
    given.  The flag marker is set exactly in the two flag modes, and
    the paths are empty exactly in [ModeConfig]. *)
Theorem GetProcessingTarget_priority (opts : Options) :
  let target := GetProcessingTarget opts in
  (Mode target = ModeSourceFile <-> SourceFile opts <> "")
  /\ (Mode target = ModePackage <->
      SourceFile opts = "" /\ PackagePath opts <> "")
  /\ (Mode target = ModePositional <->
      SourceFile opts = "" /\ PackagePath opts = ""
      /\ PositionalArgs opts <> [])
  /\ (Mode target = ModeConfig <->
      SourceFile opts = "" /\ PackagePath opts = ""
      /\ PositionalArgs opts = [])
  /\ (UseFlags target = true <->
      Mode target = ModeSourceFile \/ Mode target = ModePackage)
  /\ (Paths target = [] <-> Mode target = ModeConfig)
  /\ (SourceFile opts <> "" -> Paths target = [SourceFile opts])
  /\ (Mode target = ModePackage -> Paths target = [PackagePath opts])
  /\ (Mode target = ModePositional -> Paths target = PositionalArgs opts).
Proof.
  cbv zeta. unfold GetProcessingTarget.
  destruct (String.eqb_spec (SourceFile opts) "") as [S|S]; cbn [negb].
  - destruct (String.eqb_spec (PackagePath opts) "") as [P|P]; cbn [negb].
    + destruct (PositionalArgs opts) as [|a l] eqn:A;
        cbn [List.length Nat.ltb Nat.leb Mode Paths UseFlags];
        repeat split; try discriminate; try tauto; try congruence;
        try (intros [H|H]; discriminate);
        try (intros [_ [_ H]]; congruence).
    + cbn [Mode Paths UseFlags].
      repeat split; try discriminate; try tauto; try congruence;
        try (intros [_ [H _]]; congruence).
  - cbn [Mode Paths UseFlags].
    repeat split; try discriminate; try tauto; try congruence;
      try (intros [H _]; congruence).
Qed.

Lemma Validate_positional_accepted (args : list string) :
  Validate_positional args = None
  <-> forallb argument_accepted args = true.
Proof.
  induction args as [|a args IH]; [now split|].
  cbn [Validate_positional forallb]. unfold argument_accepted at 1.
  destruct (String.eqb a "./..."); cbn [negb andb orb]; [exact IH|].
  destruct (String.eqb a "."); cbn [negb andb orb]; [exact IH|].
  destruct (stat_IsNotExist a); cbn [negb andb];
    [split; discriminate | exact IH].
Qed.

Lemma Validate_None_iff (opts : Options) :
  snd (Validate opts) = None <->
  (SourceFile opts = "" \/ PackagePath opts = "")
  /\ (SourceFile opts <> "" ->
      HasSuffix (SourceFile opts) ".go" = true
      /\ stat_IsNotExist (SourceFile opts) = false)
  /\ (PackagePath opts <> "" ->
      stat_IsNotExist (PackagePath opts) = false)
  /\ forallb argument_accepted (PositionalArgs opts) = true.
Proof.
  unfold Validate.
  destruct (String.eqb_spec (SourceFile opts) "") as [S|S];
    destruct (String.eqb_spec (PackagePath opts) "") as [P|P];
    cbn [negb andb orb fst snd].
  - rewrite Validate_positional_accepted.
    split; [intros H; repeat split; auto; contradiction | tauto].
  - destruct (stat_IsNotExist (PackagePath opts)) eqn:E.
    + split; [discriminate|]. intros [_ [_ [H _]]].
      specialize (H P). discriminate.
    + rewrite Validate_positional_accepted.
      split; [intros H; repeat split; auto; contradiction | tauto].
  - destruct (HasSuffix (SourceFile opts) ".go") eqn:G; cbn [negb].
    + destruct (stat_IsNotExist (SourceFile opts)) eqn:E.
      * split; [discriminate|]. intros [_ [H _]].
        destruct (H S). discriminate.
      * rewrite Validate_positional_accepted.
        split; [intros H; repeat split; auto; contradiction | tauto].
    + split; [discriminate|]. intros [_ [H _]].
      destruct (H S). discriminate.
  - split; [discriminate|]. intros [[H|H] _]; contradiction.
Qed.

(** X21.  [Validate] returns no error exactly when at most one flag is
    set, the source file, if given, ends in [.go] and is not missing,
    the package path, if given, is not missing, and every positional
    argument is [./...], [.] or a path that is not missing; the
    arguments are checked also when a flag makes the tool ignore them.
    The warning is written exactly when one flag is set and a positional
    argument is given. *)
Theorem Validate_accepts_options (opts : Options) :
  (snd (Validate opts) = None <->
   (SourceFile opts = "" \/ PackagePath opts = "")
   /\ (SourceFile opts <> "" ->
       HasSuffix (SourceFile opts) ".go" = true
       /\ stat_IsNotExist (SourceFile opts) = false)
   /\ (PackagePath opts <> "" ->
       stat_IsNotExist (PackagePath opts) = false)
   /\ forallb argument_accepted (PositionalArgs opts) = true)
  /\ (fst (Validate opts) <> [] <->
      flag_set (SourceFile opts) <> flag_set (PackagePath opts)
      /\ PositionalArgs opts <> []).
Proof.
  split; [apply Validate_None_iff|].
  unfold Validate, flag_set.
  destruct (String.eqb (SourceFile opts) "");
    destruct (String.eqb (PackagePath opts) "");
    cbn [negb andb orb fst snd];
    try (split; [contradiction | intros [H _]; congruence]);
    (destruct (PositionalArgs opts) as [|a l];
     cbn [List.length Nat.ltb Nat.leb]; split;
     try contradiction; try (intros [_ H]; congruence);
     intros _; split; discriminate).
Qed.

(** X22.  After a [Validate] without error, every path of the target of
    [GetProcessingTarget] is [./...], [.] or a path that is not missing;
    the path of a flag is not missing, and the one of [ModeSourceFile]
    ends in [.go]. *)
Theorem Validate_guards_target (opts : Options) :
  snd (Validate opts) = None ->
  Forall (fun p => argument_accepted p = true)
    (Paths (GetProcessingTarget opts))
  /\ (Mode (GetProcessingTarget opts) = ModeSourceFile ->
      HasSuffix (SourceFile opts) ".go" = true)
  /\ (UseFlags (GetProcessingTarget opts) = true ->
      Forall (fun p => stat_IsNotExist p = false)
        (Paths (GetProcessingTarget opts))).
Proof.
  intros V. apply Validate_None_iff in V. destruct V as [_ [S [P A]]].
  rewrite forallb_forall in A. unfold GetProcessingTarget.
  destruct (String.eqb_spec (SourceFile opts) "") as [Es|Es]; cbn [negb].
  - destruct (String.eqb_spec (PackagePath opts) "") as [Ep|Ep]; cbn [negb].
    + destruct (0 <? List.length (PositionalArgs opts))%nat;
        cbn [Mode Paths UseFlags]; repeat split; try discriminate;
        try constructor. apply Forall_forall. exact A.
    + specialize (P Ep). cbn [Mode Paths UseFlags].
      repeat split; try discriminate; repeat constructor; auto.
      unfold argument_accepted. rewrite P. now rewrite !orb_true_r.
  - destruct (S Es) as [G E]. cbn [Mode Paths UseFlags].
    repeat split; auto; repeat constructor; auto.
    unfold argument_accepted. rewrite E. now rewrite !orb_true_r.
Qed.
End CommandLine.

(** ** The command line: the packages below a directory *)

Section Walking.
Import GoStrings Cli.
Context {D : Disk}.

Lemma ExpandPaths_loop_plain (paths expanded : list string) :
  ~ In "./..." paths ->
  ExpandPaths_loop paths expanded = (Some (expanded ++ paths)%list, None).
Proof.
  revert expanded. induction paths as [|p paths IH]; intros expanded N.
  - cbn. now rewrite app_nil_r.
  - cbn [ExpandPaths_loop].
    destruct (String.eqb_spec p "./...") as [->|E].
    + destruct N. now left.
    + rewrite IH; [now rewrite <- app_assoc|]. intros H. apply N. now right.
Qed.

(** X23.  On paths that do not hold the pattern [./...], [ExpandPaths]
    returns the paths as they are and no error, and does not look at the
    disk. *)
Theorem ExpandPaths_without_pattern (paths : list string) :
  ~ In "./..." paths -> ExpandPaths paths = (Some paths, None).
Proof.
  intros N. unfold ExpandPaths. now rewrite ExpandPaths_loop_plain.
Qed.

Lemma ExpandPaths_loop_packages (packages paths expanded : list string) :
  findGoPackages "." = (packages, None) ->
  ExpandPaths_loop paths expanded
  = (Some (expanded
           ++ flat_map (fun p => if String.eqb p "./..." then packages
                                 else [p]) paths)%list, None).
Proof.
  intros F. revert expanded.
  induction paths as [|p paths IH]; intros expanded.
  - cbn. now rewrite app_nil_r.
  - cbn [ExpandPaths_loop flat_map].
    destruct (String.eqb p "./...").
    + rewrite F, IH. now rewrite <- app_assoc.
    + rewrite IH. now rewrite <- app_assoc.
Qed.

Lemma ExpandPaths_loop_error (packages : list string) (err : string)
  (paths expanded : list string) :
  findGoPackages "." = (packages, Some err) ->
  In "./..." paths ->
  ExpandPaths_loop paths expanded
  = (None, Some ("failed to expand ./...: " ++ err)).
Proof.
  intros F. revert expanded.
  induction paths as [|p paths IH]; intros expanded I; [destruct I|].
  cbn [ExpandPaths_loop].
  destruct (String.eqb_spec p "./...") as [->|E].
  - now rewrite F.
  - apply IH. destruct I as [I|I]; [congruence | exact I].
Qed.

(** X24.  [ExpandPaths] keeps the order of the paths and puts, in the
    place of every [./...], the packages [findGoPackages] finds below
    [.]; when that search fails and the pattern occurs, it returns no
    paths and the error of the search after the pattern. *)
Theorem ExpandPaths_with_pattern (paths : list string) :
  (forall packages,
     findGoPackages "." = (packages, None) ->
     ExpandPaths paths
     = (Some (flat_map (fun p => if String.eqb p "./..." then packages
                                 else [p]) paths), None))
  /\ (forall packages err,
        findGoPackages "." = (packages, Some err) ->
        In "./..." paths ->
        ExpandPaths paths
        = (None, Some ("failed to expand ./...: " ++ err))).
Proof.
  split.
  - intros packages F. unfold ExpandPaths.
    now rewrite (ExpandPaths_loop_packages packages).
  - intros packages err F I. unfold ExpandPaths.
    now apply (ExpandPaths_loop_error packages).
Qed.

Lemma findGoPackages_dot :
  (forall t, os_Lstat "." = inl t -> tree_name t = ".") ->
  fst (findGoPackages ".") = [].
Proof.
  intros N. unfold findGoPackages, Walk.
  destruct (os_Lstat ".") as [t|e] eqn:L; [|reflexivity].
  specialize (N t eq_refl).
  destruct t as [n|n rerr entries|n d e]; cbn [tree_name] in N; subst n.
  - reflexivity.
  - cbn [walk]. unfold findGoPackages_walkFn at 1.
    destruct rerr; reflexivity.
  - reflexivity.
Qed.

Lemma ExpandPaths_loop_nothing (paths expanded : list string) :
  fst (findGoPackages ".") = [] ->
  ExpandPaths_loop paths expanded
  = (Some (expanded
           ++ filter (fun p => negb (String.eqb p "./...")) paths)%list,
     None)
  \/ exists e,
       snd (findGoPackages ".") = Some e
       /\ In "./..." paths
       /\ ExpandPaths_loop paths expanded
          = (None, Some ("failed to expand ./...: " ++ e)).
Proof.
  intros F. revert expanded.
  induction paths as [|p paths IH]; intros expanded.
  - left. cbn. now rewrite app_nil_r.
  - cbn [ExpandPaths_loop filter].
    destruct (String.eqb_spec p "./...") as [->|E]; cbn [negb].
    + destruct (findGoPackages ".") as [pk [e|]] eqn:G; cbn [fst snd] in *.
      * right. exists e. repeat split. now left.
      * subst pk. rewrite app_nil_r.
        destruct (IH expanded) as [->|[e [Se _]]]; [now left | discriminate].
    + destruct (IH (expanded ++ [p])%list) as [->|[e [Se [I R]]]].
      * left. now rewrite <- app_assoc.
      * right. exists e. repeat split; [exact Se | now right | exact R].
Qed.

(** X25.  [os.Lstat] names what it finds by the last element of the
    path, so the root [.] of the walk is named [.].  Then the function
    [findGoPackages] hands to [filepath.Walk] takes the root for a
    hidden directory and skips it: [findGoPackages(".")] returns no
    package, and [ExpandPaths] drops every [./...] from the paths, or
    fails with the error of the walk. *)
Theorem recursive_pattern_finds_nothing (paths : list string) :
  (forall t, os_Lstat "." = inl t -> tree_name t = ".") ->
  fst (findGoPackages ".") = []
  /\ (ExpandPaths paths
      = (Some (filter (fun p => negb (String.eqb p "./...")) paths), None)
      \/ exists e,
           snd (findGoPackages ".") = Some e
           /\ In "./..." paths
           /\ ExpandPaths paths
              = (None, Some ("failed to expand ./...: " ++ e))).
Proof.
  intros N. pose proof (findGoPackages_dot N) as F. split; [exact F|].
  apply (ExpandPaths_loop_nothing paths [] F).
Qed.

Lemma walk_go_packages :
  forall (t : Tree) (path : string) (acc : list string),
    readable t = true ->
    walk findGoPackages_walkFn path t acc
    = ((acc ++ go_packages path t)%list,
       if tree_isDir t && hidden (tree_name t) then SkipDir else WalkNil).
Proof.
  fix IH 1. intros t path acc R.
  destruct t as [n|n rerr entries|n d e].
  - cbn. now rewrite app_nil_r.
  - destruct rerr as [e|]; [discriminate|].
    cbn [walk go_packages tree_isDir tree_name andb].
    unfold findGoPackages_walkFn at 1. cbn [tree_isDir tree_name andb].
    fold (hidden n). destruct (hidden n) eqn:H.
    + now rewrite app_nil_r.
    + cbn [hasGoFilesInDir]. fold (holds_go_file entries).
      cbn [readable] in R.
      set (acc' := if holds_go_file entries then (acc ++ [path])%list
                   else acc).
      assert (A : (acc ++ (if holds_go_file entries then [path] else [])
                   = acc')%list).
      { subst acc'. destruct (holds_go_file entries);
          [reflexivity | apply app_nil_r]. }
      rewrite app_assoc, A. clear A. generalize acc'. clear acc'.
      revert R. induction entries as [|entry entries IHl]; intros R acc'.
      * now rewrite app_nil_r.
      * apply andb_true_iff in R. destruct R as [Re Rl].
        pose proof (IH entry (filepath_Join path (tree_name entry)) acc' Re)
          as W.
        destruct entry as [m|m rerr es|m d e]; [| |discriminate].
        -- rewrite W. cbn [tree_isDir andb]. rewrite (IHl Rl).
           now rewrite app_assoc.
        -- rewrite W. cbn [tree_isDir andb tree_name].
           destruct (hidden m); rewrite (IHl Rl); now rewrite app_assoc.
  - discriminate.
Qed.

(** X26.  On a tree that is read without an error, [findGoPackages]
    returns no error and, a directory before the directories below it
    and these in the order of their names, the paths of the directories
    that hold a file whose name ends in [.go] and that are not hidden,
    not named [vendor], and not below such a directory; files and what
    stands below a hidden directory add nothing. *)
Theorem findGoPackages_readable (root : string) (t : Tree) :
  os_Lstat root = inl t ->
  readable t = true ->
  findGoPackages root = (go_packages root t, None).
Proof.
  intros L R. unfold findGoPackages, Walk. rewrite L.
  rewrite (walk_go_packages t root [] R). cbn [app].
  now destruct (tree_isDir t && hidden (tree_name t)).
Qed.
End Walking.

(** ** The driver *)

Section Driver.
Import GoStrings Parser Config Cli Main.
Context {D : Disk}.

(** X27.  On the target [GetProcessingTarget] makes of the options,
    [getProcessingPaths] returns the one path of the flag, without
    expansion, when a flag is set; the expansion of the positional
    arguments when there are some and no flag; and otherwise the
    expansion of the packages of the configuration, which are never
    none: with no package configured the paths are [.] alone.  It never
    reports an unknown mode on such a target; it does on a mode outside
    the four. *)
Theorem getProcessingPaths_of_target (opts : Options) (cfg : Config.Config) :
  let target := GetProcessingTarget opts in
  (UseFlags target = true ->
   getProcessingPaths target cfg = (Some (Paths target), None))
  /\ (Mode target = ModePositional ->
      getProcessingPaths target cfg = ExpandPaths (PositionalArgs opts))
  /\ (Mode target = ModeConfig ->
      getProcessingPaths target cfg = ExpandPaths (GetPackages cfg)
      /\ GetPackages cfg <> []
      /\ (Packages cfg = [] ->
          getProcessingPaths target cfg = (Some ["."], None)))
  /\ snd (getProcessingPaths target cfg) <> Some "unknown processing mode"
  /\ (forall other,
        (Mode other < ModeConfig \/ ModePositional < Mode other)%Z ->
        getProcessingPaths other cfg
        = (None, Some "unknown processing mode")).
Proof.
  cbv zeta.
  assert (Other : forall other,
            (Mode other < ModeConfig \/ ModePositional < Mode other)%Z ->
            getProcessingPaths other cfg
            = (None, Some "unknown processing mode")).
  { unfold getProcessingPaths, ModeConfig, ModePositional, ModeSourceFile,
      ModePackage.
    intros other H.
    replace (Mode other =? 1)%Z with false by lia.
    replace (Mode other =? 2)%Z with false by lia.
    replace (Mode other =? 3)%Z with false by lia.
    replace (Mode other =? 0)%Z with false by lia.
    reflexivity. }
  unfold GetProcessingTarget.
  destruct (negb (String.eqb (SourceFile opts) ""));
    [cbn; repeat split; try discriminate; exact Other|].
  destruct (negb (String.eqb (PackagePath opts) ""));
    [cbn; repeat split; try discriminate; exact Other|].
  assert (X : forall paths,
             snd (ExpandPaths paths) <> Some "unknown processing mode").
  { intros paths. unfold ExpandPaths. generalize (@nil string).
    induction paths as [|p paths IH]; intros expanded;
      cbn [ExpandPaths_loop]; [discriminate|].
    destruct (String.eqb_spec p "./...") as [->|E]; [|apply IH].
    destruct (findGoPackages ".") as [pk [e|]]; [discriminate | apply IH]. }
  destruct (0 <? List.length (PositionalArgs opts))%nat;
    unfold getProcessingPaths; cbn [Mode Paths UseFlags].
  - change ((ModePositional =? ModeSourceFile)%Z
            || (ModePositional =? ModePackage)%Z) with false.
    change (ModePositional =? ModePositional)%Z with true. cbv iota.
    repeat split; try discriminate; try apply X. exact Other.
  - change ((ModeConfig =? ModeSourceFile)%Z
            || (ModeConfig =? ModePackage)%Z) with false.
    change (ModeConfig =? ModePositional)%Z with false.
    change (ModeConfig =? ModeConfig)%Z with true. cbv iota.
    repeat split; try discriminate; try apply X; try exact Other.
    + unfold GetPackages. destruct (Packages cfg); discriminate.
    + intros E. unfold GetPackages. rewrite E. reflexivity.
Qed.

(** *** The groups by package *)

Lemma map_get_set {A : Type} (m : list (string * list A)) (k k' : string)
  (v : list A) :
  map_get (map_set m k v) k' = if String.eqb k k' then v else map_get m k'.
Proof.
  unfold map_get. induction m as [|[k0 v0] m IH]; cbn [map_set find fst snd].
  - destruct (String.eqb k k'); reflexivity.
  - destruct (String.eqb_spec k0 k) as [->|E]; cbn [find fst snd].
    + destruct (String.eqb k k'); reflexivity.
    + destruct (String.eqb_spec k0 k') as [->|E'].
      * apply String.eqb_neq in E. rewrite String.eqb_sym in E.
        now rewrite E.
      * exact IH.
Qed.

Lemma map_set_keys {A : Type} (m : list (string * list A)) (k : string)
  (v : list A) :
  map fst (map_set m k v)
  = if existsb (String.eqb k) (map fst m) then map fst m
    else (map fst m ++ [k])%list.
Proof.
  induction m as [|[k0 v0] m IH]; cbn [map_set map fst existsb app];
    [reflexivity|].
  rewrite (String.eqb_sym k k0).
  destruct (String.eqb_spec k0 k) as [->|E]; cbn [map fst orb];
    [reflexivity|].
  rewrite IH. now destruct (existsb (String.eqb k) (map fst m)).
Qed.

Lemma map_set_NoDup {A : Type} (m : list (string * list A)) (k : string)
  (v : list A) :
  NoDup (map fst m) -> NoDup (map fst (map_set m k v)).
Proof.
  intros N. rewrite map_set_keys.
  destruct (existsb (String.eqb k) (map fst m)) eqn:E; [exact N|].
  apply NoDup_app; [exact N | repeat constructor; intros [] |].
  intros x Hx [<-|[]].
  apply existsb_eqb_In in Hx. congruence.
Qed.

Lemma map_set_In {A : Type} (m : list (string * list A)) (k k' : string)
  (v : list A) :
  In k' (map fst (map_set m k v)) <-> k' = k \/ In k' (map fst m).
Proof.
  rewrite map_set_keys.
  destruct (existsb (String.eqb k) (map fst m)) eqn:E.
  - apply existsb_eqb_In in E. split; [tauto|].
    intros [->|H]; assumption.
  - rewrite in_app_iff. cbn [In]. split.
    + intros [H|[H|[]]]; auto.
    + intros [->|H]; auto.
Qed.

Lemma groupStructsByPackage_step (structs : list StructInfo)
  (groups : list (string * list StructInfo)) (s : StructInfo) :
  grouping structs groups ->
  grouping (structs ++ [s])
    (map_set groups (Struct_PackageName s)
       (map_get groups (Struct_PackageName s) ++ [s])%list).
Proof.
  intros [G [N K]]. split; [|split].
  - intros pkg. rewrite map_get_set, filter_app, !G. cbn [filter].
    destruct (String.eqb_spec (Struct_PackageName s) pkg) as [->|E].
    + reflexivity.
    + now rewrite app_nil_r.
  - now apply map_set_NoDup.
  - intros pkg. rewrite map_set_In, K, map_app, in_app_iff. cbn [map In].
    split; [intros [->|H]; auto | intros [H|[H|[]]]; auto].
Qed.

Lemma groupStructsByPackage_fold (rest done : list StructInfo)
  (groups : list (string * list StructInfo)) :
  grouping done groups ->
  grouping (done ++ rest)
    (fold_left
       (fun groups s =>
          map_set groups (Struct_PackageName s)
            (map_get groups (Struct_PackageName s) ++ [s])%list)
       rest groups).
Proof.
  revert done groups. induction rest as [|s rest IH]; intros done groups G.
  - now rewrite app_nil_r.
  - cbn [fold_left].
    replace (done ++ s :: rest)%list with ((done ++ [s]) ++ rest)%list
      by now rewrite <- app_assoc.
    apply IH. now apply groupStructsByPackage_step.
Qed.

(** X28.  [groupStructsByPackage] files every struct under the name of
    its package: the group of a name holds the structs of that name, all
    of them and in their order, so structs of the same package name from
    different directories share a group; the keys are the package names
    that occur, each once, and no group is empty. *)
Theorem groupStructsByPackage_groups (structs : list StructInfo) :
  let groups := groupStructsByPackage structs in
  (forall pkg,
     map_get groups pkg
     = filter (fun s => String.eqb (Struct_PackageName s) pkg) structs)
  /\ NoDup (map fst groups)
  /\ (forall pkg, In pkg (map fst groups) <->
                  In pkg (map Struct_PackageName structs))
  /\ (forall pkg, In pkg (map fst groups) -> map_get groups pkg <> []).
Proof.
  cbv zeta.
  assert (G : grouping structs (groupStructsByPackage structs)).
  { apply (groupStructsByPackage_fold structs [] []).
    split; [reflexivity | split; [constructor | tauto]]. }
  destruct G as [G [N K]]. repeat split; try apply K; auto.
  intros pkg H. apply K in H. apply in_map_iff in H.
  destruct H as [s [E Hs]]. rewrite G. intros F.
  assert (I : In s (filter (fun s => String.eqb (Struct_PackageName s) pkg)
                      structs)).
  { apply filter_In. split; [exact Hs|]. now apply String.eqb_eq. }
  rewrite F in I. destruct I.
Qed.
End Driver.

Section CommandLineInstances.
Import GoStrings Parser Config Cli Main.

(** Witness of X22: the source flag on a file that exists. *)
Lemma Validate_guards_target_witness :
  Forall (fun p => argument_accepted (FS := some_paths_missing) p = true)
    (Paths (GetProcessingTarget (options_of "main.go" "" ["ignored"])))
  /\ (Mode (GetProcessingTarget (options_of "main.go" "" ["ignored"]))
      = ModeSourceFile ->
      HasSuffix (SourceFile (options_of "main.go" "" ["ignored"])) ".go"
      = true)
  /\ (UseFlags (GetProcessingTarget (options_of "main.go" "" ["ignored"]))
      = true ->
      Forall (fun p => stat_IsNotExist (FileSystem := some_paths_missing) p
                       = false)
        (Paths (GetProcessingTarget (options_of "main.go" "" ["ignored"])))).
Proof.
  apply (Validate_guards_target (FS := some_paths_missing)
           (options_of "main.go" "" ["ignored"])).
  reflexivity.
Defined.

(** Witness of X23: two paths without the pattern. *)
Lemma ExpandPaths_without_pattern_witness :
  ExpandPaths (D := a_disk) ["./cmd"; "."] = (Some ["./cmd"; "."], None).
Proof.
  apply (ExpandPaths_without_pattern (D := a_disk) ["./cmd"; "."]).
  intros [H|[H|[]]]; discriminate H.
Defined.

(** Witness of X25: the working directory holds Go files, and none is
    found. *)
Lemma recursive_pattern_finds_nothing_witness :
  fst (findGoPackages (D := a_disk) ".") = [].
Proof.
  refine (proj1 (recursive_pattern_finds_nothing (D := a_disk)
                   ["./..."] _)).
  intros t H. injection H as <-. reflexivity.
Defined.

(** Witness of X26: the packages below [cmd]. *)
Lemma findGoPackages_readable_witness :
  findGoPackages (D := a_disk) "cmd" = (["cmd"; "cmd/oak"], None).
Proof.
  apply (findGoPackages_readable (D := a_disk) "cmd"
           (Dir "cmd" None
              [Dir ".cache" None [File "c.go"];
               Dir "docs" None [File "index.md"];
               File "main.go";
               Dir "oak" None [File "oak.go"];
               Dir "vendor" None [Dir "lib" None [File "lib.go"]]]));
    reflexivity.
Defined.

(** [oak ./...] in the working directory of the disk: no path is left. *)
Example recursive_pattern_alone :
  getProcessingPaths (D := a_disk)
    (GetProcessingTarget (options_of "" "" ["./..."]))
    DefaultConfig
  = (Some [], None).
Proof. reflexivity. Qed.

(** The cases of [TestValidate], on a file system in which the paths
    below [/nonexistent] are missing; and a flag beside an argument
    that is missing. *)
Example Validate_tests :
  map (fun opts => snd (Validate (FS := some_paths_missing) opts))
    [options_of "/tmp/test.go" "" [];
     options_of "" "/tmp/testpkg" [];
     options_of "/tmp/test.go" "/tmp/testpkg" [];
     options_of "/nonexistent/file.go" "" [];
     options_of "test.txt" "" [];
     options_of "" "/nonexistent/package" [];
     options_of "/tmp/test.go" "" ["/nonexistent/arg"]]
  = [None;
     None;
     Some "--source and --package flags cannot be used together";
     Some "source file does not exist: /nonexistent/file.go";
     Some "source file must have .go extension: test.txt";
     Some "package path does not exist: /nonexistent/package";
     Some "path does not exist: /nonexistent/arg"].
Proof. reflexivity. Qed.

(** The cases of [TestGetProcessingTarget]; and a flag beside an
    argument. *)
Example GetProcessingTarget_tests :
  map GetProcessingTarget
    [options_of "main.go" "" [];
     options_of "" "./internal/booking" [];
     options_of "" "" ["./..."];
     options_of "" "" [];
     options_of "main.go" "" ["./..."]]
  = [{| Mode := ModeSourceFile; Paths := ["main.go"]; UseFlags := true |};
     {| Mode := ModePackage; Paths := ["./internal/booking"];
        UseFlags := true |};
     {| Mode := ModePositional; Paths := ["./..."]; UseFlags := false |};
     {| Mode := ModeConfig; Paths := []; UseFlags := false |};
     {| Mode := ModeSourceFile; Paths := ["main.go"]; UseFlags := true |}].
Proof. reflexivity. Qed.

(** The cases of [TestHasGoFilesInDir]. *)
Example hasGoFilesInDir_tests :
  map hasGoFilesInDir
    [Dir "withgo" None [File "main.go"];
     Dir "nogo" None [File "readme.txt"]]
  = [(true, None); (false, None)].
Proof. reflexivity. Qed.

(** Structs of two packages, one of them met twice. *)
Example groupStructsByPackage_example :
  map (fun kv => (fst kv, map Struct_Name (snd kv)))
    (groupStructsByPackage
       [{| Struct_Name := "User"; Struct_PackageName := "main";
           Struct_Fields := []; Struct_FilePath := "a/user.go" |};
        {| Struct_Name := "Order"; Struct_PackageName := "shop";
           Struct_Fields := []; Struct_FilePath := "shop/order.go" |};
        {| Struct_Name := "Flags"; Struct_PackageName := "main";
           Struct_Fields := []; Struct_FilePath := "b/flags.go" |}])
  = [("main", ["User"; "Flags"]); ("shop", ["Order"])].
Proof. reflexivity. Qed.
End CommandLineInstances.
